(** * JetSupport engine-wash dashboard

    A shallow embedding of the computation in [jetsupport_dashboard.py]
    (ΔSFC derivation, KPI formulas, wash-interval sweep, selection of the
    optimum, efficiency trajectories) and of the validation performed by
    [pages/Fleet_Heatmap.py].

    Python [float] is IEEE-754 binary64 with round-to-nearest-even: it is
    modelled by Rocq's primitive [float], which is the same format with the
    same rounding.  Python [int] is modelled by [Z]; [//] and [%] with a
    positive divisor are [Z.div] and [Z.modulo]. *)

From Stdlib Require Import ZArith QArith Qpower Lia Lqa List Bool String Floats.
Import ListNotations.
Set Warnings "-inexact-float".

Local Open Scope Z_scope.

(** * Part I: the embedding of the two pages *)

(** ** Python and NumPy primitives used by the scripts *)

Module Py.

(** Conversion of an [int] operand in mixed [int]/[float] arithmetic:
    the nearest double, ties to even (exact below [2^53]).  CPython
    raises [OverflowError] from [2^1024] on, far above what the widgets
    return; the statements that convert an integer are made within the
    widgets' bounds. *)
Definition float_of_int (z : Z) : float :=
  SF2Prim (binary_normalize prec emax z 0 false).

(** [range(n)]: [0, 1, ..., n-1], empty when [n <= 0]. *)
Definition range (n : Z) : list Z :=
  map Z.of_nat (seq 0 (Z.to_nat n)).

(** [range(start, stop, step)] for a positive [step]. *)
Definition range_step (start stop step : Z) : list Z :=
  map (fun k => start + step * Z.of_nat k)
      (seq 0 (Z.to_nat ((stop - start + step - 1) / step))).

(** [max(a, b)] on integers: [a] unless [b] is greater. *)
Definition max (a b : Z) : Z := if a <? b then b else a.

(** The scan of [np.argmax] over a float64 array: the running maximum
    [mp] is replaced when the next element is not [<=] it, and a NaN,
    once met, is returned at once. *)
Fixpoint argmax_scan (mp : float) (best i : nat) (l : list float) : nat :=
  match l with
  | [] => best
  | x :: l' =>
      if (x <=? mp)%float then argmax_scan mp best (S i) l'
      else if is_nan x then i
      else argmax_scan x i (S i) l'
  end.

(** [np.argmax(l)]: raises [ValueError] on an empty sequence ([None]). *)
Definition argmax (l : list float) : option nat :=
  match l with
  | [] => None
  | x :: l' => Some (if is_nan x then O else argmax_scan x O 1%nat l')
  end.

End Py.

(** NumPy's sum of a contiguous float64 array, [np.add.reduce], which
    pandas calls for the mean of a column.  The additions are not made
    left to right: [DOUBLE_pairwise_sum] of [loops_utils.h.src] is
    followed step by step, since the double it returns depends on the
    order. *)
Module Np.

Local Open Scope float_scope.

Definition PW_BLOCKSIZE : nat := 128.

(** The eight accumulators [r[0..7]]. *)
Record acc8 := Acc8 {
  r0 : float; r1 : float; r2 : float; r3 : float;
  r4 : float; r5 : float; r6 : float; r7 : float }.

(** [for (i = 8; i < n - (n % 8); i += 8) r[j] += a[i + j]]: every full
    group of eight cells goes to the accumulators; what is left (fewer
    than eight cells) is returned. *)
Fixpoint add_groups (r : acc8) (a : list float) : acc8 * list float :=
  match a with
  | a0 :: a1 :: a2 :: a3 :: a4 :: a5 :: a6 :: a7 :: a' =>
      add_groups (Acc8 (r0 r + a0) (r1 r + a1) (r2 r + a2) (r3 r + a3)
                       (r4 r + a4) (r5 r + a5) (r6 r + a6) (r7 r + a7)) a'
  | _ => (r, a)
  end.

(** The two cases without recursion: fewer than eight cells are added
    one by one, from [-0.0]; otherwise the accumulators start as the
    first eight cells, take the full groups, are combined as
    [((r0 + r1) + (r2 + r3)) + ((r4 + r5) + (r6 + r7))], and the cells
    left are added one by one. *)
Definition block_sum (a : list float) : float :=
  match a with
  | a0 :: a1 :: a2 :: a3 :: a4 :: a5 :: a6 :: a7 :: a' =>
      let '(r, rest) := add_groups (Acc8 a0 a1 a2 a3 a4 a5 a6 a7) a' in
      fold_left add rest
        (((r0 r + r1 r) + (r2 r + r3 r)) + ((r4 r + r5 r) + (r6 r + r7 r)))
  | _ => fold_left add a neg_zero
  end.

(** Above [PW_BLOCKSIZE] cells the array is cut in two, the first part
    being [n / 2] cells less [(n / 2) % 8], and the sums of the parts are
    added.  The recursion is on [fuel], which bounds its depth: each part
    is shorter than the whole, so the length of the array is enough
    (lemma [pairwise_sum_fuel] below). *)
Fixpoint pairwise_sum (fuel : nat) (a : list float) : float :=
  match fuel with
  | O => block_sum a
  | S fuel' =>
      let n := List.length a in
      if (PW_BLOCKSIZE <? n)%nat then
        let n2 := (n / 2)%nat in
        let n2 := (n2 - n2 mod 8)%nat in
        pairwise_sum fuel' (firstn n2 a) + pairwise_sum fuel' (skipn n2 a)
      else block_sum a
  end.

(** [a.sum()]: the reduction starts from the identity of [add], [0.0],
    to which the pairwise sum of the whole array is added.  (With that
    start, whether the short loop of [block_sum] begins at [-0.0], as it
    does now in NumPy, or at [0.0], as it did, changes no result.) *)
Definition sum (a : list float) : float :=
  0.0 + pairwise_sum (List.length a) a.

End Np.

(** ** The main page: jetsupport_dashboard.py *)

Module Dashboard.

Local Open Scope float_scope.

(** Constants (lines 174-177). *)
Definition CF : float := 3.16.
Definition fuel_flow : float := 0.521.
Definition deg_rate_default : float := 0.013.
Definition recovery_default : float := 1.00.

(** The two accumulators of the simulation loops. *)
Record sim := Sim { deg : float; fuel_burn : float }.

Definition sim0 : sim := Sim 0.0 0.0.

Section Core.

(** Script-level variables read by the cost-benefit block. *)
Variable flights_per_year : Z.
Variables flight_time fuel_price : float.
Variable wash_cost : Z.
Variables degradation_rate recovery_factor : float.

(** Lines 277-279: the body of the no-wash loop. *)
Definition baseline_body (s : sim) (_ : Z) : sim :=
  let fuel_burn' := fuel_burn s + (1.0 + deg s / 100.0) in
  let deg' := deg s + degradation_rate in
  Sim deg' fuel_burn'.

(** Lines 275-279. *)
Definition baseline_loop : sim :=
  fold_left baseline_body (Py.range flights_per_year) sim0.

(** Lines 280-281. *)
Definition baseline_fuel_kg : float :=
  fuel_flow * flight_time * 3600.0 * fuel_burn baseline_loop.
Definition baseline_cost : float := baseline_fuel_kg * fuel_price.

(** Lines 287-290: the body of the loop for interval [iv]. *)
Definition wash_body (iv : Z) (s : sim) (i : Z) : sim :=
  let fuel_burn' := fuel_burn s + (1.0 + deg s / 100.0) in
  let deg' := deg s + degradation_rate in
  let deg'' :=
    if ((i + 1) mod iv =? 0)%Z then deg' * (1.0 - recovery_factor)
    else deg' in
  Sim deg'' fuel_burn'.

(** Lines 284-290. *)
Definition wash_loop (iv : Z) : sim :=
  fold_left (wash_body iv) (Py.range flights_per_year) sim0.

(** The three lists filled by the sweep (line 273). *)
Record table := Table {
  fuel_costs : list float;
  wash_costs : list Z;
  net_savings : list float }.

Definition table0 : table := Table [] [] [].

(** Lines 291-295 for one interval. *)
Definition fuel_kg_of (iv : Z) : float :=
  fuel_flow * flight_time * 3600.0 * fuel_burn (wash_loop iv).
Definition fuel_cost_of (iv : Z) : float := fuel_kg_of iv * fuel_price.
Definition n_washes_of (iv : Z) : Z := (flights_per_year / iv)%Z.
Definition total_wash_cost_of (iv : Z) : Z :=
  (n_washes_of iv * wash_cost)%Z.
Definition net_of (iv : Z) : float :=
  baseline_cost
  - (fuel_cost_of iv + Py.float_of_int (total_wash_cost_of iv)).

(** Lines 283-298: one iteration of the sweep. *)
Definition sweep_body (t : table) (iv : Z) : table :=
  let fuel_cost := fuel_cost_of iv in
  let total_wash_cost := total_wash_cost_of iv in
  let net := net_of iv in
  Table (fuel_costs t ++ [fuel_cost])
        (wash_costs t ++ [total_wash_cost])
        (net_savings t ++ [net]).

Definition sweep (intervals : list Z) : table :=
  fold_left sweep_body intervals table0.

(** Lines 300-303. *)
Record optimum := Optimum {
  opt_idx : nat;
  opt_interval : Z;
  opt_net : float;
  opt_washes : Z }.

Definition optimize (intervals : list Z) : option optimum :=
  let t := sweep intervals in
  match Py.argmax (net_savings t) with
  | None => None
  | Some idx =>
      match nth_error intervals idx, nth_error (net_savings t) idx with
      | Some iv, Some net =>
          Some (Optimum idx iv net (flights_per_year / iv)%Z)
      | _, _ => None
      end
  end.

(** Lines 328-343: the three trajectories are built in one loop. *)
Record traj := Traj {
  eff_no : list float; eff_two : list float; eff_opt : list float;
  deg_no : float; deg_two : float; deg_opt : float }.

Definition traj0 : traj := Traj [] [] [] 0.0 0.0 0.0.

(** Line 331. *)
Definition interval_two : Z := Py.max (flights_per_year / 2)%Z 1%Z.

Definition traj_body (opt_iv : Z) (t : traj) (c : Z) : traj :=
  let eff_no' := eff_no t ++ [100 - deg_no t] in
  let eff_two' := eff_two t ++ [100 - deg_two t] in
  let eff_opt' := eff_opt t ++ [100 - deg_opt t] in
  let deg_no' := deg_no t + degradation_rate in
  let deg_two' := deg_two t + degradation_rate in
  let deg_opt' := deg_opt t + degradation_rate in
  let deg_two'' :=
    if ((c + 1) mod interval_two =? 0)%Z
    then deg_two' * (1.0 - recovery_factor) else deg_two' in
  let deg_opt'' :=
    if ((c + 1) mod opt_iv =? 0)%Z
    then deg_opt' * (1.0 - recovery_factor) else deg_opt' in
  Traj eff_no' eff_two' eff_opt' deg_no' deg_two'' deg_opt''.

Definition trajectories (opt_iv : Z) : traj :=
  fold_left (traj_body opt_iv) (Py.range flights_per_year) traj0.

End Core.

(** Line 272. *)
Definition intervals_of (max_interval : Z) : list Z :=
  Py.range_step 20 (max_interval + 1) 10.

End Dashboard.

(** ** Uploaded tables (pandas) *)

Module Pd.

Local Open Scope float_scope.
Local Open Scope string_scope.

(** A column read from a file is numeric (float64, a missing cell being
    NaN; an int64 column is read as the doubles of its integers, which is
    what its arithmetic and its mean give below [2^53]) or holds text.
    Columns of other types ([read_csv] gives bool for a column of
    True/False) are outside the tables described here. *)
Inductive Column :=
| NumCol (cells : list float)
| StrCol (cells : list string).

(** A DataFrame: its columns in file order, by name. *)
Definition DataFrame := list (string * Column).

Definition columns (df : DataFrame) : list string := map fst df.

Definition has_column (df : DataFrame) (name : string) : bool :=
  existsb (String.eqb name) (columns df).

(** [set(names).issubset(df.columns)] *)
Definition issubset (names : list string) (df : DataFrame) : bool :=
  forallb (has_column df) names.

(** [df.get(name)]: the column, or [None]. *)
Fixpoint get (df : DataFrame) (name : string) : option Column :=
  match df with
  | [] => None
  | (n, c) :: df' => if String.eqb name n then Some c else get df' name
  end.

(** [df[name] = col]: replaces the column in place, or appends it. *)
Fixpoint set (df : DataFrame) (name : string) (col : Column) : DataFrame :=
  match df with
  | [] => [(name, col)]
  | (n, c) :: df' =>
      if String.eqb name n then (n, col) :: df'
      else (n, c) :: set df' name col
  end.

(** Element-wise arithmetic on the cells of two numeric columns of one
    table. *)
Fixpoint zip_with (f : float -> float -> float) (a b : list float)
  : list float :=
  match a, b with
  | x :: a', y :: b' => f x y :: zip_with f a' b'
  | _, _ => []
  end.

(** [Series.mean()] on a float64 column ([nanops.nanmean]): the NaN
    cells are replaced by 0, the cells are summed by NumPy, and the sum is
    divided by the number of cells that were not NaN; the mean is NaN when
    there is none.  A column of text raises. *)
Definition mean_cells (cells : list float) : float :=
  let count := List.length (filter (fun x => negb (is_nan x)) cells) in
  let values := map (fun x => if is_nan x then 0.0 else x) cells in
  if (count =? 0)%nat then nan
  else Np.sum values / Py.float_of_int (Z.of_nat count).

Definition mean (c : Column) : option float :=
  match c with
  | NumCol cells => Some (mean_cells cells)
  | StrCol _ => None
  end.

End Pd.

(** ** The sidebar and the mode-specific inputs of the main page *)

Module Inputs.

Import Dashboard.
Local Open Scope float_scope.
Local Open Scope string_scope.

(** Values returned by the sidebar widgets (lines 137-171, 183-189,
    204-205, 271).  A widget given integer bounds returns an [int]. *)
Record sidebar := Sidebar {
  qar_mode : bool;
  qar_df : option Pd.DataFrame;
  EGT_before : Z;
  EGT_after : Z;
  flight_time : float;
  flights_per_year : Z;
  fuel_price : float;
  wash_cost : Z;
  degradation_rate_input : float;
  recovery_slider : Z;
  fuel_flow_pre_input : Z;
  fuel_flow_post_input : Z;
  max_interval : Z }.

(** A Python number: the fuel flows are [int] widget values or [float]
    column means. *)
Inductive num := Int (z : Z) | Float (x : float).

(** What lines 180-212 bind. *)
Record model := Model {
  degradation_rate : float;
  recovery_factor : float;
  dSFC : float;
  fuel_flows : option (num * num) }.

(** Lines 194-196 and Fleet_Heatmap.py line 51, for one row. *)
Definition delta_sfc_row (pre post : float) : float :=
  (pre - post) / pre * 100.0.

(** True division of two [int]: [ZeroDivisionError] on a zero divisor;
    otherwise the quotient of the two values as doubles, which is
    CPython's result whenever both are below [2^53] in magnitude. *)
Definition truediv (a b : Z) : option float :=
  if (b =? 0)%Z then None
  else Some (Py.float_of_int a / Py.float_of_int b).

(** Line 206. *)
Definition dSFC_manual (fuel_flow_pre fuel_flow_post : Z) : option float :=
  match truediv (fuel_flow_pre - fuel_flow_post) fuel_flow_pre with
  | Some q => Some (q * 100.0)
  | None => None
  end.

(** Line 212. *)
Definition dSFC_simulation (EGT_before EGT_after : Z) : float :=
  0.08 * Py.float_of_int (EGT_before - EGT_after).

(** Lines 193-201, for an uploaded table. *)
Definition dSFC_qar (df : Pd.DataFrame) : option (float * num * num) :=
  let both := Pd.issubset ["Fuel_Flow_Pre"; "Fuel_Flow_Post"] df in
  let computed :=
    if both then
      match Pd.get df "Fuel_Flow_Pre", Pd.get df "Fuel_Flow_Post" with
      | Some (Pd.NumCol pre), Some (Pd.NumCol post) =>
          let delta := Pd.NumCol (Pd.zip_with delta_sfc_row pre post) in
          match Pd.mean delta with
          | Some m => Some (Pd.set df "Delta_SFC" delta, m)
          | None => None
          end
      | _, _ => None
      end
    else Some (df, 1.6) in
  match computed with
  | None => None
  | Some (df', dSFC) =>
      let pre_col :=
        match Pd.get df' "Fuel_Flow_Pre" with
        | Some c => c | None => Pd.NumCol [1250]
        end in
      let post_col :=
        match Pd.get df' "Fuel_Flow_Post" with
        | Some c => c | None => Pd.NumCol [1230]
        end in
      match Pd.mean pre_col, Pd.mean post_col with
      | Some fuel_flow_pre, Some fuel_flow_post =>
          Some (dSFC, Float fuel_flow_pre, Float fuel_flow_post)
      | _, _ => None
      end
  end.

(** Lines 180-212; [None] when an exception is raised. *)
Definition mode_inputs (s : sidebar) : option model :=
  if qar_mode s then
    let degradation_rate := degradation_rate_input s in
    let recovery_factor := Py.float_of_int (recovery_slider s) / 100.0 in
    match qar_df s with
    | Some df =>
        match dSFC_qar df with
        | Some (d, pre, post) =>
            Some (Model degradation_rate recovery_factor d
                        (Some (pre, post)))
        | None => None
        end
    | None =>
        match dSFC_manual (fuel_flow_pre_input s) (fuel_flow_post_input s)
        with
        | Some d =>
            Some (Model degradation_rate recovery_factor d
                        (Some (Int (fuel_flow_pre_input s),
                               Int (fuel_flow_post_input s))))
        | None => None
        end
    end
  else
    Some (Model deg_rate_default recovery_default
                (dSFC_simulation (EGT_before s) (EGT_after s)) None).

(** Lines 215-218. *)
Record kpi := Kpi {
  fuel_saved_flight : float;
  CO2_saved_flight : float;
  CO2_saved_annual : float;
  cost_saved_annual : float }.

Definition core_calcs (s : sidebar) (m : model) : kpi :=
  let fuel_saved_flight :=
    fuel_flow * (dSFC m / 100.0) * flight_time s * 3600.0 in
  let CO2_saved_flight := fuel_saved_flight * CF in
  let CO2_saved_annual :=
    CO2_saved_flight * Py.float_of_int (flights_per_year s) / 1000.0 in
  let cost_saved_annual :=
    fuel_saved_flight * Py.float_of_int (flights_per_year s)
    * fuel_price s in
  Kpi fuel_saved_flight CO2_saved_flight CO2_saved_annual
      cost_saved_annual.

(** Everything one run of the script computes. *)
Record report := Report {
  r_model : model;
  r_kpi : kpi;
  r_intervals : list Z;
  r_table : table;
  r_optimum : optimum;
  r_trajectories : traj }.

(** The script top to bottom; [None] when it raises. *)
Definition run (s : sidebar) : option report :=
  match mode_inputs s with
  | None => None
  | Some m =>
      let k := core_calcs s m in
      let intervals := intervals_of (max_interval s) in
      let t :=
        sweep (flights_per_year s) (flight_time s) (fuel_price s)
              (wash_cost s) (degradation_rate m) (recovery_factor m)
              intervals in
      match
        optimize (flights_per_year s) (flight_time s) (fuel_price s)
                 (wash_cost s) (degradation_rate m) (recovery_factor m)
                 intervals
      with
      | None => None
      | Some o =>
          Some (Report m k intervals t o
                  (trajectories (flights_per_year s) (degradation_rate m)
                     (recovery_factor m) (opt_interval o)))
      end
  end.

(** The bounds the widgets enforce on what they return. *)
Definition widget_bounds (s : sidebar) : Prop :=
  (400 <= EGT_before s <= 800)%Z
  /\ (400 <= EGT_after s <= 800)%Z
  /\ (0.5 <=? flight_time s)%float = true /\ (flight_time s <=? 10.0)%float = true
  /\ (50 <= flights_per_year s <= 2000)%Z
  /\ (0.1 <=? fuel_price s)%float = true /\ (fuel_price s <=? 3.0)%float = true
  /\ (1000 <= wash_cost s <= 20000)%Z
  /\ (0.00001 <=? degradation_rate_input s)%float = true
  /\ (degradation_rate_input s <=? 0.05)%float = true
  /\ (50 <= recovery_slider s <= 100)%Z
  /\ (500 <= fuel_flow_pre_input s <= 4000)%Z
  /\ (400 <= fuel_flow_post_input s <= 4000)%Z
  /\ (20 <= max_interval s <= 200)%Z.

End Inputs.

(** ** The fleet page: pages/Fleet_Heatmap.py *)

Module Fleet.

Local Open Scope string_scope.

(** What the page has put on screen. *)
Inductive element :=
| Header
| Info (msg : string)
| Error (msg : string)
| Warning (msg : string)
| Analysis (kind : string).

(** How a run of the script ends: [st.stop()], its last line, or an
    uncaught exception; with what was shown until then. *)
Inductive outcome :=
| Stopped (shown : list element)
| Completed (shown : list element)
| Raised (shown : list element).

(** The sidebar's file uploader and [pd.read_csv] (lines 28-41). *)
Inductive upload :=
| NoFile
| Unreadable (exn : string)
| Loaded (df : Pd.DataFrame).

Definition msg_upload : string :=
  "Upload a fleet dataset containing columns at least: Aircraft_ID, Month, and either ΔSFC or (Fuel_Flow_Pre & Fuel_Flow_Post).".
Definition msg_read (exn : string) : string :=
  "⚠️ Error reading file: " ++ exn.
Definition msg_required : string :=
  "Dataset must include columns: Aircraft_ID and Month.".
Definition msg_dsfc : string :=
  "Dataset must include ΔSFC or (Fuel_Flow_Pre & Fuel_Flow_Post) to compute it.".
Definition msg_month : string :=
  "⚠️ Could not parse Month column automatically. Ensure it’s in format like 'Jan 25'.".

(** Lines 50-51: the ΔSFC column is added when it is absent and both
    fuel-flow columns are there; [None] when the arithmetic raises. *)
Definition with_delta_sfc (df : Pd.DataFrame) : option Pd.DataFrame :=
  if negb (Pd.has_column df "ΔSFC")
     && Pd.issubset ["Fuel_Flow_Pre"; "Fuel_Flow_Post"] df
  then
    match Pd.get df "Fuel_Flow_Pre", Pd.get df "Fuel_Flow_Post" with
    | Some (Pd.NumCol pre), Some (Pd.NumCol post) =>
        Some (Pd.set df "ΔSFC"
                (Pd.NumCol (Pd.zip_with Inputs.delta_sfc_row pre post)))
    | _, _ => None
    end
  else Some df.

Section Page.

(** [pd.to_datetime(column, format="%b %y")], [None] when it raises. *)
Variable to_datetime : Pd.Column -> option (list Z).

(** Lines 64-156: sorting, aggregation by aircraft and month, the
    heatmap, the trend lines, the metrics, the alert and the download;
    they run only on a validated table with parsed months. *)
Variable analyse : Pd.DataFrame -> list Z -> option (list element).

Definition page (u : upload) : outcome :=
  let shown := [Header] in
  match u with
  | NoFile => Stopped (shown ++ [Info msg_upload])
  | Unreadable exn => Stopped (shown ++ [Error (msg_read exn)])
  | Loaded df =>
      if negb (Pd.issubset ["Aircraft_ID"; "Month"] df)
      then Stopped (shown ++ [Error msg_required])
      else
        match with_delta_sfc df with
        | None => Raised shown
        | Some df =>
            if negb (Pd.has_column df "ΔSFC")
            then Stopped (shown ++ [Error msg_dsfc])
            else
              match Pd.get df "Month" with
              | None => Raised shown
              | Some month =>
                  match to_datetime month with
                  | None => Stopped (shown ++ [Warning msg_month])
                  | Some month_dt =>
                      match analyse df month_dt with
                      | Some drawn => Completed (shown ++ drawn)
                      | None => Raised shown
                      end
                  end
              end
        end
  end.

End Page.

(** The validation's two requirements on the column names. *)
Definition identified (df : Pd.DataFrame) : bool :=
  Pd.has_column df "Aircraft_ID" && Pd.has_column df "Month".
Definition has_delta_source (df : Pd.DataFrame) : bool :=
  Pd.has_column df "ΔSFC"
  || (Pd.has_column df "Fuel_Flow_Pre"
      && Pd.has_column df "Fuel_Flow_Post").

End Fleet.

(** ** The washes of a year, the text columns of an upload, the integers
       of the sidebar *)

(** The flights of [range(N)] after which the loop of lines 286-290
    applies a wash. *)
Definition wash_flights (N iv : Z) : list Z :=
  filter (fun i => (i + 1) mod iv =? 0) (Py.range N).

(** The simulation replayed with the washes given as a list of flights:
    every flight of [flights] burns and degrades as in the loop without
    washes (lines 277-279), and [deg] is multiplied by
    [1 - recovery_factor] after the flights listed in [washes].  It is
    what the loops of lines 284-290 and 335-343 are compared with, to say
    after which flights they wash. *)
Definition replay (rate rf : float) (washes flights : list Z)
  : Dashboard.sim :=
  fold_left
    (fun s i =>
       let s' := Dashboard.baseline_body rate s i in
       if existsb (Z.eqb i) washes
       then Dashboard.Sim (Dashboard.deg s' * (1 - rf))%float
                          (Dashboard.fuel_burn s')
       else s')
    flights Dashboard.sim0.

(** A column that is present and holds text. *)
Definition is_text (c : option Pd.Column) : bool :=
  match c with
  | Some (Pd.StrCol _) => true
  | _ => false
  end.

(** A fuel-flow column of the table holds text. *)
Definition text_fuel_flow (df : Pd.DataFrame) : bool :=
  is_text (Pd.get df "Fuel_Flow_Pre"%string)
  || is_text (Pd.get df "Fuel_Flow_Post"%string).

(** Every [int] the sidebar returns is below [2^52] in magnitude, as the
    widgets make it: no conversion to [float] overflows, and the quotient
    of two of them as doubles is CPython's. *)
Definition ints_exact (s : Inputs.sidebar) : Prop :=
  Forall (fun z => - 2 ^ 52 < z < 2 ^ 52)
    [Inputs.EGT_before s; Inputs.EGT_after s; Inputs.flights_per_year s;
     Inputs.wash_cost s; Inputs.recovery_slider s;
     Inputs.fuel_flow_pre_input s; Inputs.fuel_flow_post_input s;
     Inputs.max_interval s].

(** ** The alert of the fleet page *)

Module FleetAlert.

(** Lines 147-152, on the ΔSFC cells of the aircraft-month means: the
    cells above the threshold (a blank cell, NaN, is above nothing), and
    the message chosen, which carries their number. *)
Definition abnormal (cells : list float) (threshold : float) : list float :=
  filter (fun x => (threshold <? x)%float) cells.

Inductive alert :=
| AlertWarning (n : nat)
| AlertSuccess.

Definition alert_of (cells : list float) (threshold : float) : alert :=
  let abnormal := abnormal cells threshold in
  match abnormal with
  | [] => AlertSuccess
  | _ :: _ => AlertWarning (List.length abnormal)
  end.

End FleetAlert.

(** ** The gauges of the main page *)

Module Gauges.

Import Inputs.
Local Open Scope float_scope.

(** Python's [max(a, b)] on two floats: [a] unless [b > a]. *)
Definition max (a b : float) : float := if a <? b then b else a.

(** Lines 253-256: the value of the CO2 gauge and the upper end of its
    axis, which starts at 0. *)
Definition co2_value (k : kpi) : float := CO2_saved_annual k.
Definition co2_axis (k : kpi) : float := max 10.0 (CO2_saved_annual k * 1.25).

(** Lines 260-263: the same for the cost gauge, in thousands. *)
Definition cost_value (k : kpi) : float := cost_saved_annual k / 1000.0.
Definition cost_axis (k : kpi) : float :=
  max 10.0 ((cost_saved_annual k / 1000.0) * 1.25).

End Gauges.

(** ** The colour range of the heatmap *)

Module Heatmap.

Local Open Scope float_scope.

(** NumPy's [fmin] and [fmax]: the smaller (larger) of two numbers, a NaN
    giving way to a number. *)
Definition fmin (a b : float) : float :=
  if is_nan a then b
  else if is_nan b then a
  else if a <=? b then a else b.

Definition fmax (a b : float) : float :=
  if is_nan a then b
  else if is_nan b then a
  else if b <=? a then a else b.

(** [np.nanmin(values)] and [np.nanmax(values)]: the reduction of the
    cells by [fmin] ([fmax]); [ValueError] on no cell at all ([None]), NaN
    when every cell is NaN. *)
Definition nanmin (cells : list float) : option float :=
  match cells with
  | [] => None
  | x :: l => Some (fold_left fmin l x)
  end.

Definition nanmax (cells : list float) : option float :=
  match cells with
  | [] => None
  | x :: l => Some (fold_left fmax l x)
  end.

(** Lines 86-87: [zmin] and [zmax] of the heatmap, over the cells of the
    pivot table. *)
Definition colour_range (cells : list float) : option (float * float) :=
  match nanmin cells, nanmax cells with
  | Some zmin, Some zmax => Some (zmin, zmax)
  | _, _ => None
  end.

End Heatmap.

(** * Part II: the algorithms as the specification words them *)

(** ** The simulator and the trajectory algorithm as the specification
       words them (sections 4.2 and 4.4) *)

Module Spec.

Local Open Scope float_scope.

Section Simulator.

Variables degradation_rate recovery_factor : float.

(** "a wash interval is configured and (i+1) is an exact multiple of it" *)
Definition wash_due (interval : option Z) (flight : Z) : bool :=
  match interval with
  | None => false
  | Some iv => ((flight + 1) mod iv =? 0)%Z
  end.

(** Section 4.2: the pair (deg, cumulative_burn) once the flights of
    index [0 .. k-1] have been processed, in order. *)
Fixpoint state_after (interval : option Z) (k : nat) : float * float :=
  match k with
  | O => (0.0, 0.0)
  | S k' =>
      let '(deg, cumulative_burn) := state_after interval k' in
      let cumulative_burn := cumulative_burn + (1.0 + deg / 100.0) in
      let deg := deg + degradation_rate in
      let deg :=
        if wash_due interval (Z.of_nat k')
        then deg * (1.0 - recovery_factor) else deg in
      (deg, cumulative_burn)
  end.

Definition cumulative_burn (interval : option Z) (N : Z) : float :=
  snd (state_after interval (Z.to_nat N)).

(** Section 4.4: the degradation state entering flight [c]. *)
Fixpoint deg_entering (interval : option Z) (c : nat) : float :=
  match c with
  | O => 0.0
  | S c' =>
      let deg := deg_entering interval c' + degradation_rate in
      if wash_due interval (Z.of_nat c')
      then deg * (1.0 - recovery_factor) else deg
  end.

End Simulator.

End Spec.

(** The specification's formulas of section 4.3, over its simulator. *)
Module SpecOptimizer.

Local Open Scope float_scope.

Section Formulas.

Variable flights_per_year : Z.
Variables base_fuel_flow flight_duration_hr fuel_price_per_kg : float.
Variable wash_cost : Z.
Variables degradation_rate recovery_factor : float.

Definition fuel_kg (interval : option Z) : float :=
  base_fuel_flow * flight_duration_hr * 3600
  * Spec.cumulative_burn degradation_rate recovery_factor interval
      flights_per_year.
Definition fuel_cost (interval : option Z) : float :=
  fuel_kg interval * fuel_price_per_kg.
Definition baseline_cost : float := fuel_cost None.
Definition n_washes (iv : Z) : Z := (flights_per_year / iv)%Z.
Definition total_wash_cost (iv : Z) : Z := (n_washes iv * wash_cost)%Z.
Definition net_saving (iv : Z) : float :=
  baseline_cost
  - (fuel_cost (Some iv) + Py.float_of_int (total_wash_cost iv)).

End Formulas.

End SpecOptimizer.

(** * Part III: lists, the order of the doubles and rounding *)

(** ** Lists and ranges *)

Section ListFacts.

Context {A B : Type}.

Lemma fold_left_agree (f g : A -> B -> A) (l : list B) :
  (forall s x, In x l -> f s x = g s x) ->
  forall s, fold_left f l s = fold_left g l s.
Proof.
  induction l as [|x l IH]; intros Hfg s; simpl.
  - reflexivity.
  - rewrite (Hfg s x) by (left; reflexivity).
    apply IH. intros s' y Hy. apply Hfg. right. exact Hy.
Qed.

Lemma fold_left_snoc (f : A -> B -> A) (l : list B) (x : B) (s : A) :
  fold_left f (l ++ [x]) s = f (fold_left f l s) x.
Proof. rewrite fold_left_app. reflexivity. Qed.

End ListFacts.

Lemma range_prefix (k : nat) :
  map Z.of_nat (seq 0 (S k)) = map Z.of_nat (seq 0 k) ++ [Z.of_nat k].
Proof. rewrite seq_S, map_app. reflexivity. Qed.

Lemma range_In (n i : Z) : In i (Py.range n) <-> 0 <= i < n.
Proof.
  unfold Py.range. rewrite in_map_iff. split.
  - intros [k [<- Hk]]. apply in_seq in Hk. lia.
  - intros Hi. exists (Z.to_nat i). split; [lia|]. apply in_seq. lia.
Qed.

Lemma range_length (n : Z) : List.length (Py.range n) = Z.to_nat n.
Proof. unfold Py.range. now rewrite length_map, length_seq. Qed.

Lemma range_step_nth (start stop step : Z) (k : nat) (iv : Z) :
  nth_error (Py.range_step start stop step) k = Some iv ->
  iv = start + step * Z.of_nat k.
Proof.
  unfold Py.range_step. intros H.
  rewrite nth_error_map in H.
  destruct (nth_error (seq 0 _) k) as [j|] eqn:E; [|discriminate].
  apply nth_error_In in E as Hin. apply in_seq in Hin.
  assert (k < List.length (seq 0 (Z.to_nat ((stop - start + step - 1) / step))))%nat
    as Hk by (apply nth_error_Some; congruence).
  rewrite length_seq in Hk.
  pose proof (nth_error_nth _ _ 0%nat E) as Hn.
  rewrite seq_nth in Hn by exact Hk.
  simpl in H, Hn. subst j. congruence.
Qed.

Lemma intervals_at_least_20 (max_interval iv : Z) :
  In iv (Dashboard.intervals_of max_interval) -> 20 <= iv <= max_interval.
Proof.
  unfold Dashboard.intervals_of, Py.range_step.
  rewrite in_map_iff. intros [k [<- Hk]]. apply in_seq in Hk.
  assert (Z.of_nat k < (max_interval + 1 - 20 + 10 - 1) / 10) as Hlt by lia.
  assert (Z.of_nat k + 1 <= (max_interval + 1 - 20 + 10 - 1) / 10) as Hle by lia.
  assert (10 * ((max_interval + 1 - 20 + 10 - 1) / 10)
          <= max_interval + 1 - 20 + 10 - 1) as Hd
    by (apply Z.mul_div_le; lia).
  lia.
Qed.

Lemma intervals_nonempty (max_interval : Z) :
  20 <= max_interval -> Dashboard.intervals_of max_interval <> [].
Proof.
  intros H. unfold Dashboard.intervals_of, Py.range_step.
  assert (1 <= (max_interval + 1 - 20 + 10 - 1) / 10) as Hq
    by (apply Z.div_le_lower_bound; lia).
  destruct (Z.to_nat ((max_interval + 1 - 20 + 10 - 1) / 10)) eqn:E; [lia|].
  simpl. discriminate.
Qed.

(** ** Order of the doubles: [SFcompare] is a lexicographic comparison *)

Module FloatOrder.

Definition key (x : spec_float) : Z * Z * Z :=
  match x with
  | S754_nan => (0, 0, 0)
  | S754_zero _ => (0, 0, 0)
  | S754_infinity true => (-2, 0, 0)
  | S754_infinity false => (2, 0, 0)
  | S754_finite true m e => (-1, - e, Z.neg m)
  | S754_finite false m e => (1, e, Z.pos m)
  end.

Definition lex3 (a b : Z * Z * Z) : comparison :=
  let '(a1, a2, a3) := a in
  let '(b1, b2, b3) := b in
  match a1 ?= b1 with
  | Eq => match a2 ?= b2 with Eq => a3 ?= b3 | c => c end
  | c => c
  end.

Lemma SFcompare_lex (x y : spec_float) :
  x <> S754_nan -> y <> S754_nan ->
  SFcompare x y = Some (lex3 (key x) (key y)).
Proof.
  intros Hx Hy.
  destruct x as [sx|sx| |sx mx ex], y as [sy|sy| |sy my ey];
    try congruence;
    try (destruct sx, sy; reflexivity);
    try (destruct sx; reflexivity); try (destruct sy; reflexivity).
  destruct sx, sy; simpl; try reflexivity.
  rewrite Z.compare_opp, (Z.compare_antisym ex ey).
  destruct (ex ?= ey); reflexivity.
Qed.

Lemma lex3_refl a : lex3 a a = Eq.
Proof. destruct a as [[a1 a2] a3]. simpl. now rewrite !Z.compare_refl. Qed.

Ltac lex3_crush :=
  unfold lex3;
  repeat match goal with
    | p : (Z * Z * Z)%type |- _ => destruct p as [[? ?] ?]
    end;
  repeat match goal with
    | |- context [?a ?= ?b] => destruct (Z.compare_spec a b)
    | H : context [?a ?= ?b] |- _ => destruct (Z.compare_spec a b)
    end;
  try congruence; try lia.

Lemma lex3_antisym a b : lex3 b a = CompOpp (lex3 a b).
Proof. lex3_crush; simpl; congruence || lia. Qed.

Lemma lex3_le_trans a b c :
  lex3 a b <> Gt -> lex3 b c <> Gt -> lex3 a c <> Gt.
Proof. lex3_crush. Qed.

Lemma lex3_lt_le_trans a b c :
  lex3 a b = Lt -> lex3 b c <> Gt -> lex3 a c = Lt.
Proof. lex3_crush. Qed.

Lemma lex3_le_lt_trans a b c :
  lex3 a b <> Gt -> lex3 b c = Lt -> lex3 a c = Lt.
Proof. lex3_crush. Qed.


(** *** Order of the doubles that are numbers *)

Definition num (x : float) : Prop := Prim2SF x <> S754_nan.

Lemma is_nan_false (x : float) : is_nan x = false <-> num x.
Proof.
  unfold is_nan, num. rewrite eqb_spec. unfold SFeqb.
  destruct (Prim2SF x) eqn:E; simpl; try (split; [discriminate|reflexivity]).
  - split; [discriminate|]. intros _. destruct s; reflexivity.
  - split; [discriminate | congruence].
  - split; [discriminate|]. intros _.
    rewrite Z.compare_refl, Pos.compare_cont_refl. destruct s; reflexivity.
Qed.

Definition cmp (x y : float) : comparison :=
  lex3 (key (Prim2SF x)) (key (Prim2SF y)).

Lemma leb_cmp (x y : float) :
  num x -> num y -> (x <=? y)%float = negb (match cmp x y with Gt => true | _ => false end).
Proof.
  intros Hx Hy. rewrite leb_spec. unfold SFleb, cmp.
  rewrite SFcompare_lex by assumption. destruct (lex3 _ _); reflexivity.
Qed.

Lemma ltb_cmp (x y : float) :
  num x -> num y -> (x <? y)%float = match cmp x y with Lt => true | _ => false end.
Proof.
  intros Hx Hy. rewrite ltb_spec. unfold SFltb, cmp.
  rewrite SFcompare_lex by assumption. destruct (lex3 _ _); reflexivity.
Qed.

Lemma leb_num (x y : float) : (x <=? y)%float = true -> num x /\ num y.
Proof.
  rewrite leb_spec. unfold SFleb, num.
  destruct (Prim2SF x), (Prim2SF y); simpl; try discriminate;
    intros _; split; discriminate.
Qed.

Lemma ltb_num (x y : float) : (x <? y)%float = true -> num x /\ num y.
Proof.
  rewrite ltb_spec. unfold SFltb, num.
  destruct (Prim2SF x), (Prim2SF y); simpl; try discriminate;
    intros _; split; discriminate.
Qed.

Lemma leb_refl (x : float) : num x -> (x <=? x)%float = true.
Proof.
  intros Hx. rewrite leb_cmp by assumption. unfold cmp.
  now rewrite lex3_refl.
Qed.

Lemma leb_trans (x y z : float) :
  (x <=? y)%float = true -> (y <=? z)%float = true ->
  (x <=? z)%float = true.
Proof.
  intros Hxy Hyz.
  destruct (leb_num _ _ Hxy) as [Hx Hy], (leb_num _ _ Hyz) as [_ Hz].
  rewrite leb_cmp in * by assumption.
  pose proof (lex3_le_trans (key (Prim2SF x)) (key (Prim2SF y))
                (key (Prim2SF z))) as T.
  unfold cmp in *.
  destruct (lex3 (key (Prim2SF x)) (key (Prim2SF y))); try discriminate;
    destruct (lex3 (key (Prim2SF y)) (key (Prim2SF z))); try discriminate;
    destruct (lex3 (key (Prim2SF x)) (key (Prim2SF z))); try reflexivity;
    exfalso; apply T; congruence.
Qed.

Lemma not_leb_ltb (x y : float) :
  num x -> num y -> (x <=? y)%float = false -> (y <? x)%float = true.
Proof.
  intros Hx Hy. rewrite leb_cmp, ltb_cmp by assumption. unfold cmp.
  rewrite (lex3_antisym (key (Prim2SF x)) (key (Prim2SF y))).
  destruct (lex3 _ _); simpl; congruence.
Qed.

Lemma ltb_leb (x y : float) : (x <? y)%float = true -> (x <=? y)%float = true.
Proof.
  intros H. destruct (ltb_num _ _ H) as [Hx Hy].
  rewrite ltb_cmp in H by assumption. rewrite leb_cmp by assumption.
  destruct (cmp x y); simpl; congruence.
Qed.

Lemma leb_ltb_trans (x y z : float) :
  (x <=? y)%float = true -> (y <? z)%float = true -> (x <? z)%float = true.
Proof.
  intros Hxy Hyz.
  destruct (leb_num _ _ Hxy) as [Hx Hy], (ltb_num _ _ Hyz) as [_ Hz].
  rewrite leb_cmp in Hxy by assumption.
  rewrite ltb_cmp in * by assumption.
  pose proof (lex3_le_lt_trans (key (Prim2SF x)) (key (Prim2SF y))
                (key (Prim2SF z))) as T.
  unfold cmp in *.
  destruct (lex3 (key (Prim2SF x)) (key (Prim2SF y))); try discriminate;
    destruct (lex3 (key (Prim2SF y)) (key (Prim2SF z))); try discriminate;
    rewrite T; (reflexivity || discriminate).
Qed.

Lemma ltb_leb_trans (x y z : float) :
  (x <? y)%float = true -> (y <=? z)%float = true -> (x <? z)%float = true.
Proof.
  intros Hxy Hyz.
  destruct (ltb_num _ _ Hxy) as [Hx Hy], (leb_num _ _ Hyz) as [_ Hz].
  rewrite leb_cmp in Hyz by assumption.
  rewrite ltb_cmp in * by assumption.
  pose proof (lex3_lt_le_trans (key (Prim2SF x)) (key (Prim2SF y))
                (key (Prim2SF z))) as T.
  unfold cmp in *.
  destruct (lex3 (key (Prim2SF x)) (key (Prim2SF y))); try discriminate;
    destruct (lex3 (key (Prim2SF y)) (key (Prim2SF z))); try discriminate;
    rewrite T; (reflexivity || discriminate).
Qed.

Lemma ltb_not_eqb (x y : float) :
  (x <? y)%float = true -> (x =? y)%float = false.
Proof.
  intros H. destruct (ltb_num _ _ H) as [Hx Hy].
  rewrite ltb_cmp in H by assumption. rewrite eqb_spec. unfold SFeqb.
  rewrite SFcompare_lex by assumption. unfold cmp in H.
  destruct (lex3 _ _); congruence.
Qed.

End FloatOrder.

(** ** Rounding to nearest: the results of [SpecFloat]'s operations bracket
       the exact value *)

Module Round.

(** *** Powers of two and dyadic values *)

Definition bpow (e : Z) : Q := (2 ^ e)%Q.

Lemma bpow_pos (e : Z) : (0 < bpow e)%Q.
Proof. apply Qpower_0_lt. reflexivity. Qed.

Lemma bpow_add (a b : Z) : (bpow (a + b) == bpow a * bpow b)%Q.
Proof. apply Qpower_plus. discriminate. Qed.

Lemma bpow_0 : (bpow 0 == 1)%Q.
Proof. reflexivity. Qed.

Lemma bpow_1 : (bpow 1 == 2)%Q.
Proof. reflexivity. Qed.

Lemma bpow_succ (e : Z) : (bpow (e + 1) == 2 * bpow e)%Q.
Proof. rewrite bpow_add, bpow_1. ring. Qed.

Lemma bpow_le (a b : Z) : a <= b -> (bpow a <= bpow b)%Q.
Proof. intros H. apply Qpower_le_compat_l; [exact H|discriminate]. Qed.

Lemma bpow_lt (a b : Z) : a < b -> (bpow a < bpow b)%Q.
Proof. intros H. apply Qpower_lt_compat_l; [exact H|reflexivity]. Qed.

Lemma bpow_Z (n : Z) : 0 <= n -> (bpow n == inject_Z (2 ^ n))%Q.
Proof. intros H. unfold bpow. now rewrite Zpower_Qpower. Qed.

(** The value [m * 2^e]. *)
Definition F (m e : Z) : Q := (inject_Z m * bpow e)%Q.

Lemma F_shift (m e n : Z) : 0 <= n -> (F (m * 2 ^ n) e == F m (e + n))%Q.
Proof.
  intros H. unfold F. rewrite inject_Z_mult, bpow_add, <- bpow_Z by exact H.
  ring.
Qed.

Lemma F_le (m1 m2 e : Z) : m1 <= m2 -> (F m1 e <= F m2 e)%Q.
Proof.
  intros H. unfold F. apply Qmult_le_compat_r.
  - now rewrite <- Zle_Qle.
  - apply Qlt_le_weak, bpow_pos.
Qed.

Lemma F_lt (m1 m2 e : Z) : m1 < m2 -> (F m1 e < F m2 e)%Q.
Proof.
  intros H. unfold F. apply Qmult_lt_compat_r.
  - apply bpow_pos.
  - now rewrite <- Zlt_Qlt.
Qed.

Lemma F_le_inv (m1 m2 e : Z) : (F m1 e <= F m2 e)%Q -> m1 <= m2.
Proof.
  intros H. destruct (Z.le_gt_cases m1 m2) as [L|G]; [exact L|].
  apply (F_lt _ _ e) in G. exfalso. exact (Qlt_not_le _ _ G H).
Qed.

Lemma F_lt_inv (m1 m2 e : Z) : (F m1 e < F m2 e)%Q -> m1 < m2.
Proof.
  intros H. destruct (Z.lt_ge_cases m1 m2) as [L|G]; [exact L|].
  apply (F_le _ _ e) in G. exfalso. exact (Qlt_not_le _ _ H G).
Qed.

Lemma F_0 (e : Z) : (F 0 e == 0)%Q.
Proof. unfold F. ring. Qed.

Lemma F_add (m1 m2 e : Z) : (F (m1 + m2) e == F m1 e + F m2 e)%Q.
Proof. unfold F. rewrite inject_Z_plus. ring. Qed.

Lemma F_opp (m e : Z) : (F (- m) e == - F m e)%Q.
Proof. unfold F. rewrite inject_Z_opp. ring. Qed.

Lemma F_mul (m1 e1 m2 e2 : Z) :
  (F (m1 * m2) (e1 + e2) == F m1 e1 * F m2 e2)%Q.
Proof. unfold F. rewrite inject_Z_mult, bpow_add. ring. Qed.

Lemma F_pow (e n : Z) : 0 <= n -> (F (2 ^ n) e == bpow (e + n))%Q.
Proof.
  intros H. unfold F. rewrite <- bpow_Z by exact H. rewrite bpow_add. ring.
Qed.

(** *** Number of binary digits *)

Lemma digits2_size (p : positive) : digits2_pos p = Pos.size p.
Proof. induction p; simpl; congruence. Qed.

Lemma digits_bounds (p : positive) :
  2 ^ (Z.pos (digits2_pos p) - 1) <= Z.pos p < 2 ^ Z.pos (digits2_pos p).
Proof.
  rewrite digits2_size. split.
  - pose proof (Pos.size_le p) as H.
    assert (2 ^ Z.pos (Pos.size p) <= 2 * Z.pos p) as H'.
    { rewrite <- Pos2Z.inj_pow. change (2 * Z.pos p) with (Z.pos p~0).
      apply Pos2Z.pos_le_pos. exact H. }
    replace (Z.pos (Pos.size p)) with ((Z.pos (Pos.size p) - 1) + 1) in H'
      by lia.
    rewrite Z.pow_add_r in H' by lia. lia.
  - pose proof (Pos.size_gt p) as H.
    rewrite <- Pos2Z.inj_pow. apply Pos2Z.pos_lt_pos. exact H.
Qed.

Lemma Zdigits2_nonneg (m : Z) : 0 <= Zdigits2 m.
Proof. destruct m; simpl; lia. Qed.

Lemma Zdigits2_bounds (m : Z) :
  0 < m -> 2 ^ (Zdigits2 m - 1) <= m < 2 ^ Zdigits2 m.
Proof. destruct m; try lia. intros _. apply digits_bounds. Qed.

(** The digit count is determined by the bracketing powers of two. *)
Lemma Zdigits2_unique (m d : Z) :
  2 ^ (d - 1) <= m < 2 ^ d -> 0 < d -> Zdigits2 m = d.
Proof.
  intros [Hlo Hhi] Hd.
  assert (0 < m) as Hm by (pose proof (Z.pow_pos_nonneg 2 (d - 1)); lia).
  destruct (Zdigits2_bounds m Hm) as [Hlo' Hhi'].
  pose proof (Zdigits2_nonneg m) as Hn.
  destruct (Z.lt_trichotomy (Zdigits2 m) d) as [L|[E|G]]; [|exact E|].
  - assert (2 ^ Zdigits2 m <= 2 ^ (d - 1)) by (apply Z.pow_le_mono_r; lia).
    lia.
  - assert (2 ^ d <= 2 ^ (Zdigits2 m - 1)) by (apply Z.pow_le_mono_r; lia).
    lia.
Qed.

Lemma Zdigits2_le (m d : Z) : 0 <= m -> 0 <= d -> m < 2 ^ d -> Zdigits2 m <= d.
Proof.
  intros Hm Hd Hlt.
  destruct (Z.eq_dec m 0) as [->|Hne]; [simpl; lia|].
  destruct (Zdigits2_bounds m ltac:(lia)) as [Hlo _].
  destruct (Z.le_gt_cases (Zdigits2 m) d) as [L|G]; [exact L|].
  assert (2 ^ d <= 2 ^ (Zdigits2 m - 1)) by (apply Z.pow_le_mono_r; lia).
  lia.
Qed.


Lemma Zdigits2_ge (m d : Z) : 0 < d -> 2 ^ (d - 1) <= m -> d <= Zdigits2 m.
Proof.
  intros Hd Hlo.
  assert (0 < m) as Hm by (pose proof (Z.pow_pos_nonneg 2 (d - 1)); lia).
  destruct (Zdigits2_bounds m Hm) as [_ Hhi].
  pose proof (Zdigits2_nonneg m) as Hn.
  destruct (Z.le_gt_cases d (Zdigits2 m)) as [L|G]; [exact L|].
  assert (2 ^ Zdigits2 m <= 2 ^ (d - 1)) by (apply Z.pow_le_mono_r; lia).
  lia.
Qed.

(** *** Shifting a mantissa right keeps the bracket of the real *)

(** [r] lies in [[m * 2^e, (m+1) * 2^e)], strictly above the left end
    when one of the two bits is set. *)
Definition inv (r : Q) (mrs : shr_record) (e : Z) : Prop :=
  0 <= shr_m mrs
  /\ (F (shr_m mrs) e <= r)%Q /\ (r < F (shr_m mrs + 1) e)%Q
  /\ (shr_r mrs || shr_s mrs = true -> (F (shr_m mrs) e < r)%Q).

Lemma shr_1_nonneg (m : Z) (rb sb : bool) :
  0 <= m ->
  shr_1 (Build_shr_record m rb sb)
  = Build_shr_record (Z.div2 m) (Z.odd m) (rb || sb).
Proof.
  intros Hm. destruct m as [|p|p]; [reflexivity| |lia].
  destruct p; reflexivity.
Qed.

Lemma F_double (k e : Z) : (F k (e + 1) == F (2 * k) e)%Q.
Proof. unfold F. rewrite inject_Z_mult, bpow_succ. ring. Qed.

Lemma shr_1_inv (r : Q) (mrs : shr_record) (e : Z) :
  inv r mrs e ->
  inv r (shr_1 mrs) (e + 1) /\ shr_m (shr_1 mrs) = shr_m mrs / 2.
Proof.
  destruct mrs as [m rb sb]. unfold inv. cbn [shr_m shr_r shr_s].
  intros (Hm & Hlo & Hhi & Hin).
  rewrite shr_1_nonneg by exact Hm. cbn [shr_m shr_r shr_s].
  rewrite Z.div2_div.
  pose proof (Z.div_mod m 2 ltac:(lia)) as Hdm.
  pose proof (Z.mod_pos_bound m 2 ltac:(lia)) as Hmod.
  split; [|reflexivity].
  rewrite !F_double.
  pose proof (F_le (2 * (m / 2)) m e ltac:(lia)) as H1.
  pose proof (F_le (m + 1) (2 * (m / 2 + 1)) e ltac:(lia)) as H2.
  repeat split.
  - apply Z.div_pos; lia.
  - lra.
  - lra.
  - intros Hbits.
    destruct (Z.odd m) eqn:Hodd.
    + assert (m mod 2 = 1) as Hm1.
      { rewrite Zmod_odd, Hodd. reflexivity. }
      pose proof (F_lt (2 * (m / 2)) m e ltac:(lia)). lra.
    + simpl in Hbits. specialize (Hin Hbits). lra.
Qed.

Lemma iter_shr_inv (r : Q) (p : positive) :
  forall (mrs : shr_record) (e : Z),
    inv r mrs e ->
    inv r (iter_pos shr_1 p mrs) (e + Z.pos p)
    /\ shr_m (iter_pos shr_1 p mrs) = shr_m mrs / 2 ^ Z.pos p.
Proof.
  induction p as [p IH|p IH|]; intros mrs e H; simpl iter_pos.
  - destruct (shr_1_inv r mrs e H) as [H1 E1].
    destruct (IH _ _ H1) as [H2 E2].
    destruct (IH _ _ H2) as [H3 E3].
    split.
    + replace (e + Z.pos p~1) with (e + 1 + Z.pos p + Z.pos p) by lia.
      exact H3.
    + rewrite E3, E2, E1.
      replace (Z.pos p~1) with (1 + Z.pos p + Z.pos p) by lia.
      rewrite !Z.pow_add_r by lia.
      rewrite !Z.div_div by (try apply Z.pow_pos_nonneg; lia).
      rewrite Z.pow_1_r. f_equal. ring.
  - destruct (IH _ _ H) as [H2 E2].
    destruct (IH _ _ H2) as [H3 E3].
    split.
    + replace (e + Z.pos p~0) with (e + Z.pos p + Z.pos p) by lia.
      exact H3.
    + rewrite E3, E2.
      replace (Z.pos p~0) with (Z.pos p + Z.pos p) by lia.
      rewrite !Z.pow_add_r by lia.
      rewrite !Z.div_div by (try apply Z.pow_pos_nonneg; lia).
      reflexivity.
  - destruct (shr_1_inv r mrs e H) as [H1 E1].
    split; [exact H1|]. rewrite E1. reflexivity.
Qed.

Lemma shr_inv (r : Q) (mrs : shr_record) (e n : Z) :
  0 <= n -> inv r mrs e ->
  let '(mrs', e') := shr mrs e n in
  e' = e + n /\ inv r mrs' e' /\ shr_m mrs' = shr_m mrs / 2 ^ n.
Proof.
  intros Hn H. unfold shr. destruct n as [|p|p]; [| |lia].
  - rewrite Z.add_0_r, Z.pow_0_r, Z.div_1_r.
    split; [reflexivity|split; [exact H|reflexivity]].
  - destruct (iter_shr_inv r p mrs e H) as [H1 E1].
    split; [reflexivity|split; assumption].
Qed.

(** The location given with a truncated mantissa. *)
Definition located (m e : Z) (l : location) (r : Q) : Prop :=
  (F m e <= r)%Q /\ (r < F (m + 1) e)%Q
  /\ (l <> loc_Exact -> (F m e < r)%Q).

Lemma located_inv (m e : Z) (l : location) (r : Q) :
  0 <= m -> located m e l r -> inv r (shr_record_of_loc m l) e.
Proof.
  intros Hm (Hlo & Hhi & Hin). unfold inv.
  assert (shr_m (shr_record_of_loc m l) = m) as ->
    by (destruct l as [|[ | | ]]; reflexivity).
  repeat split; try assumption.
  intros Hbits. apply Hin. intros ->. discriminate.
Qed.

Lemma located_exact (m e : Z) : located m e loc_Exact (F m e).
Proof.
  unfold located. repeat split.
  - apply Qle_refl.
  - apply F_lt. lia.
  - congruence.
Qed.

Lemma round_nearest_even_cases (mrs : shr_record) :
  let m' := round_nearest_even (shr_m mrs) (loc_of_shr_record mrs) in
  m' = shr_m mrs
  \/ (m' = shr_m mrs + 1 /\ shr_r mrs || shr_s mrs = true).
Proof.
  destruct mrs as [m [|] [|]]; simpl; auto.
  destruct (Z.even m); auto.
Qed.


(** *** Values of non-negative floats *)

Definition SF2Q (x : spec_float) : Q :=
  match x with
  | S754_finite s m e => F (cond_Zopp s (Z.pos m)) e
  | _ => 0%Q
  end.

(** Positive zero or a positive finite number. *)
Definition nn (x : spec_float) : Prop :=
  match x with
  | S754_zero false => True
  | S754_finite false _ _ => True
  | _ => False
  end.

Lemma nn_value (x : spec_float) : nn x -> (0 <= SF2Q x)%Q.
Proof.
  destruct x as [[|]|s| |[|] m e]; simpl; try tauto; intros _.
  - apply Qle_refl.
  - rewrite <- (F_0 e). apply F_le. lia.
Qed.

(** *** Rounding to nearest in a format [prec], [emax] *)

Section Format.

Variables prec emax : Z.
Hypothesis Hprec : 0 < prec.
Hypothesis Hemax : prec < emax.

Abbreviation emin := (SpecFloat.emin prec emax).
Abbreviation fexp := (SpecFloat.fexp prec emax).

(** The values of the format, overflow aside. *)
Definition rep (v : Q) : Prop :=
  exists mv ev, (v == F mv ev)%Q /\ 0 <= mv < 2 ^ prec /\ emin <= ev.

(** What [binary_round_aux] builds from a mantissa and an exponent. *)
Definition pack (s : bool) (m e : Z) : spec_float :=
  match m with
  | Z0 => S754_zero s
  | Zpos p =>
      if e <=? emax - prec then S754_finite s p e else S754_infinity s
  | Zneg _ => S754_nan
  end.

(** A mantissa that fills the precision, unless at the least exponent. *)
Definition normal (m e : Z) : Prop := e = emin \/ 2 ^ (prec - 1) <= m.

Lemma rep_below (mv ev m e : Z) :
  0 <= mv < 2 ^ prec -> emin <= ev -> ev < e -> normal m e ->
  (F mv ev < F m e)%Q.
Proof.
  intros Hmv Hev Hlt [He|Hm]; [lia|].
  apply Qlt_le_trans with (F (2 ^ prec) ev).
  - apply F_lt. lia.
  - rewrite F_pow by lia.
    apply Qle_trans with (F (2 ^ (prec - 1)) e).
    + rewrite F_pow by lia. apply bpow_le. lia.
    + apply F_le. exact Hm.
Qed.

Lemma rep_align (mv ev e : Z) :
  e <= ev -> (F mv ev == F (mv * 2 ^ (ev - e)) e)%Q.
Proof.
  intros H. rewrite F_shift by lia. replace (e + (ev - e)) with ev by lia.
  reflexivity.
Qed.

(** Between the truncation [m] at a normal exponent and its successor
    there is no value of the format. *)
Lemma rep_floor (v r : Q) (m e : Z) :
  rep v -> normal m e -> 0 <= m -> (r < F (m + 1) e)%Q -> (v <= r)%Q ->
  (v <= F m e)%Q.
Proof.
  intros (mv & ev & Ev & Hmv & Hev) Hn Hm Hr Hv.
  destruct (Z.le_gt_cases e ev) as [L|G].
  - rewrite Ev, (rep_align mv ev e L) in *.
    apply F_le.
    assert (mv * 2 ^ (ev - e) < m + 1); [|lia].
    apply (F_lt_inv _ _ e). lra.
  - pose proof (rep_below mv ev m e Hmv Hev G Hn). lra.
Qed.

Lemma rep_ceil (v r : Q) (m e : Z) :
  rep v -> normal m e -> 0 <= m -> (F m e < r)%Q -> (r <= v)%Q ->
  (F (m + 1) e <= v)%Q.
Proof.
  intros (mv & ev & Ev & Hmv & Hev) Hn Hm Hr Hv.
  destruct (Z.le_gt_cases e ev) as [L|G].
  - rewrite Ev, (rep_align mv ev e L) in *.
    apply F_le.
    assert (m < mv * 2 ^ (ev - e)); [|lia].
    apply (F_lt_inv _ _ e). lra.
  - pose proof (rep_below mv ev m e Hmv Hev G Hn). lra.
Qed.

Theorem round_aux_spec (s : bool) (mx ex : Z) (lx : location) (r : Q) :
  0 <= mx ->
  ex <= fexp (Zdigits2 mx + ex) ->
  located mx ex lx r ->
  exists m e,
    binary_round_aux prec emax s mx ex lx = pack s m e
    /\ 0 <= m < 2 ^ prec /\ emin <= e /\ normal m e
    /\ (forall v, rep v -> (v <= r)%Q -> (v <= F m e)%Q)
    /\ (forall v, rep v -> (r <= v)%Q -> (F m e <= v)%Q).
Proof.
  intros Hmx C0 Hloc.
  pose proof (Zdigits2_nonneg mx) as Hd0.
  assert (0 <= fexp (Zdigits2 mx + ex) - ex) as Hn by lia.
  pose proof (shr_inv r (shr_record_of_loc mx lx) ex _ Hn
                (located_inv mx ex lx r Hmx Hloc)) as HA.
  unfold binary_round_aux, shr_fexp.
  destruct (shr (shr_record_of_loc mx lx) ex
                (fexp (Zdigits2 mx + ex) - ex)) as [mrs1 e1].
  destruct HA as (He1 & (Hm1 & Hlo1 & Hhi1 & Hin1) & Em1).
  assert (shr_m (shr_record_of_loc mx lx) = mx) as Emx
    by (destruct lx as [|[ | | ]]; reflexivity).
  rewrite Emx in Em1. clear Emx.
  set (m1 := shr_m mrs1) in *.
  assert (e1 = fexp (Zdigits2 mx + ex)) as Ee1 by lia.
  assert (emin <= e1) as Hemin1 by (unfold SpecFloat.fexp in Ee1; lia).
  (* the truncated mantissa fits the precision and is normal *)
  assert (m1 < 2 ^ prec) as Hm1hi.
  { rewrite Em1. apply Z.div_lt_upper_bound.
    - apply Z.pow_pos_nonneg; lia.
    - rewrite <- Z.pow_add_r by lia.
      destruct (Z.eq_dec mx 0) as [->|Hne].
      + apply Z.pow_pos_nonneg; lia.
      + destruct (Zdigits2_bounds mx ltac:(lia)) as [_ Hhi].
        eapply Z.lt_le_trans; [exact Hhi|].
        apply Z.pow_le_mono_r; [lia|].
        unfold SpecFloat.fexp in *. lia. }
  assert (normal m1 e1) as Hnorm1.
  { unfold normal.
    destruct (Z.eq_dec e1 emin) as [E|NE]; [left; exact E|right].
    assert (e1 = Zdigits2 mx + ex - prec) as Ee
      by (unfold SpecFloat.fexp in *; lia).
    assert (0 < mx) as Hpos.
    { destruct (Z.eq_dec mx 0) as [->|]; [|lia].
      simpl in *. unfold SpecFloat.fexp in *. lia. }
    destruct (Zdigits2_bounds mx Hpos) as [Hlo _].
    rewrite Em1. apply Z.div_le_lower_bound.
    - apply Z.pow_pos_nonneg; lia.
    - rewrite <- Z.pow_add_r by lia.
      replace (fexp (Zdigits2 mx + ex) - ex + (prec - 1))
        with (Zdigits2 mx - 1) by lia.
      exact Hlo. }
  (* the choice between the truncation and its successor *)
  pose proof (round_nearest_even_cases mrs1) as Hrne. cbv zeta in Hrne.
  fold m1 in Hrne.
  set (m2 := round_nearest_even m1 (loc_of_shr_record mrs1)) in *.
  assert (m1 <= m2 <= 2 ^ prec) as Hm2 by (destruct Hrne as [->|[-> _]]; lia).
  assert (forall v, rep v -> (v <= r)%Q -> (v <= F m2 e1)%Q) as Hfloor.
  { intros v Hv Hle.
    apply Qle_trans with (F m1 e1).
    - eapply rep_floor; eassumption.
    - apply F_le. lia. }
  assert (forall v, rep v -> (r <= v)%Q -> (F m2 e1 <= v)%Q) as Hceil.
  { intros v Hv Hle. destruct Hrne as [->|[-> Hbits]].
    - lra.
    - eapply rep_ceil; try eassumption. apply Hin1, Hbits. }
  (* the second shift renormalises a carry *)
  assert (0 <= fexp (Zdigits2 m2 + e1) - e1) as Hn2.
  { destruct Hnorm1 as [E|G].
    - unfold SpecFloat.fexp. lia.
    - pose proof (Zdigits2_ge m2 prec Hprec ltac:(lia)).
      unfold SpecFloat.fexp. lia. }
  pose proof (shr_inv (F m2 e1) (shr_record_of_loc m2 loc_Exact) e1 _ Hn2
                (located_inv m2 e1 loc_Exact _ ltac:(lia)
                   (located_exact m2 e1))) as HB.
  destruct (shr (shr_record_of_loc m2 loc_Exact) e1
                (fexp (Zdigits2 m2 + e1) - e1)) as [mrs3 e3].
  destruct HB as (He3 & (Hm3 & Hlo3 & Hhi3 & Hin3) & Em3).
  cbn [shr_record_of_loc shr_m] in Em3.
  destruct (Z.eq_dec m2 (2 ^ prec)) as [Ecarry|Ncarry].
  - (* carry: one more shift *)
    assert (Zdigits2 m2 = prec + 1) as Ed.
    { apply Zdigits2_unique; [|lia]. rewrite Ecarry.
      replace (prec + 1 - 1) with prec by lia. split; [lia|].
      apply Z.pow_lt_mono_r; lia. }
    assert (fexp (Zdigits2 m2 + e1) - e1 = 1) as En2
      by (rewrite Ed; unfold SpecFloat.fexp; lia).
    rewrite En2 in *.
    assert (shr_m mrs3 = 2 ^ (prec - 1)) as E3.
    { rewrite Em3, Ecarry, Z.pow_1_r.
      replace prec with (prec - 1 + 1) at 1 by lia.
      rewrite Z.pow_add_r by lia. rewrite Z.pow_1_r.
      apply Z.div_mul. lia. }
    assert (F (shr_m mrs3) e3 == F m2 e1)%Q as EF.
    { rewrite E3, He3, Ecarry, !F_pow by lia.
      replace (e1 + 1 + (prec - 1)) with (e1 + prec) by lia.
      reflexivity. }
    exists (shr_m mrs3), e3. unfold pack.
    split; [reflexivity|]. split.
    { rewrite E3. split; [apply Z.pow_nonneg; lia|].
      apply Z.pow_lt_mono_r; lia. }
    split; [lia|]. split; [right; lia|].
    split; intros v Hv Hle; rewrite EF; auto.
  - (* no carry: nothing is shifted *)
    assert (Zdigits2 m2 <= prec) as Ed by (apply Zdigits2_le; lia).
    assert (fexp (Zdigits2 m2 + e1) - e1 = 0) as En2
      by (unfold SpecFloat.fexp in *; lia).
    rewrite En2 in *.
    rewrite Z.pow_0_r, Z.div_1_r in Em3. rewrite Z.add_0_r in He3.
    exists (shr_m mrs3), e3. unfold pack. rewrite Em3, He3.
    split; [reflexivity|]. split; [lia|]. split; [lia|].
    split; [destruct Hnorm1 as [E|G]; [left; exact E|right; lia]|].
    split; assumption.
Qed.


(** *** Valid floats of the format *)

Definition repb (v : Q) : Prop :=
  exists mv ev,
    (v == F mv ev)%Q /\ 0 <= mv < 2 ^ prec /\ emin <= ev <= emax - prec.

Lemma repb_rep (v : Q) : repb v -> rep v.
Proof. intros (mv & ev & H1 & H2 & H3). exists mv, ev. repeat split; tauto || lia. Qed.

Lemma bounded_facts (m : positive) (e : Z) :
  bounded prec emax m e = true ->
  Z.pos m < 2 ^ prec /\ emin <= e <= emax - prec /\ normal (Z.pos m) e.
Proof.
  unfold bounded, canonical_mantissa. intros H.
  apply andb_true_iff in H as [Hc He].
  apply Z.eqb_eq in Hc. apply Z.leb_le in He.
  destruct (digits_bounds m) as [Hlo Hhi].
  assert (Z.pos (digits2_pos m) <= prec) as Hd
    by (unfold SpecFloat.fexp in Hc; lia).
  split; [|split].
  - eapply Z.lt_le_trans; [exact Hhi|]. apply Z.pow_le_mono_r; lia.
  - unfold SpecFloat.fexp in Hc. lia.
  - unfold normal.
    destruct (Z.eq_dec e emin) as [E|NE]; [left; exact E|right].
    assert (Z.pos (digits2_pos m) = prec) as Ed
      by (unfold SpecFloat.fexp in Hc; lia).
    rewrite Ed in Hlo. exact Hlo.
Qed.

Lemma pack_no_overflow (s : bool) (m e : Z) (v : Q) :
  0 <= m -> normal m e -> repb v -> (F m e <= v)%Q ->
  m = 0 \/ e <= emax - prec.
Proof.
  intros Hm Hn (mv & ev & Ev & Hmv & Hev) Hle.
  destruct (Z.eq_dec m 0) as [E|NE]; [left; exact E|right].
  destruct (Z.le_gt_cases e (emax - prec)) as [L|G]; [exact L|].
  pose proof (rep_below mv ev m e Hmv ltac:(lia) ltac:(lia) Hn).
  lra.
Qed.

(** *** Aligning and rounding a positive mantissa *)

Lemma iter_xO (m d : positive) :
  Z.pos (Pos.iter xO m d) = Z.pos m * 2 ^ Z.pos d.
Proof.
  induction d as [|d IH] using Pos.peano_ind.
  - simpl. lia.
  - rewrite Pos.iter_succ, Pos2Z.inj_succ, Z.pow_succ_r by lia.
    change (Z.pos (Pos.iter xO m d)~0) with (2 * Z.pos (Pos.iter xO m d)).
    rewrite IH. ring.
Qed.

Lemma shl_align_spec (mx : positive) (ex ex' : Z) :
  let '(m', e') := shl_align mx ex ex' in
  (F (Z.pos m') e' == F (Z.pos mx) ex)%Q
  /\ e' = Z.min ex ex'
  /\ Z.pos m' = Z.pos mx * 2 ^ (ex - e').
Proof.
  unfold shl_align. destruct (ex' - ex) as [|d|d] eqn:E.
  - split; [reflexivity|]. split; [lia|].
    rewrite Z.sub_diag. simpl. lia.
  - split; [reflexivity|]. split; [lia|].
    rewrite Z.sub_diag. simpl. lia.
  - rewrite iter_xO.
    assert (ex = ex' + Z.pos d) as -> by lia.
    split; [|split].
    + rewrite F_shift by lia. reflexivity.
    + lia.
    + f_equal. f_equal. lia.
Qed.

Lemma Zdigits2_shift (m d : Z) :
  0 < m -> 0 <= d -> Zdigits2 (m * 2 ^ d) = Zdigits2 m + d.
Proof.
  intros Hm Hd. destruct (Zdigits2_bounds m Hm) as [Hlo Hhi].
  assert (0 < Zdigits2 m).
  { pose proof (Zdigits2_nonneg m).
    destruct (Z.eq_dec (Zdigits2 m) 0) as [E|]; [|lia].
    rewrite E in Hhi. simpl in Hhi. lia. }
  assert (0 < 2 ^ d) by (apply Z.pow_pos_nonneg; lia).
  apply Zdigits2_unique; [|lia]. split.
  - replace (Zdigits2 m + d - 1) with (Zdigits2 m - 1 + d) by lia.
    rewrite Z.pow_add_r by lia. nia.
  - rewrite Z.pow_add_r by lia. nia.
Qed.

Theorem binary_round_spec (s : bool) (mx : positive) (ex : Z) :
  exists m e,
    binary_round prec emax s mx ex = pack s m e
    /\ 0 <= m < 2 ^ prec /\ emin <= e /\ normal m e
    /\ (forall v, rep v -> (v <= F (Z.pos mx) ex)%Q -> (v <= F m e)%Q)
    /\ (forall v, rep v -> (F (Z.pos mx) ex <= v)%Q -> (F m e <= v)%Q).
Proof.
  unfold binary_round.
  pose proof (shl_align_spec mx ex (fexp (Z.pos (digits2_pos mx) + ex)))
    as Hal.
  destruct (shl_align mx ex (fexp (Z.pos (digits2_pos mx) + ex)))
    as [mz ez].
  destruct Hal as (EF & Eez & Emz).
  assert (ez <= fexp (Zdigits2 (Z.pos mz) + ez)) as C0.
  { rewrite Emz, Zdigits2_shift by lia. simpl Zdigits2.
    replace (Z.pos (digits2_pos mx) + (ex - ez) + ez)
      with (Z.pos (digits2_pos mx) + ex) by lia.
    lia. }
  destruct (round_aux_spec s (Z.pos mz) ez loc_Exact (F (Z.pos mz) ez)
              ltac:(lia) C0 (located_exact _ _))
    as (m & e & Hres & Hm & He & Hn & Hfloor & Hceil).
  exists m, e. repeat split; try assumption; try lia.
  - intros v Hv Hle. apply Hfloor; [exact Hv|]. lra.
  - intros v Hv Hle. apply Hceil; [exact Hv|]. lra.
Qed.


(** *** The operations on non-negative operands *)

Definition valid (x : spec_float) : Prop :=
  SpecFloat.valid_binary prec emax x = true.

(** [z] is a rounding of the non-negative real [r]: no value of the
    format lies strictly between them, and [z] overflows only when [r]
    is above the values that do not. *)
Definition rounds (r : Q) (z : spec_float) : Prop :=
  (nn z \/ z = S754_infinity false)
  /\ (forall v, rep v -> (v <= r)%Q ->
        z = S754_infinity false \/ (v <= SF2Q z)%Q)
  /\ (forall v, repb v -> (r <= v)%Q -> nn z /\ (SF2Q z <= v)%Q).

Lemma rounds_ext (r r' : Q) (z : spec_float) :
  (r == r')%Q -> rounds r z -> rounds r' z.
Proof.
  intros E (H1 & H2 & H3). split; [exact H1|]. split.
  - intros v Hv Hle. apply H2; [exact Hv|]. lra.
  - intros v Hv Hle. apply H3; [exact Hv|]. lra.
Qed.

Lemma pack_rounds (s : bool) (r : Q) (m e : Z) :
  0 <= m < 2 ^ prec -> normal m e ->
  (forall v, rep v -> (v <= r)%Q -> (v <= F m e)%Q) ->
  (forall v, rep v -> (r <= v)%Q -> (F m e <= v)%Q) ->
  rounds r (pack false m e) /\ pack s m e <> S754_nan.
Proof.
  intros Hm Hn Hfloor Hceil. unfold pack.
  destruct m as [|p|p]; [| |lia].
  - split; [|discriminate]. split; [left; exact I|]. split.
    + intros v Hv Hle. right. simpl. rewrite <- (F_0 e). auto.
    + intros v Hv Hle. split; [exact I|]. simpl.
      rewrite <- (F_0 e). apply Hceil; [apply repb_rep, Hv|exact Hle].
  - destruct (Z.leb_spec e (emax - prec)) as [L|G].
    + split; [|discriminate]. split; [left; exact I|]. split.
      * intros v Hv Hle. right. simpl. auto.
      * intros v Hv Hle. split; [exact I|]. simpl.
        apply Hceil; [apply repb_rep, Hv|exact Hle].
    + split; [|destruct s; discriminate].
      split; [right; reflexivity|]. split.
      * intros v Hv Hle. left. reflexivity.
      * intros v Hv Hle. exfalso.
        assert (F (Z.pos p) e <= v)%Q as Hb
          by (apply Hceil; [apply repb_rep, Hv|exact Hle]).
        destruct (pack_no_overflow false (Z.pos p) e v ltac:(lia) Hn Hv Hb);
          lia.
Qed.

Lemma valid_finite (s : bool) (m : positive) (e : Z) :
  valid (S754_finite s m e) ->
  Z.pos m < 2 ^ prec /\ emin <= e <= emax - prec /\ normal (Z.pos m) e.
Proof. apply bounded_facts. Qed.

Lemma nn_repb (x : spec_float) : valid x -> nn x -> repb (SF2Q x).
Proof.
  destruct x as [[|]|s| |[|] m e]; simpl; try tauto; intros Hv _.
  - exists 0, emin. split; [now rewrite F_0|].
    split; [split; [lia|apply Z.pow_pos_nonneg; lia]|].
    unfold SpecFloat.emin. lia.
  - destruct (valid_finite _ _ _ Hv) as (Hm & He & _).
    exists (Z.pos m), e. split; [reflexivity|]. split; lia.
Qed.

Lemma binary_normalize_rounds (m e : Z) :
  0 <= m -> rounds (F m e) (binary_normalize prec emax m e false).
Proof.
  intros Hm. destruct m as [|p|p]; [| |lia]; simpl.
  - split; [left; exact I|]. split.
    + intros v Hv Hle. right. simpl. rewrite <- (F_0 e). exact Hle.
    + intros v Hv Hle. split; [exact I|]. simpl.
      rewrite <- (F_0 e). exact Hle.
  - destruct (binary_round_spec false p e)
      as (m' & e' & -> & Hm' & He' & Hn & Hfloor & Hceil).
    apply (pack_rounds false); assumption.
Qed.

Lemma binary_normalize_not_nan (m e : Z) (sz : bool) :
  binary_normalize prec emax m e sz <> S754_nan.
Proof.
  destruct m as [|p|p]; simpl; [discriminate| |].
  - destruct (binary_round_spec false p e)
      as (m' & e' & -> & Hm' & He' & Hn & Hfloor & Hceil).
    apply (pack_rounds false (F (Z.pos p) e)); assumption.
  - destruct (binary_round_spec true p e)
      as (m' & e' & -> & Hm' & He' & Hn & Hfloor & Hceil).
    apply (pack_rounds true (F (Z.pos p) e)); assumption.
Qed.

Theorem SFadd_rounds (x y : spec_float) :
  nn x -> nn y ->
  rounds (SF2Q x + SF2Q y) (SFadd prec emax x y).
Proof.
  destruct x as [[|]|sx| |[|] mx ex]; simpl; try tauto;
    destruct y as [[|]|sy| |[|] my ey]; simpl; try tauto; intros _ _.
  - (* zero + zero *)
    split; [left; exact I|]. split.
    + intros v Hv Hle. right. simpl. lra.
    + intros v Hv Hle. split; [exact I|]. simpl. lra.
  - (* zero + finite *)
    split; [left; exact I|]. split.
    + intros v Hv Hle. right. simpl. lra.
    + intros v Hv Hle. split; [exact I|]. simpl. lra.
  - (* finite + zero *)
    split; [left; exact I|]. split.
    + intros v Hv Hle. right. simpl. lra.
    + intros v Hv Hle. split; [exact I|]. simpl. lra.
  - (* finite + finite *)
    pose proof (shl_align_spec mx ex (Z.min ex ey)) as Hx.
    pose proof (shl_align_spec my ey (Z.min ex ey)) as Hy.
    destruct (shl_align mx ex (Z.min ex ey)) as [mx' ex'].
    destruct (shl_align my ey (Z.min ex ey)) as [my' ey'].
    destruct Hx as (EFx & Eex & _). destruct Hy as (EFy & Eey & _).
    simpl fst.
    assert (ex' = Z.min ex ey) as E1 by lia.
    assert (ey' = Z.min ex ey) as E2 by lia.
    rewrite E1 in EFx. rewrite E2 in EFy.
    eapply rounds_ext;
      [|apply (binary_normalize_rounds (Z.pos mx' + Z.pos my')); lia].
    rewrite F_add, EFx, EFy. reflexivity.
Qed.

Lemma Zdigits2_mul (mx my : positive) :
  Z.pos (digits2_pos mx) + Z.pos (digits2_pos my) - 1
  <= Zdigits2 (Z.pos (mx * my)).
Proof.
  destruct (digits_bounds mx) as [Hx _], (digits_bounds my) as [Hy _].
  apply Zdigits2_ge; [lia|].
  replace (Z.pos (digits2_pos mx) + Z.pos (digits2_pos my) - 1 - 1)
    with ((Z.pos (digits2_pos mx) - 1) + (Z.pos (digits2_pos my) - 1))
    by lia.
  rewrite Z.pow_add_r, Pos2Z.inj_mul by lia.
  apply Z.mul_le_mono_nonneg; try assumption; apply Z.pow_nonneg; lia.
Qed.

Lemma canonical_digits (m : positive) (e : Z) :
  bounded prec emax m e = true ->
  (e = emin /\ Z.pos (digits2_pos m) <= prec)
  \/ Z.pos (digits2_pos m) = prec.
Proof.
  unfold bounded, canonical_mantissa. intros H.
  apply andb_true_iff in H as [Hc _]. apply Z.eqb_eq in Hc.
  unfold SpecFloat.fexp in Hc. lia.
Qed.

Theorem SFmul_rounds (x y : spec_float) :
  valid x -> valid y -> nn x -> nn y ->
  rounds (SF2Q x * SF2Q y) (SFmul prec emax x y).
Proof.
  destruct x as [[|]|sx| |[|] mx ex]; simpl; try tauto;
    destruct y as [[|]|sy| |[|] my ey]; simpl; try tauto;
    intros Vx Vy _ _;
    try (split; [left; exact I|]; split;
         [ intros v Hv Hle; right; simpl; lra
         | intros v Hv Hle; split; [exact I|]; simpl; lra ]).
  pose proof (Zdigits2_mul mx my) as Hd.
  pose proof (canonical_digits mx ex Vx) as Cx.
  pose proof (canonical_digits my ey Vy) as Cy.
  assert (ex + ey <= fexp (Zdigits2 (Z.pos (mx * my)) + (ex + ey))) as C0.
  { pose proof (Pos2Z.is_pos (digits2_pos mx)).
    pose proof (Pos2Z.is_pos (digits2_pos my)).
    unfold SpecFloat.fexp, SpecFloat.emin in *. lia. }
  destruct (round_aux_spec false (Z.pos (mx * my)) (ex + ey) loc_Exact
              (F (Z.pos (mx * my)) (ex + ey)) ltac:(lia) C0
              (located_exact _ _))
    as (m & e & -> & Hm & He & Hn & Hfloor & Hceil).
  eapply rounds_ext; [|apply (pack_rounds false); eassumption].
  rewrite Pos2Z.inj_mul, F_mul. reflexivity.
Qed.


(** *** Division *)

Lemma new_location_exact (nb_steps k : Z) :
  new_location nb_steps k <> loc_Exact -> k <> 0.
Proof.
  unfold new_location, new_location_even, new_location_odd.
  intros H ->. destruct (Z.even nb_steps); simpl in H; congruence.
Qed.

Lemma div_core_spec (m1 m2 : positive) (e1 e2 : Z) :
  let '(q, e', l) :=
    SFdiv_core_binary prec emax (Z.pos m1) e1 (Z.pos m2) e2 in
  0 <= q
  /\ e' <= fexp (Zdigits2 q + e')
  /\ located q e' l (F (Z.pos m1) e1 / F (Z.pos m2) e2).
Proof.
  unfold SFdiv_core_binary.
  set (d1 := Zdigits2 (Z.pos m1)). set (d2 := Zdigits2 (Z.pos m2)).
  set (e' := Z.min (fexp (d1 + e1 - (d2 + e2))) (e1 - e2)).
  set (s := e1 - e2 - e').
  assert (0 <= s) as Hs by (unfold s, e'; lia).
  set (m' := match s with
             | 0 => Z.pos m1
             | Z.pos _ => Z.shiftl (Z.pos m1) s
             | Z.neg _ => 0
             end).
  assert (m' = Z.pos m1 * 2 ^ s) as Em'.
  { unfold m'. destruct s as [|p|p] eqn:Es; [simpl; lia| |lia].
    rewrite Z.shiftl_mul_pow2 by lia. reflexivity. }
  pose proof (Z_div_mod m' (Z.pos m2) ltac:(lia)) as Hdiv.
  assert (fst (Z.div_eucl m' (Z.pos m2)) = m' / Z.pos m2) as Eq
    by reflexivity.
  destruct (Z.div_eucl m' (Z.pos m2)) as [q r]. simpl in Eq.
  destruct Hdiv as [Hqr Hr].
  assert (0 < 2 ^ s) as Hpow by (apply Z.pow_pos_nonneg; lia).
  assert (0 <= q) as Hq by (rewrite Eq; apply Z.div_pos; nia).
  split; [exact Hq|]. split.
  - (* the quotient has enough digits *)
    assert (d1 + s - d2 <= Zdigits2 q) as Hd.
    { pose proof (Zdigits2_nonneg q).
      destruct (Z.le_gt_cases (d1 + s - d2) 0) as [L|G]; [lia|].
      apply Zdigits2_ge; [lia|].
      rewrite Eq. apply Z.div_le_lower_bound; [lia|].
      destruct (Zdigits2_bounds (Z.pos m1) ltac:(lia)) as [Hlo1 _].
      destruct (Zdigits2_bounds (Z.pos m2) ltac:(lia)) as [_ Hhi2].
      fold d1 in Hlo1. fold d2 in Hhi2.
      assert (0 < d2) by (unfold d2; simpl; lia).
      assert (0 < d1) by (unfold d1; simpl; lia).
      assert (2 ^ d2 * 2 ^ (d1 + s - d2 - 1) = 2 ^ (d1 - 1) * 2 ^ s) as E.
      { rewrite <- !Z.pow_add_r by lia. f_equal. lia. }
      assert (0 < 2 ^ (d1 + s - d2 - 1)) by (apply Z.pow_pos_nonneg; lia).
      rewrite Em'. nia. }
    unfold e' at 1. unfold SpecFloat.fexp in *. subst s e'.
    unfold SpecFloat.fexp in *. lia.
  - (* the quotient brackets the real *)
    assert (0 < inject_Z (Z.pos m2))%Q as Hm2
      by (rewrite <- (Zlt_Qlt 0); lia).
    assert (0 < F (Z.pos m2) e2)%Q as HF2.
    { rewrite <- (F_0 e2). apply F_lt. lia. }
    assert (F (Z.pos m1) e1 / F (Z.pos m2) e2 * inject_Z (Z.pos m2)
            == F m' e')%Q as Ekey.
    { assert (F (Z.pos m1) e1 == F m' e' * bpow e2)%Q as E1.
      { rewrite Em', F_shift by lia. unfold F.
        replace e1 with (e' + s + e2) at 1 by (unfold s; lia).
        rewrite bpow_add. ring. }
      rewrite E1. unfold F at 2.
      pose proof (bpow_pos e2).
      field. split; lra. }
    set (R := (F (Z.pos m1) e1 / F (Z.pos m2) e2)%Q) in *.
    assert (forall k, F k e' * inject_Z (Z.pos m2)
                      == F (k * Z.pos m2) e')%Q as Ek.
    { intros k. unfold F. rewrite inject_Z_mult. ring. }
    unfold located. repeat split.
    + apply (Qmult_le_r _ _ (inject_Z (Z.pos m2)) Hm2).
      rewrite Ekey, Ek. apply F_le. nia.
    + apply (Qmult_lt_r _ _ (inject_Z (Z.pos m2)) Hm2).
      rewrite Ekey, Ek. apply F_lt. nia.
    + intros Hl. apply new_location_exact in Hl.
      apply (Qmult_lt_r _ _ (inject_Z (Z.pos m2)) Hm2).
      rewrite Ekey, Ek. apply F_lt. nia.
Qed.

Theorem SFdiv_rounds (x : spec_float) (my : positive) (ey : Z) :
  nn x ->
  rounds (SF2Q x / SF2Q (S754_finite false my ey))
         (SFdiv prec emax x (S754_finite false my ey)).
Proof.
  destruct x as [[|]|sx| |[|] mx ex]; simpl; try tauto; intros _.
  - split; [left; exact I|].
    assert (0 / F (Z.pos my) ey == 0)%Q as E
      by (unfold Qdiv; apply Qmult_0_l).
    split.
    + intros v Hv Hle. right. simpl. lra.
    + intros v Hv Hle. split; [exact I|]. simpl. lra.
  - pose proof (div_core_spec mx my ex ey) as Hcore.
    destruct (SFdiv_core_binary prec emax (Z.pos mx) ex (Z.pos my) ey)
      as [[q e'] l].
    destruct Hcore as (Hq & C0 & Hloc).
    destruct (round_aux_spec false q e' l _ Hq C0 Hloc)
      as (m & e & -> & Hm & He & Hn & Hfloor & Hceil).
    apply (pack_rounds false); assumption.
Qed.


(** *** Comparison of valid non-negative floats is that of their values *)

Lemma finite_pos_value (m : positive) (e : Z) : (0 < F (Z.pos m) e)%Q.
Proof. rewrite <- (F_0 e). apply F_lt. lia. Qed.

Theorem SFleb_nn (x y : spec_float) :
  valid x -> valid y -> nn x -> nn y ->
  (SFleb x y = true <-> (SF2Q x <= SF2Q y)%Q).
Proof.
  destruct x as [[|]|sx| |[|] mx ex]; simpl; try tauto;
    destruct y as [[|]|sy| |[|] my ey]; simpl; try tauto;
    intros Vx Vy _ _; unfold SFleb; simpl.
  - split; [intros _; apply Qle_refl|reflexivity].
  - pose proof (finite_pos_value my ey).
    split; [intros _; lra|reflexivity].
  - pose proof (finite_pos_value mx ex).
    split; [discriminate|intros; lra].
  - destruct (valid_finite _ _ _ Vx) as (Hmx & Hex & Hnx).
    destruct (valid_finite _ _ _ Vy) as (Hmy & Hey & Hny).
    destruct (Z.compare_spec ex ey) as [E|L|G].
    + subst ey. change (Pos.compare_cont Eq mx my) with (mx ?= my)%positive.
      rewrite Pos2Z.inj_compare.
      destruct (Z.compare_spec (Z.pos mx) (Z.pos my)) as [E|L|G].
      * rewrite E. split; [intros _; apply Qle_refl|reflexivity].
      * split; [intros _; apply F_le; lia|reflexivity].
      * pose proof (F_lt (Z.pos my) (Z.pos mx) ex G).
        split; [discriminate|intros; lra].
    + pose proof (rep_below (Z.pos mx) ex (Z.pos my) ey
                    ltac:(lia) ltac:(lia) L Hny).
      split; [intros _; lra|reflexivity].
    + pose proof (rep_below (Z.pos my) ey (Z.pos mx) ex
                    ltac:(lia) ltac:(lia) G Hnx).
      split; [discriminate|intros; lra].
Qed.


(** *** Results that are numbers *)

Lemma pack_valid (s : bool) (m e : Z) :
  0 <= m < 2 ^ prec -> emin <= e -> normal m e -> valid (pack s m e).
Proof.
  intros Hm He Hn. unfold valid, pack.
  destruct m as [|p|p]; [reflexivity| |lia].
  destruct (Z.leb_spec e (emax - prec)) as [L|G]; [|reflexivity].
  simpl. unfold bounded, canonical_mantissa.
  apply andb_true_iff. split; [|apply Z.leb_le; exact L].
  apply Z.eqb_eq. change (Z.pos (digits2_pos p)) with (Zdigits2 (Z.pos p)).
  destruct Hn as [E|G].
  - pose proof (Zdigits2_le (Z.pos p) prec ltac:(lia) ltac:(lia)
                  ltac:(lia)).
    unfold SpecFloat.fexp. lia.
  - rewrite (Zdigits2_unique (Z.pos p) prec ltac:(lia) Hprec).
    unfold SpecFloat.fexp. lia.
Qed.

Lemma binary_normalize_valid (m e : Z) (sz : bool) :
  valid (binary_normalize prec emax m e sz).
Proof.
  destruct m as [|p|p]; simpl; [reflexivity| |].
  - destruct (binary_round_spec false p e)
      as (m' & e' & -> & Hm' & He' & Hn & _).
    now apply pack_valid.
  - destruct (binary_round_spec true p e)
      as (m' & e' & -> & Hm' & He' & Hn & _).
    now apply pack_valid.
Qed.

Lemma SFadd_not_nan (x y : spec_float) :
  nn x -> y <> S754_nan -> SFadd prec emax x y <> S754_nan.
Proof.
  destruct x as [[|]|sx| |[|] mx ex]; simpl; try tauto;
    destruct y as [[|]|[|]| |sy my ey]; simpl; try congruence;
    intros _ _; apply binary_normalize_not_nan.
Qed.

Lemma SFsub_not_nan (x y : spec_float) :
  nn x -> y <> S754_nan -> SFsub prec emax x y <> S754_nan.
Proof.
  destruct x as [[|]|sx| |[|] mx ex]; simpl; try tauto;
    destruct y as [[|]|[|]| |sy my ey]; simpl; try congruence;
    intros _ _; apply binary_normalize_not_nan.
Qed.

Lemma SFsub_self (x : spec_float) :
  nn x -> SFsub prec emax x x = S754_zero false.
Proof.
  destruct x as [[|]|sx| |[|] mx ex]; simpl; try tauto; intros _.
  destruct (shl_align mx ex (Z.min ex ex)) as [m' e']. simpl.
  rewrite Z.pos_sub_diag. reflexivity.
Qed.

Lemma SFadd_zero_r (x : spec_float) :
  nn x -> SFadd prec emax x (S754_zero false) = x.
Proof. destruct x as [[|]|sx| |[|] mx ex]; simpl; tauto. Qed.

End Format.

End Round.

(** ** Binary64: bounds on the results of the primitive operations *)

Module Double.

Import Round.

Lemma Hprec : 0 < prec.
Proof. reflexivity. Qed.

Lemma Hemax : prec < emax.
Proof. reflexivity. Qed.

(** The value of a finite double. *)
Definition B2Q (x : float) : Q := SF2Q (Prim2SF x).

(** [x] is [+0] or positive and finite. *)
Definition nnf (x : float) : Prop := nn (Prim2SF x).

(** [x] is finite with [0 <= x <= c]. *)
Definition ub (x : float) (c : Q) : Prop := nnf x /\ (B2Q x <= c)%Q.

(** A value of the format below the overflow threshold. *)
Definition dyadic (v : Q) : Prop := repb prec emax v.

Lemma valid_prim (x : float) : valid prec emax (Prim2SF x).
Proof. apply Prim2SF_valid. Qed.

Lemma ub_nonneg (x : float) (c : Q) : ub x c -> (0 <= B2Q x)%Q /\ (0 <= c)%Q.
Proof.
  intros [Hn Hc]. pose proof (nn_value _ Hn) as H0. fold (B2Q x) in H0.
  split; lra.
Qed.

Lemma ub_weaken (x : float) (c c' : Q) : ub x c -> (c <= c')%Q -> ub x c'.
Proof. intros [Hn Hc] Hle. split; [exact Hn|lra]. Qed.

Lemma dyadic_Z (k : Z) : 0 <= k < 2 ^ 53 -> dyadic (inject_Z k).
Proof.
  intros Hk. exists k, 0. split; [unfold F; rewrite bpow_0; ring|].
  split; [exact Hk|]. split; vm_compute; discriminate.
Qed.

Lemma dyadic_16 (k : Z) : 0 <= k < 2 ^ 53 -> dyadic (inject_Z k / 16).
Proof.
  intros Hk. exists k, (-4). split.
  - unfold F. change (bpow (-4)) with (/ 16)%Q. reflexivity.
  - split; [exact Hk|]. split; vm_compute; discriminate.
Qed.

Theorem add_ub (a b : float) (ca cb v : Q) :
  ub a ca -> ub b cb -> dyadic v -> (ca + cb <= v)%Q -> ub (a + b) v.
Proof.
  intros [Ha Hca] [Hb Hcb] Hv Hle.
  destruct (SFadd_rounds prec emax Hprec _ _ Ha Hb) as (_ & _ & Hup).
  unfold ub, nnf, B2Q. rewrite add_spec. apply Hup; [exact Hv|].
  unfold B2Q in *. lra.
Qed.

Theorem mul_ub (a b : float) (ca cb v : Q) :
  ub a ca -> ub b cb -> dyadic v -> (ca * cb <= v)%Q -> ub (a * b) v.
Proof.
  intros Hua Hub Hv Hle.
  destruct (ub_nonneg _ _ Hua) as [Ha0 Hca0].
  destruct (ub_nonneg _ _ Hub) as [Hb0 Hcb0].
  destruct Hua as [Ha Hca], Hub as [Hb Hcb].
  destruct (SFmul_rounds prec emax Hprec Hemax _ _
              (valid_prim a) (valid_prim b) Ha Hb) as (_ & _ & Hup).
  unfold ub, nnf, B2Q. rewrite mul_spec. apply Hup; [exact Hv|].
  unfold B2Q in *. nra.
Qed.

(** Division by a finite double that is at least one. *)
Theorem div_ub (a b : float) (ca v : Q) (my : positive) (ey : Z) :
  ub a ca -> Prim2SF b = S754_finite false my ey -> (1 <= B2Q b)%Q ->
  dyadic v -> (ca <= v)%Q -> ub (a / b) v.
Proof.
  intros Hua Eb Hb1 Hv Hle.
  destruct (ub_nonneg _ _ Hua) as [Ha0 Hca0]. destruct Hua as [Ha Hca].
  destruct (SFdiv_rounds prec emax Hprec _ my ey Ha) as (_ & _ & Hup).
  unfold ub, nnf, B2Q. rewrite div_spec, Eb. apply Hup; [exact Hv|].
  unfold B2Q in *. rewrite Eb in Hb1.
  apply Qle_trans with (SF2Q (Prim2SF a)); [|lra].
  apply Qle_shift_div_r; [lra|]. nra.
Qed.

(** *** Comparisons *)

Lemma leb_value (a b : float) :
  nnf a -> nnf b -> ((a <=? b)%float = true <-> (B2Q a <= B2Q b)%Q).
Proof.
  intros Ha Hb. rewrite leb_spec.
  apply (SFleb_nn prec emax Hprec); try assumption; apply valid_prim.
Qed.

(** A double between a positive finite one and a finite one is positive
    and finite. *)
Lemma between (lo hi x : float) (ml : positive) (el : Z) :
  Prim2SF lo = S754_finite false ml el -> nnf hi ->
  (lo <=? x)%float = true -> (x <=? hi)%float = true ->
  ub x (B2Q hi).
Proof.
  intros El Hhi Hlo Hup.
  assert (nnf x) as Hx.
  { unfold nnf in *. rewrite leb_spec in Hlo, Hup. rewrite El in Hlo.
    unfold SFleb in *.
    destruct (Prim2SF x) as [[|]|[|]| |[|] mx ex]; simpl in *;
      try discriminate; try exact I.
    destruct (Prim2SF hi) as [[|]|[|]| |[|] mh eh]; simpl in *;
      try discriminate; try tauto. }
  split; [exact Hx|]. now apply leb_value.
Qed.

(** A boolean test of [ub] on a given double. *)
Definition ubb (x : float) (c : Q) : bool :=
  match Prim2SF x with
  | S754_zero false => Qle_bool 0 c
  | S754_finite false m e => Qle_bool (F (Z.pos m) e) c
  | _ => false
  end.

Lemma ubb_ub (x : float) (c : Q) : ubb x c = true -> ub x c.
Proof.
  unfold ubb, ub, nnf, B2Q.
  destruct (Prim2SF x) as [[|]|s| |[|] m e]; simpl; try discriminate;
    intros H; apply Qle_bool_iff in H; split; trivial.
Qed.

End Double.

(** ** Non-negative doubles, the infinite one included *)

Module NonNeg.

Import Round Double.

(** [0 <= x]: a zero, a positive finite double or [+oo]. *)
Definition nni (x : spec_float) : Prop :=
  match x with
  | S754_zero _ | S754_finite false _ _ | S754_infinity false => True
  | _ => False
  end.

(** The same without the negative zero. *)
Definition nns (x : spec_float) : Prop := nn x \/ x = S754_infinity false.

Lemma nns_nni (x : spec_float) : nns x -> nni x.
Proof.
  intros [H| ->]; [|exact I].
  destruct x as [[|]|s| |[|] m e]; simpl in *; tauto.
Qed.

Lemma leb0 (x : float) : (0 <=? x)%float = true <-> nni (Prim2SF x).
Proof.
  rewrite leb_spec. change (Prim2SF 0) with (S754_zero false).
  unfold SFleb.
  destruct (Prim2SF x) as [s|[|]| |[|] m e]; simpl;
    split; trivial; try discriminate; try tauto.
Qed.

Lemma SFleb_inf (x : spec_float) :
  nns x -> SFleb x (S754_infinity false) = true.
Proof.
  intros [H| ->]; [|reflexivity].
  destruct x as [[|]|s| |[|] m e]; simpl in *; tauto.
Qed.

Lemma SFleb_refl (x : spec_float) : nns x -> SFleb x x = true.
Proof.
  intros [H| ->]; [|reflexivity].
  destruct x as [[|]|s| |[|] m e]; simpl in *; try tauto.
  unfold SFleb. simpl. rewrite Z.compare_refl, Pos.compare_cont_refl.
  reflexivity.
Qed.

(** Adding a non-negative double never decreases a non-negative one. *)
Theorem add_mono (a b : float) :
  nns (Prim2SF a) -> nni (Prim2SF b) ->
  nns (Prim2SF (a + b)) /\ (a <=? a + b)%float = true.
Proof.
  intros Ha Hb. rewrite leb_spec.
  pose proof (valid_prim (a + b)) as Vz. pose proof (valid_prim a) as Va.
  rewrite add_spec in *. unfold SF64add in *.
  destruct Ha as [Ha|Ea].
  - destruct (Prim2SF b) as [[|]|[|]| |[|] mb eb] eqn:Eb; simpl in Hb;
      try tauto.
    + (* b = -0 *)
      assert (SFadd prec emax (Prim2SF a) (S754_zero true) = Prim2SF a) as ->.
      { destruct (Prim2SF a) as [[|]|s| |[|] m e]; simpl in *; tauto. }
      split; [left; exact Ha|apply SFleb_refl; left; exact Ha].
    + (* b = +0 *)
      rewrite (SFadd_zero_r prec emax _ Ha).
      split; [left; exact Ha|apply SFleb_refl; left; exact Ha].
    + (* b = +oo *)
      assert (SFadd prec emax (Prim2SF a) (S754_infinity false)
              = S754_infinity false) as ->.
      { destruct (Prim2SF a) as [[|]|s| |[|] m e]; simpl in *; tauto. }
      split; [right; reflexivity|apply SFleb_inf; left; exact Ha].
    + (* b finite and positive *)
      assert (nn (S754_finite false mb eb)) as Hb' by exact I.
      destruct (SFadd_rounds prec emax Hprec _ _ Ha Hb')
        as (Hcls & Hlow & _).
      split; [exact Hcls|].
      destruct (Hlow (SF2Q (Prim2SF a))) as [Einf|Hle].
      * apply repb_rep, nn_repb; [exact Hprec|exact Hemax|exact Va|exact Ha].
      * pose proof (nn_value _ Hb'). lra.
      * rewrite Einf. apply SFleb_inf. left. exact Ha.
      * destruct Hcls as [Hz|Einf];
          [|rewrite Einf; apply SFleb_inf; left; exact Ha].
        apply (SFleb_nn prec emax Hprec); assumption.
  - rewrite Ea.
    assert (SFadd prec emax (S754_infinity false) (Prim2SF b)
            = S754_infinity false) as ->.
    { destruct (Prim2SF b) as [[|]|[|]| |[|] mb eb]; simpl in *; tauto. }
    split; [right; reflexivity|reflexivity].
Qed.

Lemma div_100 (a : float) :
  nns (Prim2SF a) -> nns (Prim2SF (a / 100)).
Proof.
  intros Ha. rewrite div_spec. unfold SF64div.
  assert (exists m e, Prim2SF 100 = S754_finite false m e) as (m & e & ->)
    by (eexists; eexists; vm_compute; reflexivity).
  destruct Ha as [Ha| ->]; [|right; reflexivity].
  apply (SFdiv_rounds prec emax Hprec _ m e Ha).
Qed.

End NonNeg.

(** * Part IV: lemmas on the pages *)

(** ** The two simulation loops against the specification's simulator *)

Section LoopsRefineSimulator.

Import Dashboard.
Local Open Scope float_scope.

Variable flights_per_year : Z.
Variables degradation_rate recovery_factor : float.

Definition sim_of_pair (p : float * float) : sim := Sim (fst p) (snd p).

Lemma baseline_prefix (k : nat) :
  fold_left (baseline_body degradation_rate) (map Z.of_nat (seq 0 k)) sim0
  = sim_of_pair
      (Spec.state_after degradation_rate recovery_factor None k).
Proof.
  induction k as [|k IH].
  - reflexivity.
  - rewrite range_prefix, fold_left_snoc, IH. simpl.
    destruct (Spec.state_after _ _ None k) as [d c]. reflexivity.
Qed.

Lemma wash_prefix (iv : Z) (k : nat) :
  fold_left (wash_body degradation_rate recovery_factor iv)
            (map Z.of_nat (seq 0 k)) sim0
  = sim_of_pair
      (Spec.state_after degradation_rate recovery_factor (Some iv) k).
Proof.
  induction k as [|k IH].
  - reflexivity.
  - rewrite range_prefix, fold_left_snoc, IH. simpl.
    destruct (Spec.state_after _ _ (Some iv) k) as [d c].
    unfold wash_body. simpl.
    destruct ((Z.of_nat k + 1) mod iv =? 0)%Z; reflexivity.
Qed.

Lemma baseline_loop_spec :
  fuel_burn (baseline_loop flights_per_year degradation_rate)
  = Spec.cumulative_burn degradation_rate recovery_factor None
      flights_per_year.
Proof.
  unfold baseline_loop, Py.range, Spec.cumulative_burn.
  rewrite baseline_prefix. reflexivity.
Qed.

Lemma wash_loop_spec (iv : Z) :
  fuel_burn (wash_loop flights_per_year degradation_rate recovery_factor iv)
  = Spec.cumulative_burn degradation_rate recovery_factor (Some iv)
      flights_per_year.
Proof.
  unfold wash_loop, Py.range, Spec.cumulative_burn.
  rewrite wash_prefix. reflexivity.
Qed.

(** An interval above the flight count never fires: on every index of
    the loop the two bodies coincide. *)
Lemma wash_body_idle (iv i : Z) (s : sim) :
  (0 <= i < flights_per_year)%Z -> (flights_per_year < iv)%Z ->
  wash_body degradation_rate recovery_factor iv s i
  = baseline_body degradation_rate s i.
Proof.
  intros Hi Hiv. unfold wash_body, baseline_body.
  rewrite Z.mod_small by lia.
  destruct (Z.eqb_spec (i + 1) 0) as [E|_]; [lia|reflexivity].
Qed.

Lemma wash_loop_idle (iv : Z) :
  (flights_per_year < iv)%Z ->
  wash_loop flights_per_year degradation_rate recovery_factor iv
  = baseline_loop flights_per_year degradation_rate.
Proof.
  intros Hiv. unfold wash_loop, baseline_loop.
  apply fold_left_agree. intros s i Hi.
  apply range_In in Hi. now apply wash_body_idle.
Qed.

End LoopsRefineSimulator.

(** ** The sweep fills its three lists candidate by candidate *)

Section SweepTable.

Import Dashboard.
Local Open Scope float_scope.

Variable flights_per_year : Z.
Variables flight_time fuel_price : float.
Variable wash_cost : Z.
Variables degradation_rate recovery_factor : float.

Let body :=
  sweep_body flights_per_year flight_time fuel_price wash_cost
             degradation_rate recovery_factor.
Let fc :=
  fuel_cost_of flights_per_year flight_time fuel_price
               degradation_rate recovery_factor.
Let wc := total_wash_cost_of flights_per_year wash_cost.
Let net :=
  net_of flights_per_year flight_time fuel_price wash_cost
         degradation_rate recovery_factor.

Lemma sweep_from (l : list Z) (t : table) :
  fold_left body l t
  = Table (fuel_costs t ++ map fc l)
          (wash_costs t ++ map wc l)
          (net_savings t ++ map net l).
Proof.
  revert t. induction l as [|iv l IH]; intros t; simpl.
  - rewrite !app_nil_r. destruct t; reflexivity.
  - rewrite IH. subst body. unfold sweep_body. simpl.
    rewrite <- !app_assoc. reflexivity.
Qed.

Lemma sweep_lists (l : list Z) :
  sweep flights_per_year flight_time fuel_price wash_cost
        degradation_rate recovery_factor l
  = Table (map fc l) (map wc l) (map net l).
Proof. unfold sweep. fold body. rewrite sweep_from. reflexivity. Qed.

End SweepTable.

(** ** Trajectories *)

Section Trajectories.

Import Dashboard.
Local Open Scope float_scope.

Variable flights_per_year : Z.
Variables degradation_rate recovery_factor : float.
Variable opt_iv : Z.

(** The efficiency recorded for flight [c] under a policy. *)
Definition eff_entering (interval : option Z) (c : nat) : float :=
  100 - Spec.deg_entering degradation_rate recovery_factor interval c.

Let two := Some (interval_two flights_per_year).
Let opt := Some opt_iv.

Lemma trajectories_prefix (k : nat) :
  fold_left (traj_body flights_per_year degradation_rate recovery_factor
               opt_iv)
            (map Z.of_nat (seq 0 k)) traj0
  = Traj (map (eff_entering None) (seq 0 k))
         (map (eff_entering two) (seq 0 k))
         (map (eff_entering opt) (seq 0 k))
         (Spec.deg_entering degradation_rate recovery_factor None k)
         (Spec.deg_entering degradation_rate recovery_factor two k)
         (Spec.deg_entering degradation_rate recovery_factor opt k).
Proof.
  induction k as [|k IH].
  - reflexivity.
  - rewrite range_prefix, fold_left_snoc, IH.
    rewrite seq_S, !map_app. reflexivity.
Qed.

Lemma trajectories_lists :
  let t := trajectories flights_per_year degradation_rate recovery_factor
             opt_iv in
  let n := Z.to_nat flights_per_year in
  eff_no t = map (eff_entering None) (seq 0 n)
  /\ eff_two t = map (eff_entering two) (seq 0 n)
  /\ eff_opt t = map (eff_entering opt) (seq 0 n).
Proof.
  cbv zeta. unfold trajectories, Py.range.
  rewrite trajectories_prefix. repeat split.
Qed.

Lemma eff_entering_nth (interval : option Z) (n c : nat) :
  (c < n)%nat ->
  nth_error (map (eff_entering interval) (seq 0 n)) c
  = Some (eff_entering interval c).
Proof.
  intros Hc. rewrite nth_error_map.
  replace (nth_error (seq 0 n) c) with (Some c); [reflexivity|].
  symmetry. rewrite nth_error_nth' with (d := O) by now rewrite length_seq.
  now rewrite seq_nth.
Qed.

End Trajectories.

(** ** The scan of [np.argmax] keeps the first maximum *)

Section Argmax.

Import FloatOrder.
Local Open Scope float_scope.

(** [v], at index [r], is a maximum of [l] and the first one. *)
Definition first_maximum (l : list float) (r : nat) (v : float) : Prop :=
  nth_error l r = Some v
  /\ (forall j x, nth_error l j = Some x -> (x <=? v) = true)
  /\ (forall j x, (j < r)%nat -> nth_error l j = Some x -> (x <? v) = true).

Lemma argmax_scan_first (l pre : list float) (mp : float) (best : nat) :
  (forall x, In x (pre ++ l) -> num x) ->
  first_maximum pre best mp ->
  exists v,
    first_maximum (pre ++ l)
      (Py.argmax_scan mp best (List.length pre) l) v.
Proof.
  revert pre mp best.
  induction l as [|x l IH]; intros pre mp best Hnum Hmax; simpl.
  - exists mp. now rewrite app_nil_r.
  - assert (num x) as Hx by (apply Hnum, in_or_app; right; left; reflexivity).
    destruct Hmax as (Hbest & Hle & Hlt).
    assert (num mp) as Hmp.
    { apply Hnum, in_or_app. left. eapply nth_error_In, Hbest. }
    assert (List.length (pre ++ [x]) = S (List.length pre)) as Hlen
      by (rewrite length_app; simpl; lia).
    replace (pre ++ x :: l) with ((pre ++ [x]) ++ l) in *
      by (rewrite <- app_assoc; reflexivity).
    destruct (x <=? mp) eqn:Hcmp.
    + rewrite <- Hlen. apply IH; [exact Hnum|].
      split; [|split].
      * rewrite nth_error_app1; [exact Hbest|].
        apply nth_error_Some. congruence.
      * intros j y Hy.
        destruct (Nat.lt_ge_cases j (List.length pre)) as [Hj|Hj].
        -- rewrite nth_error_app1 in Hy by exact Hj. eapply Hle, Hy.
        -- rewrite nth_error_app2 in Hy by exact Hj.
           destruct (j - List.length pre)%nat as [|n]; simpl in Hy.
           ++ inversion Hy; subst y. exact Hcmp.
           ++ destruct n; discriminate.
      * intros j y Hj Hy.
        assert (best < List.length pre)%nat as Hb
          by (apply nth_error_Some; congruence).
        rewrite nth_error_app1 in Hy by lia. eapply Hlt; eassumption.
    + apply is_nan_false in Hx as Hx'. rewrite Hx'.
      apply not_leb_ltb in Hcmp; [|assumption|assumption].
      rewrite <- Hlen. apply IH; [exact Hnum|].
      split; [|split].
      * rewrite nth_error_app2 by lia. now rewrite Nat.sub_diag.
      * intros j y Hy.
        destruct (Nat.lt_ge_cases j (List.length pre)) as [Hj|Hj].
        -- rewrite nth_error_app1 in Hy by exact Hj.
           apply ltb_leb. eapply leb_ltb_trans; [eapply Hle, Hy|exact Hcmp].
        -- rewrite nth_error_app2 in Hy by exact Hj.
           destruct (j - List.length pre)%nat as [|n]; simpl in Hy.
           ++ inversion Hy; subst y. now apply leb_refl.
           ++ destruct n; discriminate.
      * intros j y Hj Hy.
        rewrite nth_error_app1 in Hy by exact Hj.
        eapply leb_ltb_trans; [eapply Hle, Hy|exact Hcmp].
Qed.

Lemma argmax_first (l : list float) :
  l <> [] -> (forall x, In x l -> num x) ->
  exists r v, Py.argmax l = Some r /\ first_maximum l r v.
Proof.
  intros Hne Hnum. destruct l as [|x l]; [congruence|].
  assert (num x) as Hx by (apply Hnum; left; reflexivity).
  unfold Py.argmax. apply is_nan_false in Hx as Hx'. rewrite Hx'.
  destruct (argmax_scan_first l [x] x 0) as [v Hv].
  - exact Hnum.
  - split; [reflexivity|split].
    + intros [|[|j]] y Hy; simpl in Hy; try discriminate.
      inversion Hy; subst y. now apply leb_refl.
    + intros j y Hj. lia.
  - exists (Py.argmax_scan x 0 1 l), v. split; [reflexivity|exact Hv].
Qed.

(** Whatever the values, the index returned lies in the list. *)
Lemma argmax_scan_bound (l : list float) (mp : float) (best i : nat) :
  (best < i)%nat ->
  (Py.argmax_scan mp best i l < i + List.length l)%nat.
Proof.
  revert mp best i. induction l as [|x l IH]; intros mp best i Hb; simpl.
  - lia.
  - destruct (x <=? mp).
    + specialize (IH mp best (S i)). lia.
    + destruct (is_nan x); [lia|].
      specialize (IH x i (S i)). lia.
Qed.

Lemma argmax_bound (l : list float) (r : nat) :
  Py.argmax l = Some r -> (r < List.length l)%nat.
Proof.
  destruct l as [|x l]; simpl; [discriminate|].
  intros H. inversion H; subst r. destruct (is_nan x); [lia|].
  pose proof (argmax_scan_bound l x 0 1). lia.
Qed.

Lemma argmax_some (l : list float) : l <> [] -> exists r, Py.argmax l = Some r.
Proof. destruct l; [congruence|]. intros _. eexists. reflexivity. Qed.

End Argmax.

(** ** The optimizer returns a candidate of a non-empty sweep *)

Section OptimizeTotal.

Import Dashboard.

Variable flights_per_year : Z.
Variables flight_time fuel_price : float.
Variable wash_cost : Z.
Variables degradation_rate recovery_factor : float.

Lemma optimize_some (intervals : list Z) :
  intervals <> [] ->
  exists o,
    optimize flights_per_year flight_time fuel_price wash_cost
             degradation_rate recovery_factor intervals = Some o
    /\ Py.argmax
         (net_savings
            (sweep flights_per_year flight_time fuel_price wash_cost
                   degradation_rate recovery_factor intervals))
       = Some (opt_idx o)
    /\ nth_error intervals (opt_idx o) = Some (opt_interval o)
    /\ nth_error
         (net_savings
            (sweep flights_per_year flight_time fuel_price wash_cost
                   degradation_rate recovery_factor intervals))
         (opt_idx o) = Some (opt_net o)
    /\ opt_washes o = (flights_per_year / opt_interval o)%Z.
Proof.
  intros Hne. unfold optimize. rewrite sweep_lists. simpl.
  destruct (argmax_some
              (map (net_of flights_per_year flight_time fuel_price
                      wash_cost degradation_rate recovery_factor)
                   intervals)) as [r Hr].
  { destruct intervals; [congruence|discriminate]. }
  rewrite Hr. pose proof (argmax_bound _ _ Hr) as Hb.
  rewrite length_map in Hb.
  destruct (nth_error intervals r) as [iv|] eqn:Hiv.
  - rewrite nth_error_map, Hiv. simpl.
    eexists. split; [reflexivity|]. simpl.
    repeat split; try assumption.
    rewrite nth_error_map, Hiv. reflexivity.
  - apply nth_error_None in Hiv. lia.
Qed.

End OptimizeTotal.

(** ** Validation of the fleet table *)

Section FleetValidation.

Local Open Scope string_scope.

Lemma issubset_two (df : Pd.DataFrame) (a b : string) :
  Pd.issubset [a; b] df = Pd.has_column df a && Pd.has_column df b.
Proof. unfold Pd.issubset. simpl. now rewrite andb_true_r. Qed.

Lemma get_none (df : Pd.DataFrame) (name : string) :
  Pd.has_column df name = false <-> Pd.get df name = None.
Proof.
  unfold Pd.has_column, Pd.columns.
  induction df as [|[n c] df IH]; simpl.
  - split; reflexivity.
  - destruct (String.eqb name n); simpl.
    + split; discriminate.
    + exact IH.
Qed.

Lemma with_delta_sfc_idle (df : Pd.DataFrame) :
  Fleet.has_delta_source df = false -> Fleet.with_delta_sfc df = Some df.
Proof.
  unfold Fleet.has_delta_source, Fleet.with_delta_sfc.
  rewrite issubset_two. intros H.
  apply orb_false_iff in H as [_ H]. rewrite H, andb_false_r. reflexivity.
Qed.

End FleetValidation.

(** ** Columns of an uploaded table *)

Section Columns.

Local Open Scope string_scope.

Lemma get_set_same (df : Pd.DataFrame) (name : string) (col : Pd.Column) :
  Pd.get (Pd.set df name col) name = Some col.
Proof.
  induction df as [|[n c] df IH]; simpl.
  - now rewrite String.eqb_refl.
  - destruct (String.eqb name n) eqn:E; simpl; rewrite E; [reflexivity|exact IH].
Qed.

Lemma get_set_other (df : Pd.DataFrame) (name other : string)
    (col : Pd.Column) :
  String.eqb other name = false ->
  Pd.get (Pd.set df name col) other = Pd.get df other.
Proof.
  intros Hne. induction df as [|[n c] df IH]; simpl.
  - now rewrite Hne.
  - destruct (String.eqb name n) eqn:E; simpl.
    + apply String.eqb_eq in E. subst n. now rewrite Hne.
    + destruct (String.eqb other n); [reflexivity|exact IH].
Qed.

Lemma has_column_get (df : Pd.DataFrame) (name : string) :
  Pd.has_column df name = true <-> exists c, Pd.get df name = Some c.
Proof.
  pose proof (get_none df name) as H.
  destruct (Pd.has_column df name), (Pd.get df name) as [c|]; split;
    try reflexivity; try discriminate.
  - intros _. exists c. reflexivity.
  - intros _. destruct H as [_ H]. now specialize (H eq_refl).
  - intros _. destruct H as [H _]. now specialize (H eq_refl).
  - intros [c Hc]. discriminate.
Qed.

Lemma columns_set (df : Pd.DataFrame) (name : string) (col : Pd.Column) :
  Pd.columns (Pd.set df name col)
  = if Pd.has_column df name then Pd.columns df
    else (Pd.columns df ++ [name])%list.
Proof.
  unfold Pd.has_column, Pd.columns.
  induction df as [|[n c] df IH]; simpl; [reflexivity|].
  destruct (String.eqb name n) eqn:E; simpl.
  - reflexivity.
  - rewrite IH. destruct (existsb (String.eqb name) (map fst df)); reflexivity.
Qed.

End Columns.

Lemma zip_with_nth (f : float -> float -> float) (a b : list float)
    (k : nat) (x y : float) :
  nth_error a k = Some x -> nth_error b k = Some y ->
  nth_error (Pd.zip_with f a b) k = Some (f x y).
Proof.
  revert b k. induction a as [|u a IH]; intros b k Hx Hy.
  - destruct k; discriminate.
  - destruct b as [|v b]; [destruct k; discriminate|].
    destruct k as [|k]; simpl in *.
    + inversion Hx; inversion Hy; subst. reflexivity.
    + eapply IH; eassumption.
Qed.

(** ** NumPy's pairwise sum *)

(** The fuel of [Np.pairwise_sum] never runs out when it is the length of
    the array: any two amounts that are at least the length less
    [PW_BLOCKSIZE] give the same sum. *)
Lemma pairwise_sum_fuel (f1 f2 : nat) (a : list float) :
  (List.length a <= f1 + Np.PW_BLOCKSIZE)%nat ->
  (List.length a <= f2 + Np.PW_BLOCKSIZE)%nat ->
  Np.pairwise_sum f1 a = Np.pairwise_sum f2 a.
Proof.
  unfold Np.PW_BLOCKSIZE.
  revert f2 a. induction f1 as [|f1 IH]; intros f2 a H1 H2.
  - destruct f2 as [|f2]; [reflexivity|]. cbn [Np.pairwise_sum].
    unfold Np.PW_BLOCKSIZE.
    destruct (Nat.ltb_spec 128 (List.length a)); [lia|reflexivity].
  - cbn [Np.pairwise_sum]. unfold Np.PW_BLOCKSIZE.
    destruct (Nat.ltb_spec 128 (List.length a)) as [Hn|Hn].
    + destruct f2 as [|f2]; [lia|]. cbn [Np.pairwise_sum].
      unfold Np.PW_BLOCKSIZE.
      destruct (Nat.ltb_spec 128 (List.length a)); [|lia].
      pose proof (Nat.div_mod_eq (List.length a) 2) as Hd.
      pose proof (Nat.mod_upper_bound (List.length a) 2 ltac:(lia)) as Hm.
      pose proof (Nat.mod_upper_bound (List.length a / 2) 8 ltac:(lia))
        as Hm8.
      f_equal; apply IH;
        rewrite ?length_firstn, ?length_skipn; lia.
    + destruct f2 as [|f2]; [reflexivity|]. cbn [Np.pairwise_sum].
      unfold Np.PW_BLOCKSIZE.
      destruct (Nat.ltb_spec 128 (List.length a)); [lia|reflexivity].
Qed.

(** Fewer than eight cells are added left to right. *)
Lemma sum_short (a : list float) :
  (List.length a < 8)%nat ->
  Np.sum a = (0 + fold_left add a neg_zero)%float.
Proof.
  intros H. unfold Np.sum. f_equal.
  destruct a as [|a0 [|a1 [|a2 [|a3 [|a4 [|a5 [|a6 [|a7 a]]]]]]]];
    try reflexivity.
  simpl in H. lia.
Qed.

(** ** The QAR fallback *)

Section QarFallback.

Import Inputs.
Local Open Scope string_scope.

(** The mean taken for a fuel-flow column: its own when the table has
    it, the mean of the one-cell default series otherwise. *)
Definition flow_mean (df : Pd.DataFrame) (name : string) (default : float)
  : option float :=
  match Pd.get df name with
  | Some c => Pd.mean c
  | None => Some default
  end.

Lemma dSFC_qar_fallback (df : Pd.DataFrame) :
  Pd.issubset ["Fuel_Flow_Pre"; "Fuel_Flow_Post"] df = false ->
  dSFC_qar df
  = match flow_mean df "Fuel_Flow_Pre" 1250,
          flow_mean df "Fuel_Flow_Post" 1230 with
    | Some pre, Some post => Some (1.6%float, Float pre, Float post)
    | _, _ => None
    end.
Proof.
  intros H. unfold dSFC_qar, flow_mean. rewrite H.
  destruct (Pd.get df "Fuel_Flow_Pre"), (Pd.get df "Fuel_Flow_Post");
    reflexivity.
Qed.

End QarFallback.

(** Every temperature difference the two EGT widgets allow with
    [EGT_after > EGT_before] gives a negative double. *)
Definition egt_regressions : list Z := map Z.of_nat (seq 1 400).

Lemma egt_regressions_negative :
  forallb (fun d => (0.08 * Py.float_of_int (- d) <? 0)%float)
          egt_regressions = true.
Proof. vm_compute. reflexivity. Qed.

(** ** The no-wash loop accumulates non-negative increments *)

Section NoWashMonotone.

Import Dashboard NonNeg.
Local Open Scope float_scope.

Variable degradation_rate : float.
Hypothesis rate_nonneg : (0 <=? degradation_rate) = true.

(** The state once [k] flights have been simulated. *)
Definition no_wash_after (k : nat) : sim :=
  fold_left (baseline_body degradation_rate) (map Z.of_nat (seq 0 k)) sim0.

Lemma no_wash_after_loop (N : Z) :
  baseline_loop N degradation_rate = no_wash_after (Z.to_nat N).
Proof. reflexivity. Qed.

Lemma no_wash_after_S (k : nat) :
  no_wash_after (S k)
  = Sim (deg (no_wash_after k) + degradation_rate)
        (fuel_burn (no_wash_after k)
         + (1.0 + deg (no_wash_after k) / 100.0)).
Proof.
  unfold no_wash_after. rewrite range_prefix, fold_left_snoc. reflexivity.
Qed.

Lemma one_nns : nns (Prim2SF 1).
Proof. left. vm_compute. exact I. Qed.

Lemma increment_nns (d : float) :
  nns (Prim2SF d) -> nns (Prim2SF (1.0 + d / 100.0)).
Proof.
  intros Hd. apply add_mono; [exact one_nns|].
  apply nns_nni, div_100, Hd.
Qed.

Lemma no_wash_nonneg (k : nat) :
  nns (Prim2SF (deg (no_wash_after k)))
  /\ nns (Prim2SF (fuel_burn (no_wash_after k))).
Proof.
  induction k as [|k [IHd IHb]].
  - split; left; vm_compute; exact I.
  - rewrite no_wash_after_S. simpl. split.
    + apply add_mono; [exact IHd|]. apply leb0, rate_nonneg.
    + apply add_mono; [exact IHb|]. apply nns_nni, increment_nns, IHd.
Qed.

Lemma no_wash_step (k : nat) :
  (fuel_burn (no_wash_after k) <=? fuel_burn (no_wash_after (S k))) = true
  /\ (0 <=? deg (no_wash_after k)) = true
  /\ (0 <=? 1.0 + deg (no_wash_after k) / 100.0) = true.
Proof.
  destruct (no_wash_nonneg k) as [Hd Hb].
  rewrite no_wash_after_S. simpl. split; [|split].
  - apply add_mono; [exact Hb|]. apply nns_nni, increment_nns, Hd.
  - apply leb0, nns_nni, Hd.
  - apply leb0, nns_nni, increment_nns, Hd.
Qed.

End NoWashMonotone.

(** ** Magnitudes reached by the simulation under the widgets' bounds *)

Section Magnitudes.

Import Dashboard Round Double.
Local Open Scope float_scope.

Variables degradation_rate recovery_factor : float.
Hypothesis rate_ub : ub degradation_rate (1 / 16).
Hypothesis recovery_ub : ub (1.0 - recovery_factor) 1.

Variable iv : Z.

(** The state once [k] flights have been simulated at interval [iv]. *)
Definition wash_after (k : nat) : sim :=
  fold_left (wash_body degradation_rate recovery_factor iv)
            (map Z.of_nat (seq 0 k)) sim0.

Lemma hundred_finite :
  exists m e, Prim2SF 100 = S754_finite false m e /\ (1 <= B2Q 100)%Q.
Proof.
  eexists; eexists; split; [vm_compute; reflexivity|].
  vm_compute. discriminate.
Qed.

Lemma one_ub : ub 1 1.
Proof. apply ubb_ub. vm_compute. reflexivity. Qed.

Lemma Q16 (k : Z) : (inject_Z (k + 1) / 16 == inject_Z k / 16 + 1 / 16)%Q.
Proof. rewrite inject_Z_plus. change (inject_Z 1) with 1%Q. field. Qed.

Lemma wash_step (s : sim) (i : Z) (k : Z) :
  0 <= k < 2000 ->
  ub (deg s) (inject_Z k / 16) -> ub (fuel_burn s) (inject_Z (126 * k)) ->
  ub (deg (wash_body degradation_rate recovery_factor iv s i))
     (inject_Z (k + 1) / 16)
  /\ ub (fuel_burn (wash_body degradation_rate recovery_factor iv s i))
        (inject_Z (126 * (k + 1))).
Proof.
  intros Hk Hd Hb. unfold wash_body. cbn [deg fuel_burn].
  assert (2 ^ 53 = 9007199254740992)%Z as E53 by reflexivity.
  assert (ub (deg s + degradation_rate) (inject_Z (k + 1) / 16)) as Hd'.
  { eapply add_ub; [exact Hd|exact rate_ub| |].
    - apply dyadic_16. lia.
    - rewrite Q16. apply Qle_refl. }
  split.
  - destruct ((i + 1) mod iv =? 0)%Z; [|exact Hd'].
    eapply mul_ub; [exact Hd'|exact recovery_ub| |].
    + apply dyadic_16. lia.
    + rewrite Qmult_1_r. apply Qle_refl.
  - destruct hundred_finite as (m & e & E100 & H100).
    assert (ub (deg s / 100) (inject_Z k / 16)) as Hq.
    { eapply div_ub; try eassumption.
      - apply dyadic_16. lia.
      - apply Qle_refl. }
    assert (ub (1 + deg s / 100) (inject_Z (k + 16) / 16)) as Hinc.
    { eapply add_ub; [exact one_ub|exact Hq| |].
      - apply dyadic_16. lia.
      - rewrite inject_Z_plus. change (inject_Z 16) with 16%Q.
        apply Qle_lteq. right. field. }
    eapply add_ub; [exact Hb|exact Hinc| |].
    + apply dyadic_Z. lia.
    + assert (inject_Z (k + 16) / 16 <= 126)%Q.
      { apply Qle_shift_div_r; [reflexivity|].
        change (126 * 16)%Q with (inject_Z 2016). rewrite <- Zle_Qle. lia. }
      replace (126 * (k + 1))%Z with (126 * k + 126)%Z by lia.
      rewrite (inject_Z_plus (126 * k) 126). change (inject_Z 126) with 126%Q.
      lra.
Qed.

Lemma wash_after_bounds (k : nat) :
  (k <= 2000)%nat ->
  ub (deg (wash_after k)) (inject_Z (Z.of_nat k) / 16)
  /\ ub (fuel_burn (wash_after k)) (inject_Z (126 * Z.of_nat k)).
Proof.
  induction k as [|k IH]; intros Hk.
  - split; apply ubb_ub; vm_compute; reflexivity.
  - destruct IH as [IHd IHb]; [lia|].
    unfold wash_after. rewrite range_prefix, fold_left_snoc.
    fold (wash_after k).
    replace (Z.of_nat (S k)) with (Z.of_nat k + 1)%Z by lia.
    apply wash_step; [lia|exact IHd|exact IHb].
Qed.

End Magnitudes.

(** ** Costs are finite for every input the sidebar admits *)

Section Costs.

Import Dashboard Round Double.
Local Open Scope float_scope.

Lemma cost_ub (flight_time fuel_price burn : float) :
  ub flight_time 10 -> ub fuel_price 3 -> ub burn 252000 ->
  ub (fuel_flow * flight_time * 3600.0 * burn * fuel_price) 27216000000.
Proof.
  intros Ht Hp Hb.
  assert (ub fuel_flow 1) as Hf by (apply ubb_ub; vm_compute; reflexivity).
  assert (ub 3600.0 3600) as H36 by (apply ubb_ub; vm_compute; reflexivity).
  assert (ub (fuel_flow * flight_time) 10) as H1.
  { eapply mul_ub; [exact Hf|exact Ht| |].
    - apply (dyadic_Z 10). vm_compute. split; discriminate || reflexivity.
    - vm_compute. discriminate. }
  assert (ub (fuel_flow * flight_time * 3600.0) 36000) as H2.
  { eapply mul_ub; [exact H1|exact H36| |].
    - apply (dyadic_Z 36000). vm_compute. split; discriminate || reflexivity.
    - vm_compute. discriminate. }
  assert (ub (fuel_flow * flight_time * 3600.0 * burn) 9072000000) as H3.
  { eapply mul_ub; [exact H2|exact Hb| |].
    - apply (dyadic_Z 9072000000). vm_compute.
      split; discriminate || reflexivity.
    - vm_compute. discriminate. }
  eapply mul_ub; [exact H3|exact Hp| |].
  - apply (dyadic_Z 27216000000). vm_compute.
    split; discriminate || reflexivity.
  - vm_compute. discriminate.
Qed.

Variable flights_per_year : Z.
Variables flight_time fuel_price : float.
Variables degradation_rate recovery_factor : float.

Hypothesis flights_ub : (flights_per_year <= 2000)%Z.
Hypothesis time_ub : ub flight_time 10.
Hypothesis price_ub : ub fuel_price 3.
Hypothesis rate_ub : ub degradation_rate (1 / 16).

Lemma wash_loop_burn_ub (rf : float) (iv : Z) :
  ub (1.0 - rf) 1 ->
  ub (fuel_burn (wash_loop flights_per_year degradation_rate rf iv)) 252000.
Proof.
  intros Hrf.
  destruct (wash_after_bounds degradation_rate rf rate_ub Hrf iv
              (Z.to_nat flights_per_year) ltac:(lia)) as [_ Hb].
  eapply ub_weaken; [exact Hb|].
  change 252000%Q with (inject_Z 252000). rewrite <- Zle_Qle. lia.
Qed.

Lemma fuel_cost_finite (iv : Z) :
  ub (1.0 - recovery_factor) 1 ->
  nnf (fuel_cost_of flights_per_year flight_time fuel_price degradation_rate
         recovery_factor iv).
Proof.
  intros Hrf. unfold fuel_cost_of, fuel_kg_of.
  eapply cost_ub; [exact time_ub|exact price_ub|].
  apply wash_loop_burn_ub, Hrf.
Qed.

Lemma baseline_cost_finite :
  nnf (baseline_cost flights_per_year flight_time fuel_price
         degradation_rate).
Proof.
  unfold baseline_cost, baseline_fuel_kg.
  rewrite <- (wash_loop_idle flights_per_year degradation_rate 1.0
                (flights_per_year + 1)) by lia.
  eapply cost_ub; [exact time_ub|exact price_ub|].
  apply wash_loop_burn_ub. apply ubb_ub. vm_compute. reflexivity.
Qed.

End Costs.

(** ** Exact cancellations on finite non-negative doubles *)

Section Cancel.

Import Round Double.
Local Open Scope float_scope.

Lemma add_zero_r (b : float) : nnf b -> b + 0 = b.
Proof.
  intros Hb. apply Prim2SF_inj. rewrite add_spec.
  change (Prim2SF 0) with (S754_zero false).
  apply (SFadd_zero_r prec emax), Hb.
Qed.

Lemma sub_self (b : float) : nnf b -> b - b = 0.
Proof.
  intros Hb. apply Prim2SF_inj. rewrite sub_spec.
  change (Prim2SF 0) with (S754_zero false).
  apply (SFsub_self prec emax), Hb.
Qed.

Lemma float_of_int_num (z : Z) : Prim2SF (Py.float_of_int z) <> S754_nan.
Proof.
  unfold Py.float_of_int.
  rewrite Prim2SF_SF2Prim by apply (binary_normalize_valid prec emax Hprec).
  apply (binary_normalize_not_nan prec emax Hprec).
Qed.

Lemma net_num (b f : float) (z : Z) :
  nnf b -> nnf f -> FloatOrder.num (b - (f + Py.float_of_int z)).
Proof.
  intros Hb Hf. unfold FloatOrder.num. rewrite sub_spec, add_spec.
  apply (SFsub_not_nan prec emax Hprec); [exact Hb|].
  apply (SFadd_not_nan prec emax Hprec); [exact Hf|].
  apply float_of_int_num.
Qed.

End Cancel.

(** ** The model of a sidebar within the widgets' bounds *)

Section SidebarModel.

Import Dashboard Round Double Inputs.
Local Open Scope float_scope.

(** The recovery factors the slider produces. *)
Definition slider_values : list Z := map Z.of_nat (seq 50 51).

Lemma slider_recovery_ub :
  forallb (fun z => ubb (1.0 - Py.float_of_int z / 100.0) 1) slider_values
  = true.
Proof. vm_compute. reflexivity. Qed.

Lemma recovery_slider_ub (z : Z) :
  (50 <= z <= 100)%Z -> ub (1.0 - Py.float_of_int z / 100.0) 1.
Proof.
  intros Hz. apply ubb_ub.
  pose proof slider_recovery_ub as Hall. rewrite forallb_forall in Hall.
  apply Hall. unfold slider_values. apply in_map_iff.
  exists (Z.to_nat z). split; [lia|]. apply in_seq. lia.
Qed.

Lemma mode_inputs_rate (s : sidebar) (m : model) :
  mode_inputs s = Some m ->
  (qar_mode s = true
   /\ degradation_rate m = degradation_rate_input s
   /\ recovery_factor m = Py.float_of_int (recovery_slider s) / 100.0)
  \/ (qar_mode s = false
      /\ degradation_rate m = deg_rate_default
      /\ recovery_factor m = recovery_default).
Proof.
  unfold mode_inputs. destruct (qar_mode s).
  - intros H. left. split; [reflexivity|].
    destruct (qar_df s) as [df|].
    + destruct (dSFC_qar df) as [[[d pre] post]|]; [|discriminate].
      inversion H. split; reflexivity.
    + destruct (dSFC_manual _ _); [|discriminate].
      inversion H. split; reflexivity.
  - intros H. right. inversion H. repeat split.
Qed.

Lemma sidebar_model_bounds (s : sidebar) (m : model) :
  widget_bounds s -> mode_inputs s = Some m ->
  (flights_per_year s <= 2000)%Z
  /\ ub (flight_time s) 10 /\ ub (fuel_price s) 3
  /\ ub (degradation_rate m) (1 / 16)
  /\ ub (1.0 - recovery_factor m) 1.
Proof.
  intros (_ & _ & Ht1 & Ht2 & HN & Hp1 & Hp2 & _ & Hr1 & Hr2 & Hs & _) Hm.
  split; [lia|]. split; [|split].
  - eapply ub_weaken.
    + eapply (between 0.5 10); try eassumption.
      * vm_compute. reflexivity.
      * vm_compute. exact I.
    + vm_compute. discriminate.
  - eapply ub_weaken.
    + eapply (between 0.1 3.0); try eassumption.
      * vm_compute. reflexivity.
      * vm_compute. exact I.
    + vm_compute. discriminate.
  - destruct (mode_inputs_rate s m Hm) as [(_ & -> & ->)|(_ & -> & ->)].
    + split.
      * eapply ub_weaken.
        -- eapply (between 0.00001 0.05); try eassumption.
           ++ vm_compute. reflexivity.
           ++ vm_compute. exact I.
        -- vm_compute. discriminate.
      * apply recovery_slider_ub, Hs.
    + split; apply ubb_ub; vm_compute; reflexivity.
Qed.

End SidebarModel.

(** * Part V: the claims *)

(** C1. For every input the sidebar admits (the slider keeps the sweep
    non-empty), the optimizer returns a candidate whose net saving is
    greater than or equal to that of every evaluated candidate, and
    strictly greater than that of every candidate before it in the sweep:
    among candidates sharing the maximal net saving it is the first, that
    is the smallest interval. *)
Theorem optimizer_selects_first_maximum
    (s : Inputs.sidebar) (m : Inputs.model) :
  Inputs.widget_bounds s ->
  Inputs.mode_inputs s = Some m ->
  let intervals := Dashboard.intervals_of (Inputs.max_interval s) in
  let net :=
    Dashboard.net_of (Inputs.flights_per_year s) (Inputs.flight_time s)
      (Inputs.fuel_price s) (Inputs.wash_cost s)
      (Inputs.degradation_rate m) (Inputs.recovery_factor m) in
  exists o,
    Dashboard.optimize (Inputs.flights_per_year s) (Inputs.flight_time s)
      (Inputs.fuel_price s) (Inputs.wash_cost s)
      (Inputs.degradation_rate m) (Inputs.recovery_factor m) intervals
    = Some o
    /\ nth_error intervals (Dashboard.opt_idx o)
       = Some (Dashboard.opt_interval o)
    /\ Dashboard.opt_net o = net (Dashboard.opt_interval o)
    /\ (forall iv, In iv intervals ->
          (net iv <=? Dashboard.opt_net o)%float = true)
    /\ (forall j iv, nth_error intervals j = Some iv ->
          (j < Dashboard.opt_idx o)%nat ->
          (net iv <? Dashboard.opt_net o)%float = true)
    /\ (forall iv, In iv intervals ->
          (net iv =? Dashboard.opt_net o)%float = true ->
          Dashboard.opt_interval o <= iv).
Proof.
  intros Hw Hm intervals net.
  destruct (sidebar_model_bounds s m Hw Hm) as (HN & Ht & Hp & Hr & Hrf).
  assert (20 <= Inputs.max_interval s) as Hmax
    by (destruct Hw as (_&_&_&_&_&_&_&_&_&_&_&_&_&H); lia).
  destruct (optimize_some (Inputs.flights_per_year s) (Inputs.flight_time s)
              (Inputs.fuel_price s) (Inputs.wash_cost s)
              (Inputs.degradation_rate m) (Inputs.recovery_factor m)
              intervals (intervals_nonempty _ Hmax))
    as (o & Ho & Harg & Hiv & Hnet & _).
  rewrite sweep_lists in Harg, Hnet. cbn [Dashboard.net_savings] in Harg, Hnet.
  fold net in Harg, Hnet.
  destruct (argmax_first (map net intervals)) as (r & v & Hr' & Hfirst).
  { intros E. apply map_eq_nil in E.
    exact (intervals_nonempty _ Hmax E). }
  { intros x Hx. apply in_map_iff in Hx as (iv & <- & _).
    apply net_num.
    - now apply baseline_cost_finite.
    - now apply fuel_cost_finite. }
  rewrite Harg in Hr'. inversion Hr'; subst r. clear Hr'.
  destruct Hfirst as (Hv & Hle & Hlt).
  rewrite Hnet in Hv. inversion Hv; subst v. clear Hv.
  assert (Dashboard.opt_net o = net (Dashboard.opt_interval o)) as Enet.
  { rewrite nth_error_map, Hiv in Hnet. simpl in Hnet. congruence. }
  assert (forall j iv, nth_error intervals j = Some iv ->
            (j < Dashboard.opt_idx o)%nat ->
            (net iv <? Dashboard.opt_net o)%float = true) as Hbefore.
  { intros j iv Hj Hlt'. apply (Hlt j); [exact Hlt'|].
    rewrite nth_error_map, Hj. reflexivity. }
  exists o. split; [exact Ho|]. split; [exact Hiv|]. split; [exact Enet|].
  split; [|split; [exact Hbefore|]].
  - intros iv Hin. apply In_nth_error in Hin as [j Hj].
    apply (Hle j). rewrite nth_error_map, Hj. reflexivity.
  - intros iv Hin Heq. apply In_nth_error in Hin as [j Hj].
    destruct (Nat.lt_ge_cases j (Dashboard.opt_idx o)) as [L|G].
    + pose proof (FloatOrder.ltb_not_eqb _ _ (Hbefore j iv Hj L)) as Hne.
      congruence.
    + apply range_step_nth in Hj. apply range_step_nth in Hiv. lia.
Qed.

Lemma optimizer_selects_first_maximum_witness :
  let s := Inputs.Sidebar false None 630 620 2.5 600 0.8 4000
             0.012 92 1250 1230 120 in
  Inputs.widget_bounds s
  /\ exists o,
       Dashboard.optimize 600 2.5 0.8 4000 Dashboard.deg_rate_default
         Dashboard.recovery_default (Dashboard.intervals_of 120) = Some o.
Proof.
  cbv zeta.
  assert (Inputs.widget_bounds
            (Inputs.Sidebar false None 630 620 2.5 600 0.8 4000
               0.012 92 1250 1230 120)) as Hw.
  { unfold Inputs.widget_bounds. simpl.
    repeat split; try lia; reflexivity. }
  split; [exact Hw|].
  destruct (optimizer_selects_first_maximum
              (Inputs.Sidebar false None 630 620 2.5 600 0.8 4000
                 0.012 92 1250 1230 120)
              (Inputs.Model Dashboard.deg_rate_default
                 Dashboard.recovery_default
                 (Inputs.dSFC_simulation 630 620) None) Hw eq_refl)
    as (o & Ho & _).
  exists o. exact Ho.
Defined.

(** C2. For every run within the widgets' bounds and every candidate [iv]
    of the sweep [range(20, max_interval + 1, 10)], at its position [k],
    the three lists hold: the fuel cost
    [fuel_flow * flight_time * 3600 * cumulative_burn * fuel_price] with
    the cumulative burn of the simulator run at interval [iv]; the wash
    cost [(flights_per_year // iv) * wash_cost]; and the net saving
    [baseline_cost - (fuel_cost + total_wash_cost)], the baseline being
    the no-wash simulator's cost.  The net saving is stored as computed,
    with no clamp. *)
Theorem sweep_evaluation_formulas
    (s : Inputs.sidebar) (degradation_rate recovery_factor : float)
    (k : nat) (iv : Z) :
  Inputs.widget_bounds s ->
  nth_error (Dashboard.intervals_of (Inputs.max_interval s)) k = Some iv ->
  let flights_per_year := Inputs.flights_per_year s in
  let flight_time := Inputs.flight_time s in
  let fuel_price := Inputs.fuel_price s in
  let wash_cost := Inputs.wash_cost s in
  let t := Dashboard.sweep flights_per_year flight_time fuel_price wash_cost
             degradation_rate recovery_factor
             (Dashboard.intervals_of (Inputs.max_interval s)) in
  let fuel_kg :=
    (Dashboard.fuel_flow * flight_time * 3600
     * Spec.cumulative_burn degradation_rate recovery_factor (Some iv)
         flights_per_year)%float in
  let fuel_cost := (fuel_kg * fuel_price)%float in
  let n_washes := flights_per_year / iv in
  let total_wash_cost := n_washes * wash_cost in
  let baseline_cost :=
    (Dashboard.fuel_flow * flight_time * 3600
     * Spec.cumulative_burn degradation_rate recovery_factor None
         flights_per_year * fuel_price)%float in
  20 <= iv
  /\ nth_error (Dashboard.fuel_costs t) k = Some fuel_cost
  /\ nth_error (Dashboard.wash_costs t) k = Some total_wash_cost
  /\ nth_error (Dashboard.net_savings t) k
     = Some (baseline_cost
             - (fuel_cost + Py.float_of_int total_wash_cost))%float
  /\ Dashboard.baseline_cost flights_per_year flight_time fuel_price
       degradation_rate = baseline_cost
  /\ nth_error (Dashboard.net_savings t) k
     = Some (SpecOptimizer.net_saving flights_per_year Dashboard.fuel_flow
               flight_time fuel_price wash_cost degradation_rate
               recovery_factor iv).
Proof.
  intros _ Hk. cbv zeta.
  split; [apply nth_error_In, intervals_at_least_20 in Hk; lia|].
  rewrite sweep_lists. simpl.
  rewrite !nth_error_map, Hk. simpl.
  unfold Dashboard.net_of, Dashboard.fuel_cost_of, Dashboard.fuel_kg_of,
    Dashboard.total_wash_cost_of, Dashboard.n_washes_of,
    Dashboard.baseline_cost, Dashboard.baseline_fuel_kg,
    SpecOptimizer.net_saving, SpecOptimizer.baseline_cost,
    SpecOptimizer.fuel_cost, SpecOptimizer.fuel_kg,
    SpecOptimizer.total_wash_cost, SpecOptimizer.n_washes.
  rewrite (wash_loop_spec (Inputs.flights_per_year s) degradation_rate
             recovery_factor).
  rewrite (baseline_loop_spec (Inputs.flights_per_year s) degradation_rate
             recovery_factor).
  repeat split; reflexivity.
Qed.

(** A net saving below zero is kept as it is: with the default inputs and
    a wash every 20 flights the stored value is negative. *)
Example net_saving_negative_kept :
  nth_error
    (Dashboard.net_savings
       (Dashboard.sweep 600 2.5 0.8 4000 0.012 0.92
          (Dashboard.intervals_of 120))) 0
  = Some (-42127.640801516827)%float
  /\ (-42127.640801516827 <? 0)%float = true.
Proof. split; vm_compute; reflexivity. Qed.

Lemma sweep_evaluation_formulas_witness :
  let s := Inputs.Sidebar true None 630 620 2.5 600 0.8 4000
             0.012 92 1250 1230 120 in
  Inputs.widget_bounds s
  /\ nth_error (Dashboard.intervals_of 120) 2 = Some 40
  /\ nth_error
       (Dashboard.wash_costs
          (Dashboard.sweep 600 2.5 0.8 4000 0.012 0.92
             (Dashboard.intervals_of 120))) 2
     = Some (600 / 40 * 4000).
Proof.
  cbv zeta.
  assert (Inputs.widget_bounds
            (Inputs.Sidebar true None 630 620 2.5 600 0.8 4000
               0.012 92 1250 1230 120)) as Hw.
  { unfold Inputs.widget_bounds. simpl.
    repeat split; try lia; reflexivity. }
  split; [exact Hw|]. split; [reflexivity|].
  apply (sweep_evaluation_formulas
           (Inputs.Sidebar true None 630 620 2.5 600 0.8 4000
              0.012 92 1250 1230 120) 0.012 0.92 2 40 Hw).
  reflexivity.
Defined.

(** C3. The no-wash loop (lines 275-279) and the per-interval loop
    (lines 284-290) run with an interval that never triggers, that is an
    interval greater than the flight count, end in the same state: the
    cumulative burn (and the degradation) are equal as doubles, for every
    degradation rate, recovery factor and flight count.  Both equal the
    specification's simulator called without an interval. *)
Theorem no_wash_equals_idle_interval
    (N : Z) (degradation_rate recovery_factor : float) (iv : Z) :
  N < iv ->
  Dashboard.fuel_burn (Dashboard.baseline_loop N degradation_rate)
  = Dashboard.fuel_burn
      (Dashboard.wash_loop N degradation_rate recovery_factor iv)
  /\ Dashboard.baseline_loop N degradation_rate
     = Dashboard.wash_loop N degradation_rate recovery_factor iv
  /\ Dashboard.fuel_burn (Dashboard.baseline_loop N degradation_rate)
     = Spec.cumulative_burn degradation_rate recovery_factor None N.
Proof.
  intros Hiv.
  rewrite (wash_loop_idle N degradation_rate recovery_factor iv Hiv).
  repeat split. apply baseline_loop_spec.
Qed.

Lemma no_wash_equals_idle_interval_witness :
  600 < 610
  /\ Dashboard.fuel_burn (Dashboard.baseline_loop 600 0.012%float)
     = Dashboard.fuel_burn
         (Dashboard.wash_loop 600 0.012%float 0.92%float 610).
Proof.
  split; [lia|].
  apply (no_wash_equals_idle_interval 600 0.012%float 0.92%float 610). lia.
Defined.

(** C4. For each of the three policies (no wash; the fixed interval
    [max(flights_per_year // 2, 1)]; the optimised interval, whatever its
    value), the trajectory built by lines 328-343 has exactly
    [flights_per_year] elements, starts with 100, and holds at every index
    [c] the value [100 - deg], [deg] being the degradation entering flight
    [c]: accumulated over the flights before it, each followed by the
    recovery when its rank is a multiple of the policy's interval (a
    positive one, as every candidate of the optimizer is). *)
Theorem trajectory_shape
    (flights_per_year : Z) (degradation_rate recovery_factor : float)
    (opt_iv : Z) :
  0 < flights_per_year ->
  0 < opt_iv ->
  let t := Dashboard.trajectories flights_per_year degradation_rate
             recovery_factor opt_iv in
  let policies :=
    [ (Dashboard.eff_no t, None);
      (Dashboard.eff_two t,
       Some (Py.max (flights_per_year / 2) 1));
      (Dashboard.eff_opt t, Some opt_iv) ] in
  forall eff interval, In (eff, interval) policies ->
    Z.of_nat (List.length eff) = flights_per_year
    /\ nth_error eff 0 = Some 100%float
    /\ forall c : nat, Z.of_nat c < flights_per_year ->
         nth_error eff c
         = Some (100 - Spec.deg_entering degradation_rate recovery_factor
                         interval c)%float.
Proof.
  intros HN _ t policies eff interval Hin.
  destruct (trajectories_lists flights_per_year degradation_rate
              recovery_factor opt_iv) as (Hno & Htwo & Hopt).
  fold t in Hno, Htwo, Hopt.
  assert (forall iv',
             eff = map (eff_entering degradation_rate recovery_factor iv')
                       (seq 0 (Z.to_nat flights_per_year)) ->
             Z.of_nat (List.length eff) = flights_per_year
             /\ nth_error eff 0 = Some 100%float
             /\ forall c : nat, Z.of_nat c < flights_per_year ->
                  nth_error eff c
                  = Some (100 - Spec.deg_entering degradation_rate
                                  recovery_factor iv' c)%float) as Hshape.
  { intros iv' ->. split; [|split].
    - rewrite length_map, length_seq. lia.
    - rewrite eff_entering_nth by lia. reflexivity.
    - intros c Hc. rewrite eff_entering_nth by lia. reflexivity. }
  simpl in Hin.
  destruct Hin as [E|[E|[E|[]]]]; inversion E; subst eff interval;
    apply Hshape; assumption.
Qed.

Lemma trajectory_shape_witness :
  0 < 600 /\ 0 < 110
  /\ Z.of_nat
       (List.length
          (Dashboard.eff_two
             (Dashboard.trajectories 600 0.012%float 0.92%float 110)))
     = 600.
Proof.
  split; [lia|]. split; [lia|].
  refine (proj1 (trajectory_shape 600 0.012%float 0.92%float 110 _ _ _ _
                   (or_intror (or_introl eq_refl)))); lia.
Defined.

(** C5. With a positive pre-wash flow the manual derivation (line 206)
    raises nothing and returns [(flow_pre - flow_post) / flow_pre * 100]
    as computed on doubles (the integers being below [2^53], as every
    widget value is); for 1250 and 1230 that is the double 1.6.  On the
    fleet page (Fleet_Heatmap.py lines 50-51), a table without a ΔSFC
    column and with the two fuel-flow columns gets a ΔSFC column whose
    cell in each row is the same formula on the two flows of that row. *)
Theorem delta_sfc_from_fuel_flows (flow_pre flow_post : Z) :
  0 < flow_pre < 2 ^ 53 ->
  - 2 ^ 53 < flow_pre - flow_post < 2 ^ 53 ->
  Inputs.dSFC_manual flow_pre flow_post
  = Some (Py.float_of_int (flow_pre - flow_post) / Py.float_of_int flow_pre
          * 100)%float
  /\ (flow_pre = 1250 -> flow_post = 1230 ->
      Inputs.dSFC_manual flow_pre flow_post = Some 1.6%float)
  /\ (forall (df : Pd.DataFrame) (pres posts : list float) (k : nat)
             (p q : float),
         Pd.has_column df "ΔSFC" = false ->
         Pd.get df "Fuel_Flow_Pre" = Some (Pd.NumCol pres) ->
         Pd.get df "Fuel_Flow_Post" = Some (Pd.NumCol posts) ->
         nth_error pres k = Some p -> nth_error posts k = Some q ->
         exists df' cells,
           Fleet.with_delta_sfc df = Some df'
           /\ Pd.get df' "ΔSFC" = Some (Pd.NumCol cells)
           /\ nth_error cells k = Some ((p - q) / p * 100)%float).
Proof.
  intros Hpos _. split; [|split].
  - unfold Inputs.dSFC_manual, Inputs.truediv.
    destruct (Z.eqb_spec flow_pre 0) as [E|_]; [lia|reflexivity].
  - intros -> ->. reflexivity.
  - intros df pres posts k p q Hd Hpre Hpost Hp Hq.
    exists (Pd.set df "ΔSFC"
              (Pd.NumCol (Pd.zip_with Inputs.delta_sfc_row pres posts))),
           (Pd.zip_with Inputs.delta_sfc_row pres posts).
    split; [|split].
    + unfold Fleet.with_delta_sfc. rewrite Hd, issubset_two.
      replace (Pd.has_column df "Fuel_Flow_Pre") with true
        by (symmetry; apply has_column_get; eexists; exact Hpre).
      replace (Pd.has_column df "Fuel_Flow_Post") with true
        by (symmetry; apply has_column_get; eexists; exact Hpost).
      cbn [negb andb]. rewrite Hpre, Hpost. reflexivity.
    + apply get_set_same.
    + apply (zip_with_nth Inputs.delta_sfc_row pres posts k p q Hp Hq).
Qed.

Lemma delta_sfc_from_fuel_flows_witness :
  0 < 1250 < 2 ^ 53
  /\ Inputs.dSFC_manual 1250 1230 = Some 1.6%float
  /\ exists df' cells,
       Fleet.with_delta_sfc
         [("Aircraft_ID"%string, Pd.StrCol ["PH-JSA"%string]);
          ("Fuel_Flow_Pre"%string, Pd.NumCol [1250%float]);
          ("Fuel_Flow_Post"%string, Pd.NumCol [1230%float])] = Some df'
       /\ Pd.get df' "ΔSFC" = Some (Pd.NumCol cells)
       /\ nth_error cells 0 = Some 1.6%float.
Proof.
  split; [lia|].
  destruct (delta_sfc_from_fuel_flows 1250 1230) as (_ & H2 & H3);
    [lia|lia|].
  split; [exact (H2 eq_refl eq_refl)|].
  exact (H3 [("Aircraft_ID"%string, Pd.StrCol ["PH-JSA"%string]);
             ("Fuel_Flow_Pre"%string, Pd.NumCol [1250%float]);
             ("Fuel_Flow_Post"%string, Pd.NumCol [1230%float])]
            [1250%float] [1230%float] O 1250%float 1230%float
            eq_refl eq_refl eq_refl eq_refl eq_refl).
Defined.

(** C6. The EGT heuristic (line 212) returns [0.08 * (egt_before -
    egt_after)] as computed on doubles, and that value is the model's ΔSFC
    in simulation mode; for 630 and 620 it is the double 0.8; when the
    temperature after the wash is the higher one the result is negative
    and is kept as it is. *)
Theorem delta_sfc_from_egt (s : Inputs.sidebar) :
  Inputs.qar_mode s = false ->
  let egt_before := Inputs.EGT_before s in
  let egt_after := Inputs.EGT_after s in
  let expected := (0.08 * Py.float_of_int (egt_before - egt_after))%float in
  option_map Inputs.dSFC (Inputs.mode_inputs s) = Some expected
  /\ (egt_before = 630 -> egt_after = 620 -> expected = 0.8%float)
  /\ (400 <= egt_before <= 800 -> 400 <= egt_after <= 800 ->
      egt_before < egt_after -> (expected <? 0)%float = true).
Proof.
  intros Hmode. cbv zeta. split; [|split].
  - unfold Inputs.mode_inputs. rewrite Hmode. reflexivity.
  - intros -> ->. reflexivity.
  - intros Hb Ha Hlt.
    pose proof egt_regressions_negative as Hall.
    rewrite forallb_forall in Hall.
    replace (Inputs.EGT_before s - Inputs.EGT_after s)
      with (- (Inputs.EGT_after s - Inputs.EGT_before s)) by lia.
    apply Hall. unfold egt_regressions. apply in_map_iff.
    exists (Z.to_nat (Inputs.EGT_after s - Inputs.EGT_before s)).
    split; [lia|]. apply in_seq. lia.
Qed.

Lemma delta_sfc_from_egt_witness :
  Inputs.dSFC_simulation 620 630 = (-0.8)%float
  /\ (0.08 * Py.float_of_int (620 - 630) <? 0)%float = true.
Proof.
  split; [reflexivity|].
  refine (proj2 (proj2
            (delta_sfc_from_egt
               (Inputs.Sidebar false None 620 630 2.5 600 0.8 4000
                  0.012 92 1250 1230 120) eq_refl)) _ _ _);
    simpl; lia.
Defined.

(** C7. With a degradation rate at least zero (whatever the recovery
    factor, which the no-wash loop does not read), the cumulative burn of
    the no-wash simulation never decreases from one flight to the next:
    the burn after [N + 1] flights is the burn after [N] flights plus the
    increment [1 + deg / 100], and that increment is at least zero because
    [deg] is. *)
Theorem no_wash_burn_non_decreasing
    (degradation_rate recovery_factor : float) (N : Z) :
  (0 <=? degradation_rate)%float = true ->
  0 <= N ->
  let before := Dashboard.baseline_loop N degradation_rate in
  let after := Dashboard.baseline_loop (N + 1) degradation_rate in
  (Dashboard.fuel_burn before <=? Dashboard.fuel_burn after)%float = true
  /\ Dashboard.fuel_burn after
     = (Dashboard.fuel_burn before
        + (1 + Dashboard.deg before / 100))%float
  /\ (0 <=? Dashboard.deg before)%float = true
  /\ (0 <=? 1 + Dashboard.deg before / 100)%float = true
  /\ Dashboard.fuel_burn before
     = Spec.cumulative_burn degradation_rate recovery_factor None N.
Proof.
  intros Hrate HN. cbv zeta.
  rewrite !no_wash_after_loop.
  replace (Z.to_nat (N + 1)) with (S (Z.to_nat N)) by lia.
  destruct (no_wash_step degradation_rate Hrate (Z.to_nat N))
    as (Hmono & Hdeg & Hinc).
  split; [exact Hmono|]. split.
  - rewrite no_wash_after_S. reflexivity.
  - split; [exact Hdeg|]. split; [exact Hinc|].
    rewrite <- no_wash_after_loop. apply baseline_loop_spec.
Qed.

Lemma no_wash_burn_non_decreasing_witness :
  (0 <=? 0.012)%float = true /\ 0 <= 599
  /\ (Dashboard.fuel_burn (Dashboard.baseline_loop 599 0.012)
      <=? Dashboard.fuel_burn (Dashboard.baseline_loop (599 + 1) 0.012))%float
     = true.
Proof.
  split; [reflexivity|]. split; [lia|].
  refine (proj1 (no_wash_burn_non_decreasing 0.012 0.92 599 _ _));
    [reflexivity|lia].
Defined.

(** C8. A fleet table without the Aircraft_ID or the Month column, or with
    neither a ΔSFC column nor both fuel-flow columns, stops the page right
    after the header with the matching error message: whatever the date
    parser and the analysis (aggregation, heatmap, trend lines, metrics,
    alert, download) would do, nothing of them is run or shown. *)
Theorem fleet_page_fails_early
    (to_datetime : Pd.Column -> option (list Z))
    (analyse : Pd.DataFrame -> list Z -> option (list Fleet.element))
    (df : Pd.DataFrame) :
  Fleet.identified df = false \/ Fleet.has_delta_source df = false ->
  exists msg,
    Fleet.page to_datetime analyse (Fleet.Loaded df)
    = Fleet.Stopped [Fleet.Header; Fleet.Error msg]
    /\ (msg = Fleet.msg_required \/ msg = Fleet.msg_dsfc)
    /\ (Fleet.identified df = false -> msg = Fleet.msg_required)
    /\ (Fleet.identified df = true -> msg = Fleet.msg_dsfc).
Proof.
  intros H. unfold Fleet.page. rewrite issubset_two.
  fold (Fleet.identified df).
  destruct (Fleet.identified df) eqn:Hid; simpl.
  - destruct H as [H|H]; [discriminate|].
    rewrite (with_delta_sfc_idle df H).
    unfold Fleet.has_delta_source in H.
    apply orb_false_iff in H as [H _]. rewrite H. simpl.
    exists Fleet.msg_dsfc. repeat split; auto. discriminate.
  - exists Fleet.msg_required. repeat split; auto. discriminate.
Qed.

Lemma fleet_page_fails_early_witness :
  let df := [("Aircraft_ID"%string, Pd.StrCol ["PH-JSA"%string]);
             ("Month"%string, Pd.StrCol ["Jan 25"%string])] in
  Fleet.has_delta_source df = false
  /\ Fleet.page (fun _ => None) (fun _ _ => None) (Fleet.Loaded df)
     = Fleet.Stopped [Fleet.Header; Fleet.Error Fleet.msg_dsfc].
Proof.
  cbv zeta. split; [reflexivity|].
  destruct (fleet_page_fails_early (fun _ => None) (fun _ _ => None)
              [("Aircraft_ID"%string, Pd.StrCol ["PH-JSA"%string]);
               ("Month"%string, Pd.StrCol ["Jan 25"%string])]
              (or_intror eq_refl)) as [msg [Hpage [_ [_ Hmsg]]]].
  rewrite Hpage, (Hmsg eq_refl). reflexivity.
Defined.

(** C9. For every input the sidebar admits and every interval above the
    flight count, the evaluation of lines 284-295 gives no wash and no
    wash cost, the baseline's fuel cost bit for bit (the recovery never
    fires), and the double [+0.0] as net saving: the costs being finite,
    [baseline_cost - (baseline_cost + 0)] cancels exactly. *)
Theorem idle_interval_net_saving_zero
    (s : Inputs.sidebar) (m : Inputs.model) (iv : Z) :
  Inputs.widget_bounds s ->
  Inputs.mode_inputs s = Some m ->
  Inputs.flights_per_year s < iv ->
  let N := Inputs.flights_per_year s in
  let ft := Inputs.flight_time s in
  let fp := Inputs.fuel_price s in
  let wc := Inputs.wash_cost s in
  let rate := Inputs.degradation_rate m in
  let rf := Inputs.recovery_factor m in
  Dashboard.n_washes_of N iv = 0
  /\ Dashboard.total_wash_cost_of N wc iv = 0
  /\ Dashboard.fuel_cost_of N ft fp rate rf iv
     = Dashboard.baseline_cost N ft fp rate
  /\ Dashboard.net_of N ft fp wc rate rf iv = 0%float.
Proof.
  intros Hw Hm Hiv. cbv zeta.
  destruct (sidebar_model_bounds s m Hw Hm) as (HN & Ht & Hp & Hr & _).
  assert (0 <= Inputs.flights_per_year s) as HN0
    by (destruct Hw as (_ & _ & _ & _ & H & _); lia).
  assert (Dashboard.n_washes_of (Inputs.flights_per_year s) iv = 0) as En
    by (apply Z.div_small; lia).
  assert (Dashboard.total_wash_cost_of (Inputs.flights_per_year s)
            (Inputs.wash_cost s) iv = 0) as Ew
    by (unfold Dashboard.total_wash_cost_of; rewrite En; reflexivity).
  assert (Dashboard.fuel_cost_of (Inputs.flights_per_year s)
            (Inputs.flight_time s) (Inputs.fuel_price s)
            (Inputs.degradation_rate m) (Inputs.recovery_factor m) iv
          = Dashboard.baseline_cost (Inputs.flights_per_year s)
              (Inputs.flight_time s) (Inputs.fuel_price s)
              (Inputs.degradation_rate m)) as Ef.
  { unfold Dashboard.fuel_cost_of, Dashboard.fuel_kg_of,
      Dashboard.baseline_cost, Dashboard.baseline_fuel_kg.
    rewrite wash_loop_idle by exact Hiv. reflexivity. }
  repeat split; try assumption.
  unfold Dashboard.net_of. rewrite Ef, Ew.
  change (Py.float_of_int 0) with 0%float.
  pose proof (baseline_cost_finite (Inputs.flights_per_year s)
                (Inputs.flight_time s) (Inputs.fuel_price s)
                (Inputs.degradation_rate m) HN Ht Hp Hr) as Hb.
  rewrite (add_zero_r _ Hb). apply sub_self, Hb.
Qed.

Lemma idle_interval_net_saving_zero_witness :
  let s := Inputs.Sidebar false None 630 620 2.5 100 0.8 4000
             0.012 92 1250 1230 120 in
  Inputs.flights_per_year s < 120
  /\ Dashboard.net_of 100 2.5 0.8 4000 Dashboard.deg_rate_default
       Dashboard.recovery_default 120 = 0%float.
Proof.
  cbv zeta. split; [simpl; lia|].
  refine (proj2 (proj2 (proj2
    (idle_interval_net_saving_zero
       (Inputs.Sidebar false None 630 620 2.5 100 0.8 4000
          0.012 92 1250 1230 120)
       (Inputs.Model Dashboard.deg_rate_default Dashboard.recovery_default
          (Inputs.dSFC_simulation 630 620) None) 120 _ eq_refl _)))).
  - unfold Inputs.widget_bounds. simpl.
    repeat split; try lia; reflexivity.
  - simpl. lia.
Defined.

(** C10, as stated, fails: a table with a Fuel_Flow_Pre column and no
    Fuel_Flow_Post column takes the fallback, and the pre-wash mean is the
    column's, not 1250. *)
Lemma qar_fallback_defaults_counterexample :
  let df := [("Fuel_Flow_Pre"%string, Pd.NumCol [1000%float])] in
  Pd.issubset ["Fuel_Flow_Pre"%string; "Fuel_Flow_Post"%string] df = false
  /\ Inputs.dSFC_qar df
     = Some (1.6%float, Inputs.Float 1000, Inputs.Float 1230)
  /\ Inputs.dSFC_qar df
     <> Some (1.6%float, Inputs.Float 1250, Inputs.Float 1230).
Proof.
  cbv zeta. split; [reflexivity|]. split; [reflexivity|].
  intros H. apply (f_equal (fun r =>
    match r with
    | Some (_, Inputs.Float x, _) => Prim2SF x
    | _ => S754_nan
    end)) in H.
  vm_compute in H. discriminate.
Qed.

(** A fuel-flow column of text makes [Series.mean()] raise: the amended
    statement is about numeric columns. *)
Example qar_fallback_text_column_raises :
  Inputs.run
    (Inputs.Sidebar true
       (Some [("Fuel_Flow_Pre"%string, Pd.StrCol ["fault"%string])])
       630 620 2.5 600 0.8 4000 0.012 92 1250 1230 120)
  = None.
Proof. reflexivity. Qed.

(** C10, amended. In QAR mode, for an uploaded table lacking at least one
    of the two fuel-flow columns, and whose fuel-flow column, if it has
    one, is numeric, the script does not fail: ΔSFC is the constant 1.6;
    the mean flow of a column that is absent is its default (1250 before
    the wash, 1230 after) and that of a column that is present is the
    mean of its own cells, as pandas computes it; the KPI, the sweep, the
    optimum and the trajectories are then computed (the slider keeps the
    largest interval at 20 or more). *)
Theorem qar_fallback (s : Inputs.sidebar) (df : Pd.DataFrame) :
  Inputs.qar_mode s = true ->
  Inputs.qar_df s = Some df ->
  Pd.issubset ["Fuel_Flow_Pre"%string; "Fuel_Flow_Post"%string] df = false ->
  (forall name c,
      In name ["Fuel_Flow_Pre"%string; "Fuel_Flow_Post"%string] ->
      Pd.get df name = Some c -> exists cells, c = Pd.NumCol cells) ->
  20 <= Inputs.max_interval s ->
  exists r pre post,
    Inputs.run s = Some r
    /\ Inputs.dSFC (Inputs.r_model r) = 1.6%float
    /\ Inputs.fuel_flows (Inputs.r_model r)
       = Some (Inputs.Float pre, Inputs.Float post)
    /\ (forall cells,
           Pd.get df "Fuel_Flow_Pre"%string = Some (Pd.NumCol cells) ->
           pre = Pd.mean_cells cells)
    /\ (Pd.get df "Fuel_Flow_Pre"%string = None -> pre = 1250%float)
    /\ (forall cells,
           Pd.get df "Fuel_Flow_Post"%string = Some (Pd.NumCol cells) ->
           post = Pd.mean_cells cells)
    /\ (Pd.get df "Fuel_Flow_Post"%string = None -> post = 1230%float)
    /\ Inputs.r_kpi r = Inputs.core_calcs s (Inputs.r_model r)
    /\ Inputs.r_intervals r = Dashboard.intervals_of (Inputs.max_interval s)
    /\ Inputs.r_table r
       = Dashboard.sweep (Inputs.flights_per_year s) (Inputs.flight_time s)
           (Inputs.fuel_price s) (Inputs.wash_cost s)
           (Inputs.degradation_rate (Inputs.r_model r))
           (Inputs.recovery_factor (Inputs.r_model r))
           (Inputs.r_intervals r)
    /\ In (Dashboard.opt_interval (Inputs.r_optimum r))
          (Inputs.r_intervals r)
    /\ Inputs.r_trajectories r
       = Dashboard.trajectories (Inputs.flights_per_year s)
           (Inputs.degradation_rate (Inputs.r_model r))
           (Inputs.recovery_factor (Inputs.r_model r))
           (Dashboard.opt_interval (Inputs.r_optimum r)).
Proof.
  intros Hmode Hdf Hsub Hnum Hmax.
  assert (exists pre post,
             Inputs.dSFC_qar df
             = Some (1.6%float, Inputs.Float pre, Inputs.Float post)
             /\ (forall cells,
                    Pd.get df "Fuel_Flow_Pre"%string
                    = Some (Pd.NumCol cells) ->
                    pre = Pd.mean_cells cells)
             /\ (Pd.get df "Fuel_Flow_Pre"%string = None -> pre = 1250%float)
             /\ (forall cells,
                    Pd.get df "Fuel_Flow_Post"%string
                    = Some (Pd.NumCol cells) ->
                    post = Pd.mean_cells cells)
             /\ (Pd.get df "Fuel_Flow_Post"%string = None
                 -> post = 1230%float))
    as (pre & post & Hq & Hpre & Hpre0 & Hpost & Hpost0).
  { rewrite (dSFC_qar_fallback df Hsub). unfold flow_mean.
    pose proof (Hnum "Fuel_Flow_Pre"%string) as Npre.
    pose proof (Hnum "Fuel_Flow_Post"%string) as Npost.
    destruct (Pd.get df "Fuel_Flow_Pre"%string) as [cpre|].
    - destruct (Npre cpre (or_introl eq_refl) eq_refl) as [pres ->].
      destruct (Pd.get df "Fuel_Flow_Post"%string) as [cpost|].
      + destruct (Npost cpost (or_intror (or_introl eq_refl)) eq_refl)
          as [posts ->].
        simpl. eexists; eexists; split; [reflexivity|].
        repeat split; try discriminate; intros cells E; congruence.
      + simpl. eexists; eexists; split; [reflexivity|].
        repeat split; try discriminate; try reflexivity;
          intros cells E; congruence.
    - destruct (Pd.get df "Fuel_Flow_Post"%string) as [cpost|].
      + destruct (Npost cpost (or_intror (or_introl eq_refl)) eq_refl)
          as [posts ->].
        simpl. eexists; eexists; split; [reflexivity|].
        repeat split; try discriminate; try reflexivity;
          intros cells E; congruence.
      + simpl. eexists; eexists; split; [reflexivity|].
        repeat split; try discriminate; reflexivity. }
  unfold Inputs.run, Inputs.mode_inputs. rewrite Hmode, Hdf, Hq.
  destruct (optimize_some (Inputs.flights_per_year s) (Inputs.flight_time s)
              (Inputs.fuel_price s) (Inputs.wash_cost s)
              (Inputs.degradation_rate_input s)
              (Py.float_of_int (Inputs.recovery_slider s) / 100)%float
              (Dashboard.intervals_of (Inputs.max_interval s))
              (intervals_nonempty _ Hmax))
    as (o & Ho & _ & Hiv & _).
  cbn [Inputs.degradation_rate Inputs.recovery_factor].
  rewrite Ho.
  eexists; exists pre, post. split; [reflexivity|].
  cbn [Inputs.r_model Inputs.dSFC Inputs.fuel_flows Inputs.r_kpi
       Inputs.r_intervals Inputs.r_optimum Inputs.r_table
       Inputs.r_trajectories Inputs.degradation_rate
       Inputs.recovery_factor].
  repeat split; try assumption.
  eapply nth_error_In, Hiv.
Qed.

Lemma qar_fallback_witness :
  let df := [("Fuel_Flow_Pre"%string, Pd.NumCol [1000%float])] in
  let s := Inputs.Sidebar true (Some df) 630 620 2.5 600 0.8 4000
             0.012 92 1250 1230 120 in
  20 <= Inputs.max_interval s
  /\ exists r,
       Inputs.run s = Some r
       /\ Inputs.dSFC (Inputs.r_model r) = 1.6%float
       /\ Inputs.fuel_flows (Inputs.r_model r)
          = Some (Inputs.Float 1000, Inputs.Float 1230).
Proof.
  cbv zeta. split; [simpl; lia|].
  destruct (qar_fallback
              (Inputs.Sidebar true
                 (Some [("Fuel_Flow_Pre"%string, Pd.NumCol [1000%float])])
                 630 620 2.5 600 0.8 4000 0.012 92 1250 1230 120)
              [("Fuel_Flow_Pre"%string, Pd.NumCol [1000%float])]
              eq_refl eq_refl eq_refl)
    as (r & pre & post & Hrun & Hd & Hf & Hpre & _ & _ & Hpost & _).
  - intros name c [<-|[<-|[]]] E; simpl in E; [|discriminate].
    inversion E. eexists. reflexivity.
  - simpl. lia.
  - exists r. split; [exact Hrun|]. split; [exact Hd|].
    rewrite Hf, (Hpre [1000%float] eq_refl), (Hpost eq_refl). reflexivity.
Defined.

(** * Part VI: further properties of the two pages *)

(** ** The candidate intervals *)

Lemma intervals_count (m : Z) :
  (m + 1 - 20 + 10 - 1) / 10 = (m - 10) / 10.
Proof. f_equal. lia. Qed.

Lemma intervals_nth (m : Z) (k : nat) :
  nth_error (Dashboard.intervals_of m) k
  = if 20 + 10 * Z.of_nat k <=? m then Some (20 + 10 * Z.of_nat k) else None.
Proof.
  unfold Dashboard.intervals_of, Py.range_step.
  rewrite intervals_count, nth_error_map.
  pose proof (Z.div_mod (m - 10) 10 ltac:(lia)) as Hdm.
  pose proof (Z.mod_pos_bound (m - 10) 10 ltac:(lia)) as Hmod.
  destruct (Z.leb_spec (20 + 10 * Z.of_nat k) m) as [L|G].
  - assert (k < Z.to_nat ((m - 10) / 10))%nat as Hk by lia.
    rewrite (nth_error_nth' _ O) by (rewrite length_seq; exact Hk).
    rewrite seq_nth by exact Hk. reflexivity.
  - assert (Z.to_nat ((m - 10) / 10) <= k)%nat as Hk by lia.
    replace (nth_error (seq 0 (Z.to_nat ((m - 10) / 10))) k) with (@None nat);
      [reflexivity|].
    symmetry. apply nth_error_None. rewrite length_seq. exact Hk.
Qed.

(** X1. The candidate intervals are exactly the multiples of ten from 20 up to
    the maximal interval (none when it is below 20). *)
Theorem intervals_membership (m iv : Z) :
  In iv (Dashboard.intervals_of m) <-> 20 <= iv <= m /\ iv mod 10 = 0.
Proof.
  split.
  - intros Hin. apply In_nth_error in Hin as [k Hk].
    rewrite intervals_nth in Hk.
    destruct (Z.leb_spec (20 + 10 * Z.of_nat k) m) as [L|G]; [|discriminate].
    assert (iv = 20 + 10 * Z.of_nat k) as -> by congruence. split; [lia|].
    replace (20 + 10 * Z.of_nat k) with ((2 + Z.of_nat k) * 10) by lia.
    apply Z.mod_mul. lia.
  - intros [Hr Hm].
    pose proof (Z.div_mod iv 10 ltac:(lia)) as Hdm. rewrite Hm in Hdm.
    apply (nth_error_In _ (Z.to_nat (iv / 10 - 2))).
    rewrite intervals_nth.
    replace (20 + 10 * Z.of_nat (Z.to_nat (iv / 10 - 2))) with iv by lia.
    destruct (Z.leb_spec iv m); [reflexivity|lia].
Qed.

(** X2. The candidate at position [k] of the sweep is [20 + 10 k], as long as
    that is at most the maximal interval, and there are
    [max(0, (max_interval - 10) // 10)] candidates: they come in
    increasing order, without repetition. *)
Theorem intervals_by_index (m : Z) (k : nat) :
  nth_error (Dashboard.intervals_of m) k
  = (if 20 + 10 * Z.of_nat k <=? m then Some (20 + 10 * Z.of_nat k)
     else None)
  /\ Z.of_nat (List.length (Dashboard.intervals_of m))
     = Z.max 0 ((m - 10) / 10).
Proof.
  split; [apply intervals_nth|].
  unfold Dashboard.intervals_of, Py.range_step.
  rewrite intervals_count, length_map, length_seq. lia.
Qed.

(** ** The degradation with which a flight starts *)

Lemma deg_entering_state (rate rf : float) (interval : option Z) (k : nat) :
  fst (Spec.state_after rate rf interval k)
  = Spec.deg_entering rate rf interval k.
Proof.
  induction k as [|k IH]; [reflexivity|]. simpl.
  destruct (Spec.state_after rate rf interval k) as [d b]. simpl in *.
  rewrite IH. destruct (Spec.wash_due interval (Z.of_nat k)); reflexivity.
Qed.

Lemma deg_entering_wash_after (rate rf : float) (iv : Z) (k : nat) :
  Spec.deg_entering rate rf (Some iv) k = Dashboard.deg (wash_after rate rf iv k).
Proof.
  unfold wash_after. rewrite wash_prefix, <- deg_entering_state.
  reflexivity.
Qed.

(** ** Washes applied by the loop and washes charged *)

Section WashCount.

Import Dashboard.

Lemma wash_flights_S (k : nat) (iv : Z) :
  wash_flights (Z.of_nat (S k)) iv
  = wash_flights (Z.of_nat k) iv
    ++ (if (Z.of_nat k + 1) mod iv =? 0 then [Z.of_nat k] else []).
Proof.
  unfold wash_flights, Py.range. rewrite !Nat2Z.id.
  rewrite range_prefix, filter_app. reflexivity.
Qed.

Lemma wash_flights_count (k : nat) (iv : Z) :
  0 < iv ->
  Z.of_nat (List.length (wash_flights (Z.of_nat k) iv)) = Z.of_nat k / iv.
Proof.
  intros Hiv. induction k as [|k IH].
  - reflexivity.
  - rewrite wash_flights_S, length_app, Nat2Z.inj_add, IH.
    replace (Z.of_nat (S k)) with (Z.of_nat k + 1) by lia.
    pose proof (Z.div_mod (Z.of_nat k) iv ltac:(lia)) as H1.
    pose proof (Z.mod_pos_bound (Z.of_nat k) iv Hiv) as B1.
    pose proof (Z.div_mod (Z.of_nat k + 1) iv ltac:(lia)) as H2.
    pose proof (Z.mod_pos_bound (Z.of_nat k + 1) iv Hiv) as B2.
    destruct (Z.eqb_spec ((Z.of_nat k + 1) mod iv) 0) as [E|NE]; simpl.
    + nia.
    + nia.
Qed.

Lemma mem_filter (p : Z -> bool) (l : list Z) (i : Z) :
  existsb (Z.eqb i) (filter p l) = p i && existsb (Z.eqb i) l.
Proof.
  induction l as [|x l IH]; simpl; [now rewrite andb_false_r|].
  destruct (Z.eqb_spec i x) as [->|NE].
  - destruct (p x) eqn:Hp; simpl.
    + now rewrite Z.eqb_refl.
    + rewrite IH. reflexivity.
  - destruct (p x); simpl; [apply Z.eqb_neq in NE; rewrite NE|]; exact IH.
Qed.

Lemma mem_range (N i : Z) :
  In i (Py.range N) -> existsb (Z.eqb i) (Py.range N) = true.
Proof.
  intros H. apply existsb_exists. exists i. split; [exact H|apply Z.eqb_refl].
Qed.

(** The loop for interval [iv] is the replay whose washes [L] are, among
    the flights flown, those with [(i + 1) % iv == 0]. *)
Lemma wash_loop_replay (rate rf : float) (iv : Z) (L flights : list Z) :
  (forall i, In i flights ->
     existsb (Z.eqb i) L = ((i + 1) mod iv =? 0)) ->
  fold_left (wash_body rate rf iv) flights sim0 = replay rate rf L flights.
Proof.
  intros H. unfold replay. apply fold_left_agree. intros s i Hi.
  unfold wash_body, baseline_body. rewrite (H i Hi).
  destruct ((i + 1) mod iv =? 0); reflexivity.
Qed.

Lemma wash_flights_NoDup (N iv : Z) : NoDup (wash_flights N iv).
Proof.
  unfold wash_flights, Py.range. apply NoDup_filter.
  pose proof (seq_NoDup (Z.to_nat N) 0) as H.
  induction H as [|x l Hx Hl IH]; simpl; constructor; [|exact IH].
  intros Hin. apply in_map_iff in Hin as [y [E Hy]].
  apply Nat2Z.inj in E. subst y. exact (Hx Hy).
Qed.

(** With [h = N // 2] at least 2, the flights of the first [k <= N] that
    are followed by a wash at interval [h]. *)
Lemma wash_flights_half (h : Z) (k : nat) :
  2 <= h -> Z.of_nat k <= 2 * h + 1 ->
  wash_flights (Z.of_nat k) h
  = ((if h <=? Z.of_nat k then [h - 1] else [])
     ++ (if 2 * h <=? Z.of_nat k then [2 * h - 1] else []))%list.
Proof.
  intros Hh. induction k as [|k IH]; intros Hk.
  - destruct (Z.leb_spec h (Z.of_nat 0)); [lia|].
    destruct (Z.leb_spec (2 * h) (Z.of_nat 0)); [lia|]. reflexivity.
  - rewrite wash_flights_S, IH by lia.
    replace (Z.of_nat (S k)) with (Z.of_nat k + 1) by lia.
    assert (((Z.of_nat k + 1) mod h =? 0)
            = ((Z.of_nat k + 1 =? h) || (Z.of_nat k + 1 =? 2 * h))) as ->.
    { destruct (Z.eqb_spec (Z.of_nat k + 1) h) as [E1|N1].
      - rewrite E1, Z.mod_same by lia. reflexivity.
      - destruct (Z.eqb_spec (Z.of_nat k + 1) (2 * h)) as [E2|N2].
        + rewrite E2, Z.mod_mul by lia. reflexivity.
        + apply Z.eqb_neq. intros E.
          pose proof (Z.div_mod (Z.of_nat k + 1) h ltac:(lia)) as Hdm.
          rewrite E in Hdm.
          assert (0 <= (Z.of_nat k + 1) / h <= 2) as Hq.
          { split; [apply Z.div_pos; lia|].
            apply Z.lt_succ_r, Z.div_lt_upper_bound; lia. }
          assert ((Z.of_nat k + 1) / h = 0 \/ (Z.of_nat k + 1) / h = 1
                  \/ (Z.of_nat k + 1) / h = 2) as [Q|[Q|Q]] by lia;
            rewrite Q in Hdm; lia. }
    destruct (Z.eqb_spec (Z.of_nat k + 1) h) as [E1|N1];
      destruct (Z.eqb_spec (Z.of_nat k + 1) (2 * h)) as [E2|N2];
      destruct (Z.leb_spec h (Z.of_nat k));
      destruct (Z.leb_spec (2 * h) (Z.of_nat k));
      destruct (Z.leb_spec h (Z.of_nat k + 1));
      destruct (Z.leb_spec (2 * h) (Z.of_nat k + 1));
      try lia; cbn [orb app]; rewrite ?app_nil_r;
      try reflexivity; repeat f_equal; lia.
Qed.

End WashCount.

(** X3. For a positive interval, the loop of lines 284-290 is the simulation
    that washes after the flights [i] of [range(flights_per_year)] with
    [(i + 1) % iv == 0] and after no other; these flights are distinct,
    and their number is [flights_per_year // iv], the number of washes
    the sweep charges. *)
Theorem washes_applied_equal_washes_charged
    (N iv : Z) (rate rf : float) :
  0 <= N -> 0 < iv ->
  Dashboard.wash_loop N rate rf iv
  = replay rate rf (wash_flights N iv) (Py.range N)
  /\ NoDup (wash_flights N iv)
  /\ Z.of_nat (List.length (wash_flights N iv)) = Dashboard.n_washes_of N iv.
Proof.
  intros HN Hiv. split; [|split].
  - unfold Dashboard.wash_loop. apply wash_loop_replay. intros i Hi.
    unfold wash_flights. rewrite mem_filter, (mem_range N i Hi).
    apply andb_true_r.
  - apply wash_flights_NoDup.
  - unfold Dashboard.n_washes_of.
    rewrite <- (Z2Nat.id N HN) at 1 2. now apply wash_flights_count.
Qed.

Lemma washes_applied_equal_washes_charged_witness :
  Dashboard.wash_loop 600 0.012 0.92 90
  = replay 0.012 0.92 [89; 179; 269; 359; 449; 539] (Py.range 600)
  /\ Dashboard.n_washes_of 600 90 = 6.
Proof.
  destruct (washes_applied_equal_washes_charged 600 90 0.012 0.92)
    as (H1 & _ & H3); [lia|lia|].
  split; [exact H1|]. rewrite <- H3. reflexivity.
Defined.

(** X4. From four flights a year on, the trajectory labelled 2 washes/year
    washes twice: its interval is [h = flights_per_year // 2], the flights
    followed by a wash are the [h]-th and the [2h]-th of the year
    (indices [h - 1] and [2h - 1]), and the efficiency recorded for
    flight [c] is 100 less the degradation of the simulation that washes
    after these two flights only. *)
Theorem two_washes_per_year
    (N : Z) (rate rf : float) (opt_iv : Z) (c : nat) :
  4 <= N -> (c < Z.to_nat N)%nat ->
  let h := N / 2 in
  Dashboard.interval_two N = h
  /\ wash_flights N h = [h - 1; 2 * h - 1]
  /\ nth_error (Dashboard.eff_two (Dashboard.trajectories N rate rf opt_iv)) c
     = Some (100 - Dashboard.deg
                     (replay rate rf [h - 1; 2 * h - 1]%Z
                        (Py.range (Z.of_nat c))))%float.
Proof.
  intros HN Hc h. subst h.
  pose proof (Z.div_mod N 2 ltac:(lia)) as Hdm.
  pose proof (Z.mod_pos_bound N 2 ltac:(lia)) as Hmod.
  assert (Dashboard.interval_two N = N / 2) as E2.
  { unfold Dashboard.interval_two, Py.max.
    destruct (Z.ltb_spec (N / 2) 1); [lia|reflexivity]. }
  assert (wash_flights N (N / 2) = [N / 2 - 1; 2 * (N / 2) - 1]) as EL.
  { rewrite <- (Z2Nat.id N) at 1 by lia.
    rewrite wash_flights_half by lia. rewrite Z2Nat.id by lia.
    destruct (Z.leb_spec (N / 2) N); [|lia].
    destruct (Z.leb_spec (2 * (N / 2)) N); [|lia]. reflexivity. }
  split; [exact E2|]. split; [exact EL|].
  destruct (trajectories_lists N rate rf opt_iv) as (_ & -> & _).
  rewrite eff_entering_nth by exact Hc.
  unfold eff_entering. rewrite deg_entering_wash_after, E2.
  do 3 f_equal. unfold wash_after, Py.range. rewrite Nat2Z.id.
  apply wash_loop_replay. intros i Hi.
  rewrite <- EL. unfold wash_flights. rewrite mem_filter.
  replace (existsb (Z.eqb i) (Py.range N)) with true;
    [apply andb_true_r|].
  symmetry. apply existsb_exists. exists i. split; [|apply Z.eqb_refl].
  apply in_map_iff in Hi as [k [<- Hk]]. apply in_seq in Hk.
  unfold Py.range. apply in_map, in_seq. lia.
Qed.

Lemma two_washes_per_year_witness :
  wash_flights 600 300 = [299; 599]
  /\ nth_error (Dashboard.eff_two (Dashboard.trajectories 600 0.012 0.92 90))
       300
     = Some (100 - Dashboard.deg
                     (replay 0.012 0.92 [299; 599]%Z (Py.range 300)))%float.
Proof.
  destruct (two_washes_per_year 600 0.012 0.92 90 300) as (_ & H2 & H3);
    [lia|simpl; lia|].
  split; [exact H2|exact H3].
Defined.

(** ** The wash costs along the sweep *)

(** X5. Along the sweep the total wash cost never increases, and it is never
    negative, for a non-negative wash cost and flight count. *)
Theorem wash_costs_non_increasing
    (N : Z) (flight_time fuel_price : float) (wash_cost : Z)
    (rate rf : float) (max_interval : Z) (j k : nat) (a b : Z) :
  0 <= N < 2 ^ 52 -> 0 <= wash_cost < 2 ^ 52 -> (j <= k)%nat ->
  let t :=
    Dashboard.sweep N flight_time fuel_price wash_cost rate rf
      (Dashboard.intervals_of max_interval) in
  nth_error (Dashboard.wash_costs t) j = Some a ->
  nth_error (Dashboard.wash_costs t) k = Some b ->
  0 <= b <= a.
Proof.
  intros HN Hwc Hjk t Ha Hb. subst t.
  rewrite sweep_lists in Ha, Hb. cbn [Dashboard.wash_costs] in Ha, Hb.
  rewrite nth_error_map, intervals_nth in Ha, Hb.
  destruct (20 + 10 * Z.of_nat j <=? max_interval); [|discriminate].
  destruct (20 + 10 * Z.of_nat k <=? max_interval); [|discriminate].
  cbn [option_map] in Ha, Hb.
  unfold Dashboard.total_wash_cost_of, Dashboard.n_washes_of in Ha, Hb.
  assert (a = N / (20 + 10 * Z.of_nat j) * wash_cost) as -> by congruence.
  assert (b = N / (20 + 10 * Z.of_nat k) * wash_cost) as -> by congruence.
  assert (0 <= N / (20 + 10 * Z.of_nat k)) by (apply Z.div_pos; lia).
  assert (N / (20 + 10 * Z.of_nat k) <= N / (20 + 10 * Z.of_nat j))
    by (apply Z.div_le_compat_l; lia).
  split; nia.
Qed.

Lemma wash_costs_non_increasing_witness :
  let t :=
    Dashboard.sweep 600 2.5 0.8 4000 0.013 1 (Dashboard.intervals_of 120) in
  nth_error (Dashboard.wash_costs t) 0 = Some 120000
  /\ nth_error (Dashboard.wash_costs t) 10 = Some 20000
  /\ 0 <= 20000 <= 120000.
Proof.
  cbv zeta. split; [reflexivity|]. split; [reflexivity|].
  apply (wash_costs_non_increasing 600 2.5 0.8 4000 0.013 1 120 0 10);
    try reflexivity; try (simpl; lia).
Defined.

(** ** A wash after the last flight of the year *)

Section LastFlight.

Import Dashboard.
Local Open Scope float_scope.

Variable N : Z.
Variables flight_time fuel_price : float.
Variable wash_cost : Z.
Variables rate rf : float.

Lemma wash_after_last_burn :
  (0 < N)%Z ->
  fuel_burn (wash_loop N rate rf N) = fuel_burn (baseline_loop N rate).
Proof.
  intros HN. unfold wash_loop, baseline_loop, Py.range.
  destruct (Z.to_nat N) as [|k] eqn:Ek; [lia|].
  rewrite range_prefix, !fold_left_snoc.
  rewrite (fold_left_agree (wash_body rate rf N) (baseline_body rate)).
  - reflexivity.
  - intros s i Hi. apply in_map_iff in Hi as [n [<- Hn]]. apply in_seq in Hn.
    unfold wash_body, baseline_body.
    rewrite Z.mod_small by lia.
    destruct (Z.eqb_spec (Z.of_nat n + 1) 0); [lia|reflexivity].
Qed.

End LastFlight.

(** X6. A wash interval equal to the number of flights places its only wash
    after the last flight: the fuel cost is the baseline cost, bit for
    bit, while one wash is charged. *)
Theorem wash_after_last_flight_saves_nothing
    (N : Z) (flight_time fuel_price : float) (wash_cost : Z)
    (rate rf : float) :
  0 < N ->
  Dashboard.fuel_cost_of N flight_time fuel_price rate rf N
  = Dashboard.baseline_cost N flight_time fuel_price rate
  /\ Dashboard.n_washes_of N N = 1
  /\ Dashboard.total_wash_cost_of N wash_cost N = wash_cost.
Proof.
  intros HN.
  unfold Dashboard.fuel_cost_of, Dashboard.fuel_kg_of,
    Dashboard.baseline_cost, Dashboard.baseline_fuel_kg,
    Dashboard.total_wash_cost_of, Dashboard.n_washes_of.
  rewrite wash_after_last_burn by exact HN.
  rewrite Z.div_same by lia. repeat split. lia.
Qed.

Lemma wash_after_last_flight_saves_nothing_witness :
  Dashboard.fuel_cost_of 100 2.5 0.8 0.013 1 100
  = Dashboard.baseline_cost 100 2.5 0.8 0.013
  /\ Dashboard.n_washes_of 100 100 = 1
  /\ Dashboard.total_wash_cost_of 100 4000 100 = 4000.
Proof. apply wash_after_last_flight_saves_nothing. lia. Defined.

(** ** What a run that does not raise returns *)

Section RunShape.

Import Dashboard Inputs.

Lemma optimize_inv
    (N : Z) (ft fp : float) (wc : Z) (rate rf : float) (l : list Z)
    (o : optimum) :
  optimize N ft fp wc rate rf l = Some o ->
  Py.argmax (map (net_of N ft fp wc rate rf) l) = Some (opt_idx o)
  /\ nth_error l (opt_idx o) = Some (opt_interval o)
  /\ opt_net o = net_of N ft fp wc rate rf (opt_interval o)
  /\ opt_washes o = N / opt_interval o.
Proof.
  unfold optimize. rewrite sweep_lists. cbn [net_savings].
  destruct (Py.argmax (map (net_of N ft fp wc rate rf) l)) as [r|];
    [|discriminate].
  rewrite nth_error_map.
  destruct (nth_error l r) as [iv|] eqn:Hiv; [|discriminate].
  cbn [option_map]. intros H. inversion H. cbn. repeat split. exact Hiv.
Qed.

Lemma optimize_none
    (N : Z) (ft fp : float) (wc : Z) (rate rf : float) (l : list Z) :
  optimize N ft fp wc rate rf l = None <-> l = [].
Proof.
  split.
  - intros H. destruct l as [|iv l]; [reflexivity|].
    destruct (optimize_some N ft fp wc rate rf (iv :: l)) as (o & Ho & _);
      congruence.
  - intros ->. reflexivity.
Qed.

Lemma intervals_empty (m : Z) : intervals_of m = [] <-> m < 20.
Proof.
  split.
  - intros E. pose proof (intervals_nth m 0) as H. rewrite E in H.
    simpl in H. destruct (Z.leb_spec 20 m); [discriminate|lia].
  - intros H. destruct (intervals_of m) as [|iv l] eqn:E; [reflexivity|].
    pose proof (intervals_nth m 0) as H0. rewrite E in H0. simpl in H0.
    destruct (Z.leb_spec 20 m); [lia|discriminate].
Qed.

Lemma run_inv (s : sidebar) (r : report) :
  run s = Some r ->
  mode_inputs s = Some (r_model r)
  /\ r_kpi r = core_calcs s (r_model r)
  /\ r_intervals r = intervals_of (max_interval s)
  /\ r_table r
     = sweep (flights_per_year s) (flight_time s) (fuel_price s)
         (wash_cost s) (degradation_rate (r_model r))
         (recovery_factor (r_model r)) (r_intervals r)
  /\ optimize (flights_per_year s) (flight_time s) (fuel_price s)
       (wash_cost s) (degradation_rate (r_model r))
       (recovery_factor (r_model r)) (r_intervals r)
     = Some (r_optimum r)
  /\ r_trajectories r
     = trajectories (flights_per_year s) (degradation_rate (r_model r))
         (recovery_factor (r_model r)) (opt_interval (r_optimum r)).
Proof.
  unfold run. destruct (mode_inputs s) as [m|]; [|discriminate].
  destruct (optimize _ _ _ _ _ _ _) as [o|] eqn:Ho; [|discriminate].
  intros H. inversion H. cbn. repeat split. exact Ho.
Qed.

End RunShape.

(** X7. Within the widgets' bounds, the interval a run recommends is a
    candidate of the sweep (a multiple of ten between 20 and the maximal
    interval, the one at the selected index), the washes per year shown
    with it are [flights_per_year // opt_interval], and the wash cost and
    the net saving stored at the selected index are those of that
    interval. *)
Theorem recommended_interval_is_a_candidate
    (s : Inputs.sidebar) (r : Inputs.report) :
  Inputs.widget_bounds s ->
  Inputs.run s = Some r ->
  let o := Inputs.r_optimum r in
  let t := Inputs.r_table r in
  20 <= Dashboard.opt_interval o <= Inputs.max_interval s
  /\ Dashboard.opt_interval o mod 10 = 0
  /\ Dashboard.opt_interval o = 20 + 10 * Z.of_nat (Dashboard.opt_idx o)
  /\ Dashboard.opt_washes o
     = Inputs.flights_per_year s / Dashboard.opt_interval o
  /\ nth_error (Dashboard.wash_costs t) (Dashboard.opt_idx o)
     = Some (Dashboard.opt_washes o * Inputs.wash_cost s)
  /\ nth_error (Dashboard.net_savings t) (Dashboard.opt_idx o)
     = Some (Dashboard.opt_net o).
Proof.
  intros _ Hrun o t. subst o t.
  destruct (run_inv s r Hrun) as (_ & _ & Hiv & Ht & Ho & _).
  rewrite Ht, sweep_lists. cbn [Dashboard.wash_costs Dashboard.net_savings].
  apply optimize_inv in Ho as (_ & Hnth & Hnet & Hw).
  rewrite !nth_error_map, Hnth. cbn [option_map].
  rewrite Hiv in Hnth.
  rewrite intervals_nth in Hnth.
  destruct (Z.leb_spec
              (20 + 10 * Z.of_nat (Dashboard.opt_idx (Inputs.r_optimum r)))
              (Inputs.max_interval s)) as [Hle|_]; [|discriminate].
  assert (Dashboard.opt_interval (Inputs.r_optimum r)
          = 20 + 10 * Z.of_nat (Dashboard.opt_idx (Inputs.r_optimum r)))
    as Eiv by congruence.
  split; [lia|]. split.
  { rewrite Eiv.
    replace (20 + 10 * Z.of_nat (Dashboard.opt_idx (Inputs.r_optimum r)))
      with ((2 + Z.of_nat (Dashboard.opt_idx (Inputs.r_optimum r))) * 10)
      by lia.
    apply Z.mod_mul. lia. }
  split; [exact Eiv|].
  split; [exact Hw|]. split.
  - unfold Dashboard.total_wash_cost_of, Dashboard.n_washes_of.
    rewrite Hw. reflexivity.
  - rewrite Hnet. reflexivity.
Qed.

Lemma recommended_interval_is_a_candidate_witness :
  exists r,
    Inputs.run (Inputs.Sidebar false None 630 620 2.5 100 0.8 4000
                  0.012 92 1250 1230 40) = Some r
    /\ 20 <= Dashboard.opt_interval (Inputs.r_optimum r) <= 40.
Proof.
  eexists. split; [vm_compute; reflexivity|].
  eapply (recommended_interval_is_a_candidate
           (Inputs.Sidebar false None 630 620 2.5 100 0.8 4000
              0.012 92 1250 1230 40)).
  - unfold Inputs.widget_bounds. simpl. repeat split; try lia; reflexivity.
  - vm_compute. reflexivity.
Defined.

(** ** The uploaded table in QAR mode *)

(** ** QAR mode with an uploaded table *)

Section QarUpload.

Import Inputs.
Local Open Scope string_scope.

Lemma issubset_flows (df : Pd.DataFrame) :
  Pd.issubset ["Fuel_Flow_Pre"; "Fuel_Flow_Post"] df
  = match Pd.get df "Fuel_Flow_Pre", Pd.get df "Fuel_Flow_Post" with
    | Some _, Some _ => true
    | _, _ => false
    end.
Proof.
  rewrite issubset_two.
  pose proof (get_none df "Fuel_Flow_Pre") as H1.
  pose proof (get_none df "Fuel_Flow_Post") as H2.
  destruct (Pd.get df "Fuel_Flow_Pre") as [c1|],
           (Pd.get df "Fuel_Flow_Post") as [c2|];
    destruct (Pd.has_column df "Fuel_Flow_Pre"),
             (Pd.has_column df "Fuel_Flow_Post");
    try reflexivity; exfalso;
    try (destruct H1 as [H1 _]; specialize (H1 eq_refl); discriminate);
    try (destruct H2 as [H2 _]; specialize (H2 eq_refl); discriminate);
    try (destruct H1 as [_ H1]; specialize (H1 eq_refl); discriminate);
    try (destruct H2 as [_ H2]; specialize (H2 eq_refl); discriminate).
Qed.

Lemma dSFC_qar_both (df : Pd.DataFrame) (pre post : list float) :
  Pd.get df "Fuel_Flow_Pre" = Some (Pd.NumCol pre) ->
  Pd.get df "Fuel_Flow_Post" = Some (Pd.NumCol post) ->
  dSFC_qar df
  = Some (Pd.mean_cells (Pd.zip_with delta_sfc_row pre post),
          Float (Pd.mean_cells pre), Float (Pd.mean_cells post)).
Proof.
  intros Hpre Hpost. unfold dSFC_qar.
  rewrite issubset_flows, Hpre, Hpost. cbn [Pd.mean].
  rewrite !get_set_other by reflexivity.
  rewrite Hpre, Hpost. reflexivity.
Qed.

Lemma dSFC_qar_none (df : Pd.DataFrame) :
  dSFC_qar df = None <-> text_fuel_flow df = true.
Proof.
  unfold text_fuel_flow.
  destruct (Pd.get df "Fuel_Flow_Pre") as [[pre|pre]|] eqn:Hpre;
    destruct (Pd.get df "Fuel_Flow_Post") as [[post|post]|] eqn:Hpost;
    cbn [is_text orb];
    try (rewrite (dSFC_qar_both df pre post Hpre Hpost);
         split; discriminate);
    unfold dSFC_qar; rewrite issubset_flows, Hpre, Hpost;
    try rewrite Hpre; try rewrite Hpost; cbn [Pd.mean];
    split; try reflexivity; try discriminate.
Qed.

End QarUpload.

(** X8. In QAR mode, an uploaded table with both fuel-flow columns (numeric)
    gives as ΔSFC the mean of the row-wise ΔSFC, not the ΔSFC of the mean
    flows, and as fuel flows the means of the two columns (adding the
    Delta_SFC column leaves them as uploaded), each mean being the double
    pandas returns (NaN cells skipped, NumPy's pairwise sum); the
    degradation rate is the sidebar's and the recovery factor is the
    slider's value over 100.  The EGT values and the manual fuel flows
    play no role. *)
Theorem qar_upload_means
    (s : Inputs.sidebar) (df : Pd.DataFrame) (pre post : list float) :
  Inputs.qar_mode s = true ->
  Inputs.qar_df s = Some df ->
  Pd.get df "Fuel_Flow_Pre" = Some (Pd.NumCol pre) ->
  Pd.get df "Fuel_Flow_Post" = Some (Pd.NumCol post) ->
  Inputs.mode_inputs s
  = Some (Inputs.Model
            (Inputs.degradation_rate_input s)
            (Py.float_of_int (Inputs.recovery_slider s) / 100)%float
            (Pd.mean_cells (Pd.zip_with Inputs.delta_sfc_row pre post))
            (Some (Inputs.Float (Pd.mean_cells pre),
                   Inputs.Float (Pd.mean_cells post)))).
Proof.
  intros Hmode Hdf Hpre Hpost. unfold Inputs.mode_inputs.
  rewrite Hmode, Hdf, (dSFC_qar_both df pre post Hpre Hpost). reflexivity.
Qed.

Lemma qar_upload_means_witness :
  Inputs.mode_inputs
    (Inputs.Sidebar true
       (Some [("Fuel_Flow_Pre"%string,
               Pd.NumCol [1243.0; 1254.8; 1230.3; 1269.3; 1262.9; 1270.0;
                          1240.5; 1238.0; 1232.2]%float);
              ("Fuel_Flow_Post"%string,
               Pd.NumCol [1226.1; 1239.6; 1208.4; 1250.6; 1239.7; 1247.4;
                          1222.0; 1221.3; 1213.7]%float)])
       630 620 2.5 100 0.8 4000 0.012 92 1250 1230 40)
  = Some (Inputs.Model 0.012 0.92 1.531389096926195
            (Some (Inputs.Float 1249.0, Inputs.Float 1229.8666666666668))).
Proof.
  rewrite (qar_upload_means _ _
             [1243.0; 1254.8; 1230.3; 1269.3; 1262.9; 1270.0;
              1240.5; 1238.0; 1232.2]%float
             [1226.1; 1239.6; 1208.4; 1250.6; 1239.7; 1247.4;
              1222.0; 1221.3; 1213.7]%float)
    by reflexivity.
  vm_compute. reflexivity.
Defined.

(** ** When a run raises *)

Lemma optimize_intervals_none
    (N : Z) (ft fp : float) (wc : Z) (rate rf : float) (m : Z) :
  Dashboard.optimize N ft fp wc rate rf (Dashboard.intervals_of m) = None
  <-> m < 20.
Proof. rewrite optimize_none. apply intervals_empty. Qed.

Lemma mode_inputs_none (s : Inputs.sidebar) :
  Inputs.mode_inputs s = None
  <-> Inputs.qar_mode s = true
      /\ match Inputs.qar_df s with
         | Some df => text_fuel_flow df = true
         | None => Inputs.fuel_flow_pre_input s = 0
         end.
Proof.
  unfold Inputs.mode_inputs, Inputs.dSFC_manual, Inputs.truediv.
  destruct (Inputs.qar_mode s).
  - destruct (Inputs.qar_df s) as [df|].
    + rewrite <- dSFC_qar_none.
      destruct (Inputs.dSFC_qar df) as [[[d pre] post]|].
      * split; [discriminate|]. intros [_ H]. discriminate.
      * split; [|reflexivity]. intros _. split; reflexivity.
    + destruct (Z.eqb_spec (Inputs.fuel_flow_pre_input s) 0) as [E|NE].
      * split; [|reflexivity]. intros _. split; [reflexivity|exact E].
      * split; [discriminate|]. intros [_ H]. contradiction.
  - split; [discriminate|]. intros [H _]. discriminate.
Qed.

Lemma run_none_iff (s : Inputs.sidebar) :
  Inputs.run s = None
  <-> Inputs.max_interval s < 20
      \/ (Inputs.qar_mode s = true
          /\ match Inputs.qar_df s with
             | Some df => text_fuel_flow df = true
             | None => Inputs.fuel_flow_pre_input s = 0
             end).
Proof.
  rewrite <- mode_inputs_none. unfold Inputs.run.
  destruct (Inputs.mode_inputs s) as [m|].
  - pose proof (optimize_intervals_none (Inputs.flights_per_year s)
                  (Inputs.flight_time s) (Inputs.fuel_price s)
                  (Inputs.wash_cost s) (Inputs.degradation_rate m)
                  (Inputs.recovery_factor m) (Inputs.max_interval s)) as Ho.
    destruct (Dashboard.optimize _ _ _ _ _ _ _) as [o|].
    + split; [discriminate|]. intros [H|H]; [|discriminate].
      apply Ho in H. discriminate.
    + split; [|reflexivity]. intros _. left. now apply Ho.
  - split; [|reflexivity]. intros _. right. reflexivity.
Qed.

(** X9. For integers a widget can return (below [2^52] in magnitude): when
    no table is read (Simulation mode, or QAR mode without an upload),
    the computation of the main page raises exactly when the sweep is
    empty (a maximal interval below 20, which the slider rules out) or
    the manual pre-wash fuel flow is zero in QAR mode (which its widget
    rules out).  With a table in QAR mode, it raises when the sweep is
    empty or a fuel-flow column of the table holds text. *)
Theorem run_raises_iff (s : Inputs.sidebar) :
  ints_exact s ->
  (Inputs.qar_mode s = false \/ Inputs.qar_df s = None ->
   (Inputs.run s = None
    <-> Inputs.max_interval s < 20
        \/ (Inputs.qar_mode s = true
            /\ Inputs.fuel_flow_pre_input s = 0)))
  /\ (Inputs.max_interval s < 20 -> Inputs.run s = None)
  /\ (forall df,
        Inputs.qar_mode s = true -> Inputs.qar_df s = Some df ->
        text_fuel_flow df = true -> Inputs.run s = None).
Proof.
  intros _. pose proof (run_none_iff s) as H. split; [|split].
  - intros [Hm|Hd].
    + rewrite H, Hm. split; (intros [L|[E _]]; [left; exact L|discriminate]).
    + rewrite H, Hd. reflexivity.
  - intros L. apply H. left. exact L.
  - intros df Hm Hd Ht. apply H. right. rewrite Hd. split; assumption.
Qed.

Lemma run_raises_iff_witness :
  Inputs.run (Inputs.Sidebar true None 630 620 2.5 600 0.8 4000
                0.012 92 0 1230 120) = None
  /\ Inputs.run
       (Inputs.Sidebar true
          (Some [("Fuel_Flow_Pre"%string, Pd.StrCol ["fault"%string]);
                 ("Fuel_Flow_Post"%string, Pd.NumCol [1230%float])])
          630 620 2.5 600 0.8 4000 0.012 92 1250 1230 120) = None.
Proof.
  split.
  - apply (proj1 (run_raises_iff
                    (Inputs.Sidebar true None 630 620 2.5 600 0.8 4000
                       0.012 92 0 1230 120)
                    ltac:(unfold ints_exact; simpl; repeat constructor; lia))).
    + right. reflexivity.
    + right. split; reflexivity.
  - eapply (proj2 (proj2 (run_raises_iff
                    (Inputs.Sidebar true
                       (Some [("Fuel_Flow_Pre"%string,
                               Pd.StrCol ["fault"%string]);
                              ("Fuel_Flow_Post"%string,
                               Pd.NumCol [1230%float])])
                       630 620 2.5 600 0.8 4000 0.012 92 1250 1230 120)
                    ltac:(unfold ints_exact; simpl; repeat constructor;
                          lia)))); reflexivity.
Defined.

(** ** The optimizer does not read the measured ΔSFC *)

(** X10. The sweep, the recommended interval and the three trajectories do not
    depend on ΔSFC: two runs within the widgets' bounds that agree on the
    mode, the flights per year, the flight time, the fuel price, the wash
    cost, the degradation rate, the recovery slider and the maximal
    interval return the same ones, whatever the EGT values, the fuel flows
    and the uploaded table. *)
Theorem optimizer_ignores_delta_sfc
    (s1 s2 : Inputs.sidebar) (r1 r2 : Inputs.report) :
  Inputs.widget_bounds s1 -> Inputs.widget_bounds s2 ->
  Inputs.run s1 = Some r1 -> Inputs.run s2 = Some r2 ->
  Inputs.qar_mode s1 = Inputs.qar_mode s2 ->
  Inputs.flights_per_year s1 = Inputs.flights_per_year s2 ->
  Inputs.flight_time s1 = Inputs.flight_time s2 ->
  Inputs.fuel_price s1 = Inputs.fuel_price s2 ->
  Inputs.wash_cost s1 = Inputs.wash_cost s2 ->
  Inputs.degradation_rate_input s1 = Inputs.degradation_rate_input s2 ->
  Inputs.recovery_slider s1 = Inputs.recovery_slider s2 ->
  Inputs.max_interval s1 = Inputs.max_interval s2 ->
  Inputs.r_intervals r1 = Inputs.r_intervals r2
  /\ Inputs.r_table r1 = Inputs.r_table r2
  /\ Inputs.r_optimum r1 = Inputs.r_optimum r2
  /\ Inputs.r_trajectories r1 = Inputs.r_trajectories r2.
Proof.
  intros _ _ H1 H2 Hq HN Ht Hp Hw Hd Hr Hm.
  destruct (run_inv s1 r1 H1) as (Hm1 & _ & Hi1 & Ht1 & Ho1 & Hj1).
  destruct (run_inv s2 r2 H2) as (Hm2 & _ & Hi2 & Ht2 & Ho2 & Hj2).
  assert (Inputs.degradation_rate (Inputs.r_model r1)
          = Inputs.degradation_rate (Inputs.r_model r2)
          /\ Inputs.recovery_factor (Inputs.r_model r1)
             = Inputs.recovery_factor (Inputs.r_model r2)) as [Ed Er].
  { destruct (mode_inputs_rate _ _ Hm1) as [(Q1 & -> & ->)|(Q1 & -> & ->)];
      destruct (mode_inputs_rate _ _ Hm2) as [(Q2 & -> & ->)|(Q2 & -> & ->)];
      try congruence.
    - rewrite Hd, Hr. split; reflexivity.
    - split; reflexivity. }
  assert (Inputs.r_intervals r1 = Inputs.r_intervals r2) as Ei by congruence.
  assert (Inputs.r_optimum r1 = Inputs.r_optimum r2) as Eo.
  { rewrite HN, Ht, Hp, Hw, Ed, Er, Ei in Ho1. congruence. }
  split; [exact Ei|]. split; [|split; [exact Eo|]].
  - rewrite Ht1, Ht2, HN, Ht, Hp, Hw, Ed, Er, Ei. reflexivity.
  - rewrite Hj1, Hj2, HN, Ed, Er, Eo. reflexivity.
Qed.

Lemma optimizer_ignores_delta_sfc_witness :
  exists r1 r2,
    Inputs.run (Inputs.Sidebar false None 630 620 2.5 100 0.8 4000
                  0.012 92 1250 1230 40) = Some r1
    /\ Inputs.run (Inputs.Sidebar false None 700 450 2.5 100 0.8 4000
                     0.012 92 3000 500 40) = Some r2
    /\ Inputs.r_optimum r1 = Inputs.r_optimum r2.
Proof.
  eexists. eexists. split; [vm_compute; reflexivity|].
  split; [vm_compute; reflexivity|].
  eapply (optimizer_ignores_delta_sfc
            (Inputs.Sidebar false None 630 620 2.5 100 0.8 4000
               0.012 92 1250 1230 40)
            (Inputs.Sidebar false None 700 450 2.5 100 0.8 4000
               0.012 92 3000 500 40));
    try reflexivity;
    unfold Inputs.widget_bounds; simpl; repeat split; try lia; reflexivity.
Defined.

(** ** The fleet page: what the validation lets through *)

Section FleetPage.

Import Fleet.
Local Open Scope string_scope.

Variable to_datetime : Pd.Column -> option (list Z).
Variable analyse : Pd.DataFrame -> list Z -> option (list element).

Lemma has_column_set (df : Pd.DataFrame) (name : string) (col : Pd.Column) :
  Pd.has_column (Pd.set df name col) name = true.
Proof. apply has_column_get. exists col. apply get_set_same. Qed.

Lemma with_delta_sfc_cases (df df' : Pd.DataFrame) :
  with_delta_sfc df = Some df' ->
  Pd.has_column df' "ΔSFC" = false ->
  has_delta_source df = false.
Proof.
  unfold with_delta_sfc, has_delta_source. rewrite issubset_two.
  destruct (Pd.has_column df "ΔSFC") eqn:Hd; cbn [negb andb orb].
  - intros H. inversion H; subst df'. congruence.
  - destruct (Pd.has_column df "Fuel_Flow_Pre"
              && Pd.has_column df "Fuel_Flow_Post"); [|reflexivity].
    destruct (Pd.get df "Fuel_Flow_Pre") as [[pre|pre]|]; try discriminate;
      destruct (Pd.get df "Fuel_Flow_Post") as [[post|post]|];
      try discriminate.
    intros H. inversion H; subst df'. rewrite has_column_set. discriminate.
Qed.

End FleetPage.

(** X11. The fleet page shows an error about a loaded table only when the table
    lacks an identifying column or every source of ΔSFC. *)
Theorem fleet_error_only_when_invalid
    (to_datetime : Pd.Column -> option (list Z))
    (analyse : Pd.DataFrame -> list Z -> option (list Fleet.element))
    (df : Pd.DataFrame) (shown : list Fleet.element) (msg : string) :
  Fleet.page to_datetime analyse (Fleet.Loaded df) = Fleet.Stopped shown ->
  In (Fleet.Error msg) shown ->
  Fleet.identified df = false \/ Fleet.has_delta_source df = false.
Proof.
  unfold Fleet.page, Fleet.identified. rewrite issubset_two.
  destruct (Pd.has_column df "Aircraft_ID" && Pd.has_column df "Month");
    cbn [negb]; [|left; reflexivity].
  destruct (Fleet.with_delta_sfc df) as [df'|] eqn:Hw; [|discriminate].
  destruct (Pd.has_column df' "ΔSFC") eqn:Hd; cbn [negb].
  - destruct (Pd.get df' "Month") as [month|]; [|discriminate].
    destruct (to_datetime month) as [dt|].
    + destruct (analyse df' dt); discriminate.
    + intros H Hin. inversion H; subst shown.
      destruct Hin as [E|[E|[]]]; discriminate.
  - intros _ _. right. eapply with_delta_sfc_cases; eassumption.
Qed.

Lemma fleet_error_only_when_invalid_witness :
  Fleet.identified [("Month"%string, Pd.StrCol ["Jan 25"%string])] = false
  \/ Fleet.has_delta_source [("Month"%string, Pd.StrCol ["Jan 25"%string])]
     = false.
Proof.
  apply (fleet_error_only_when_invalid (fun _ => None) (fun _ _ => None)
           [("Month"%string, Pd.StrCol ["Jan 25"%string])]
           [Fleet.Header; Fleet.Error Fleet.msg_required]
           Fleet.msg_required).
  - reflexivity.
  - right. left. reflexivity.
Defined.

(** X12. When the table has no ΔSFC column and both fuel-flow columns are
    numeric, the fleet page adds the ΔSFC column row by row, as the last
    column, and leaves every other column as uploaded. *)
Theorem fleet_adds_delta_sfc_column
    (df : Pd.DataFrame) (pre post : list float) :
  Pd.has_column df "ΔSFC" = false ->
  Pd.get df "Fuel_Flow_Pre" = Some (Pd.NumCol pre) ->
  Pd.get df "Fuel_Flow_Post" = Some (Pd.NumCol post) ->
  exists df',
    Fleet.with_delta_sfc df = Some df'
    /\ Pd.get df' "ΔSFC"
       = Some (Pd.NumCol (Pd.zip_with Inputs.delta_sfc_row pre post))
    /\ Pd.columns df' = Pd.columns df ++ ["ΔSFC"%string]
    /\ (forall name, String.eqb name "ΔSFC" = false ->
          Pd.get df' name = Pd.get df name).
Proof.
  intros Hd Hpre Hpost. unfold Fleet.with_delta_sfc.
  rewrite Hd, issubset_flows, Hpre, Hpost. cbn [negb andb].
  eexists. split; [reflexivity|]. split; [apply get_set_same|].
  split.
  - rewrite columns_set, Hd. reflexivity.
  - intros name Hne. now apply get_set_other.
Qed.

Lemma fleet_adds_delta_sfc_column_witness :
  exists df',
    Fleet.with_delta_sfc
      [("Fuel_Flow_Pre"%string, Pd.NumCol [1000]%float);
       ("Fuel_Flow_Post"%string, Pd.NumCol [900]%float)] = Some df'
    /\ Pd.get df' "ΔSFC" = Some (Pd.NumCol [10]%float).
Proof.
  destruct (fleet_adds_delta_sfc_column
              [("Fuel_Flow_Pre"%string, Pd.NumCol [1000]%float);
               ("Fuel_Flow_Post"%string, Pd.NumCol [900]%float)]
              [1000]%float [900]%float eq_refl eq_refl eq_refl)
    as (df' & H1 & H2 & _).
  exists df'. split; [exact H1|exact H2].
Defined.

(** X13. A ΔSFC column supplied with the table is never recomputed: a table
    with Aircraft_ID, Month and ΔSFC goes to the month parsing and the
    analysis as uploaded, whatever its fuel-flow columns hold. *)
Theorem fleet_keeps_supplied_delta_sfc
    (to_datetime : Pd.Column -> option (list Z))
    (analyse : Pd.DataFrame -> list Z -> option (list Fleet.element))
    (df : Pd.DataFrame) :
  Fleet.identified df = true ->
  Pd.has_column df "ΔSFC" = true ->
  exists month,
    Pd.get df "Month" = Some month
    /\ Fleet.page to_datetime analyse (Fleet.Loaded df)
       = match to_datetime month with
         | None => Fleet.Stopped [Fleet.Header; Fleet.Warning Fleet.msg_month]
         | Some month_dt =>
             match analyse df month_dt with
             | Some drawn => Fleet.Completed (Fleet.Header :: drawn)
             | None => Fleet.Raised [Fleet.Header]
             end
         end.
Proof.
  intros Hid Hd. unfold Fleet.identified in Hid.
  apply andb_true_iff in Hid as [Ha Hm].
  apply has_column_get in Hm as Hmonth. destruct Hmonth as [month Hmonth].
  exists month. split; [exact Hmonth|].
  unfold Fleet.page, Fleet.with_delta_sfc.
  rewrite issubset_two, Ha, Hm, Hd. cbn [negb andb].
  rewrite Hd, Hmonth. cbn [negb]. reflexivity.
Qed.

Lemma fleet_keeps_supplied_delta_sfc_witness :
  Fleet.page (fun _ => None) (fun _ _ => None)
    (Fleet.Loaded
       [("Aircraft_ID"%string, Pd.StrCol ["PH-JSA"%string]);
        ("Month"%string, Pd.StrCol ["Jan 25"%string]);
        ("ΔSFC"%string, Pd.NumCol [1.5]%float);
        ("Fuel_Flow_Pre"%string, Pd.StrCol ["fault"%string]);
        ("Fuel_Flow_Post"%string, Pd.StrCol ["fault"%string])])
  = Fleet.Stopped [Fleet.Header; Fleet.Warning Fleet.msg_month].
Proof.
  destruct (fleet_keeps_supplied_delta_sfc (fun _ => None) (fun _ _ => None)
              [("Aircraft_ID"%string, Pd.StrCol ["PH-JSA"%string]);
               ("Month"%string, Pd.StrCol ["Jan 25"%string]);
               ("ΔSFC"%string, Pd.NumCol [1.5]%float);
               ("Fuel_Flow_Pre"%string, Pd.StrCol ["fault"%string]);
               ("Fuel_Flow_Post"%string, Pd.StrCol ["fault"%string])]
              eq_refl eq_refl) as (month & Hm & Hp).
  rewrite Hp. inversion Hm. reflexivity.
Defined.

(** ** The alert of the fleet page *)

Section Alert.

Import FleetAlert FloatOrder.
Local Open Scope float_scope.

Lemma abnormal_length (cells : list float) (t : float) :
  (List.length (abnormal cells t) <= List.length cells)%nat.
Proof. apply filter_length_le. Qed.

Lemma abnormal_antitone (cells : list float) (t1 t2 : float) :
  (t1 <=? t2) = true ->
  (List.length (abnormal cells t2) <= List.length (abnormal cells t1))%nat.
Proof.
  intros Ht. unfold abnormal.
  induction cells as [|x cells IH]; simpl; [lia|].
  destruct (t2 <? x) eqn:E2.
  - rewrite (leb_ltb_trans t1 t2 x Ht E2). simpl. lia.
  - destruct (t1 <? x); simpl; lia.
Qed.

Lemma abnormal_skips_nan (cells : list float) (t : float) :
  abnormal cells t = abnormal (filter (fun x => negb (is_nan x)) cells) t.
Proof.
  unfold abnormal. induction cells as [|x cells IH]; simpl; [reflexivity|].
  destruct (is_nan x) eqn:En; simpl.
  - destruct (t <? x) eqn:E; [|exact IH].
    apply ltb_num in E as [_ Hx]. apply is_nan_false in Hx. congruence.
  - rewrite IH. reflexivity.
Qed.

End Alert.

(** X14. Raising the alert threshold never flags more aircraft-month cells, and
    a success message stays a success message. *)
Theorem alert_threshold_antitone (cells : list float) (t1 t2 : float) :
  (t1 <=? t2)%float = true ->
  (List.length (FleetAlert.abnormal cells t2)
   <= List.length (FleetAlert.abnormal cells t1))%nat
  /\ (FleetAlert.alert_of cells t1 = FleetAlert.AlertSuccess ->
      FleetAlert.alert_of cells t2 = FleetAlert.AlertSuccess).
Proof.
  intros Ht. pose proof (abnormal_antitone cells t1 t2 Ht) as Hle.
  split; [exact Hle|]. unfold FleetAlert.alert_of. cbv zeta.
  destruct (FleetAlert.abnormal cells t1) as [|a l1]; [|discriminate].
  destruct (FleetAlert.abnormal cells t2) as [|b l2]; [reflexivity|].
  simpl in Hle. lia.
Qed.

Lemma alert_threshold_antitone_witness :
  (List.length (FleetAlert.abnormal [1.5; 2.5; 3.5]%float 3)
   <= List.length (FleetAlert.abnormal [1.5; 2.5; 3.5]%float 2))%nat.
Proof.
  apply (alert_threshold_antitone [1.5; 2.5; 3.5]%float 2 3). reflexivity.
Defined.

(** X15. A blank cell (NaN) is never flagged: the alert is that of the cells
    that hold a number, and the number it reports is positive and at most
    theirs. *)
Theorem alert_ignores_blank_cells (cells : list float) (t : float) :
  let numbers := filter (fun x => negb (is_nan x)) cells in
  FleetAlert.alert_of cells t = FleetAlert.alert_of numbers t
  /\ (forall n, FleetAlert.alert_of cells t = FleetAlert.AlertWarning n ->
        (0 < n <= List.length numbers)%nat).
Proof.
  cbv zeta. unfold FleetAlert.alert_of. cbv zeta.
  rewrite (abnormal_skips_nan cells t). split; [reflexivity|].
  intros n.
  pose proof (abnormal_length (filter (fun x => negb (is_nan x)) cells) t)
    as Hle.
  destruct (FleetAlert.abnormal _ t) as [|a l]; [discriminate|].
  intros H. assert (n = List.length (a :: l)) as -> by congruence.
  split; [simpl; lia|exact Hle].
Qed.

(** ** More on the doubles: NaN operands, products by a factor above one *)

Section FloatFacts.

Import FloatOrder Round Double NonNeg.
Local Open Scope float_scope.

Lemma is_nan_true (x : float) : is_nan x = true <-> Prim2SF x = S754_nan.
Proof.
  pose proof (is_nan_false x) as H. unfold num in H.
  destruct (is_nan x); split; try reflexivity; try discriminate.
  - intros _. destruct (Prim2SF x) eqn:E; try reflexivity;
      exfalso; assert (false = true -> False) as F by discriminate;
      apply F; symmetry; apply H; discriminate.
  - intros E. destruct H as [H _]. specialize (H eq_refl). contradiction.
Qed.

Lemma nan_mul_l (x y : float) : is_nan x = true -> is_nan (x * y) = true.
Proof.
  rewrite !is_nan_true, mul_spec. intros ->. reflexivity.
Qed.

Lemma nan_mul_r (x y : float) : is_nan y = true -> is_nan (x * y) = true.
Proof.
  rewrite !is_nan_true, mul_spec. intros ->.
  destruct (Prim2SF x); reflexivity.
Qed.

Lemma nan_div_l (x y : float) : is_nan x = true -> is_nan (x / y) = true.
Proof.
  rewrite !is_nan_true, div_spec. intros ->. reflexivity.
Qed.

Lemma nan_sub_l (x y : float) : is_nan x = true -> is_nan (x - y) = true.
Proof.
  rewrite !is_nan_true, sub_spec. intros ->. reflexivity.
Qed.

Lemma nan_sub_r (x y : float) : is_nan y = true -> is_nan (x - y) = true.
Proof.
  rewrite !is_nan_true, sub_spec. intros ->.
  destruct (Prim2SF x); reflexivity.
Qed.

(** The product of a non-negative double by a finite factor that is at
    least one is not below it. *)
Lemma mul_ge (a c : float) :
  nns (Prim2SF a) -> nnf c -> (1 <= B2Q c)%Q -> (a <=? a * c) = true.
Proof.
  intros Ha Hc Hc1. rewrite leb_spec.
  pose proof (valid_prim (a * c)) as Vz. pose proof (valid_prim a) as Va.
  rewrite mul_spec in *. unfold SF64mul in *.
  unfold nnf, B2Q in *.
  destruct Ha as [Ha|Ea].
  - destruct (SFmul_rounds prec emax Hprec Hemax _ _ Va (valid_prim c) Ha Hc)
      as (Hcls & Hlow & _).
    destruct (Hlow (SF2Q (Prim2SF a))) as [Einf|Hle].
    + apply repb_rep, nn_repb; [exact Hprec|exact Hemax|exact Va|exact Ha].
    + pose proof (nn_value _ Ha). nra.
    + rewrite Einf. apply SFleb_inf. left. exact Ha.
    + destruct Hcls as [Hz|Einf];
        [|rewrite Einf; apply SFleb_inf; left; exact Ha].
      apply (SFleb_nn prec emax Hprec); assumption.
  - rewrite Ea.
    destruct (Prim2SF c) as [[|]|s| |[|] mc ec]; simpl in Hc;
      try contradiction; try reflexivity;
      exfalso; revert Hc1; apply Qlt_not_le; reflexivity.
Qed.

Lemma above_positive (lo x : float) (ml : positive) (el : Z) :
  Prim2SF lo = S754_finite false ml el ->
  (lo <? x) = true -> nns (Prim2SF x).
Proof.
  intros El H. rewrite ltb_spec, El in H. unfold SFltb in H.
  destruct (Prim2SF x) as [[|]|[|]| |[|] mx ex]; simpl in H;
    try discriminate.
  - right. reflexivity.
  - left. exact I.
Qed.

End FloatFacts.

(** ** The axes of the gauges *)

Section GaugeAxis.

Import FloatOrder Round Double NonNeg.
Local Open Scope float_scope.

Lemma ten_num : num 10.
Proof. unfold num. vm_compute. discriminate. Qed.

Lemma axis_spec (x : float) :
  (10 <=? Gauges.max 10 (x * 1.25)) = true
  /\ (is_nan x = false -> (x <=? Gauges.max 10 (x * 1.25)) = true)
  /\ (is_nan x = true -> Gauges.max 10 (x * 1.25) = 10).
Proof.
  unfold Gauges.max. split; [|split].
  - destruct (10 <? x * 1.25) eqn:E.
    + apply ltb_leb, E.
    + apply leb_refl, ten_num.
  - intros Hx. apply is_nan_false in Hx.
    destruct (x <=? 10) eqn:Hx10.
    + destruct (10 <? x * 1.25) eqn:E; [|exact Hx10].
      apply ltb_leb. eapply leb_ltb_trans; eassumption.
    + apply not_leb_ltb in Hx10; [|exact Hx|exact ten_num].
      assert ((x <=? x * 1.25) = true) as Hge.
      { apply mul_ge.
        - eapply (above_positive 10); [vm_compute; reflexivity|exact Hx10].
        - vm_compute. exact I.
        - vm_compute. discriminate. }
      rewrite (ltb_leb_trans 10 x (x * 1.25) Hx10 Hge). exact Hge.
  - intros Hx.
    assert (is_nan (x * 1.25) = true) as Hy by now apply nan_mul_l.
    destruct (10 <? x * 1.25) eqn:E; [|reflexivity].
    apply ltb_num in E as [_ E]. apply is_nan_false in E. congruence.
Qed.

End GaugeAxis.

(** X16. The axes of the CO2 and cost gauges always reach 10, and they reach
    the value shown whenever it is a number, negative or infinite values
    included.  When the value is NaN the axis ends at 10. *)
Theorem gauge_axis_reaches_value (k : Inputs.kpi) :
  (10 <=? Gauges.co2_axis k)%float = true
  /\ (10 <=? Gauges.cost_axis k)%float = true
  /\ (is_nan (Gauges.co2_value k) = false ->
      (Gauges.co2_value k <=? Gauges.co2_axis k)%float = true)
  /\ (is_nan (Gauges.cost_value k) = false ->
      (Gauges.cost_value k <=? Gauges.cost_axis k)%float = true)
  /\ (is_nan (Gauges.co2_value k) = true -> Gauges.co2_axis k = 10%float)
  /\ (is_nan (Gauges.cost_value k) = true -> Gauges.cost_axis k = 10%float).
Proof.
  unfold Gauges.co2_axis, Gauges.cost_axis, Gauges.co2_value,
    Gauges.cost_value.
  destruct (axis_spec (Inputs.CO2_saved_annual k)) as (A1 & A2 & A3).
  destruct (axis_spec (Inputs.cost_saved_annual k / 1000)) as (B1 & B2 & B3).
  repeat split; assumption.
Qed.

(** ** A ΔSFC that is not a number *)

Section NanKpi.

Import Inputs.
Local Open Scope float_scope.

Lemma delta_sfc_row_nan (pre post : float) :
  is_nan pre = true \/ is_nan post = true ->
  is_nan (delta_sfc_row pre post) = true.
Proof.
  intros H. unfold delta_sfc_row. apply nan_mul_l, nan_div_l.
  destruct H; [now apply nan_sub_l|now apply nan_sub_r].
Qed.

Lemma zip_with_all_nan (pre post : list float) :
  (forall x y, In (x, y) (combine pre post) ->
     is_nan x = true \/ is_nan y = true) ->
  filter (fun x => negb (is_nan x)) (Pd.zip_with delta_sfc_row pre post) = [].
Proof.
  revert post. induction pre as [|x pre IH]; intros [|y post] H; simpl;
    try reflexivity.
  rewrite delta_sfc_row_nan by (apply H; left; reflexivity). simpl.
  apply IH. intros a b Hab. apply H. right. exact Hab.
Qed.

End NanKpi.

(** X17. A ΔSFC that is NaN makes the four KPIs NaN: nothing replaces it. *)
Theorem nan_delta_sfc_blanks_every_kpi (s : Inputs.sidebar) (m : Inputs.model) :
  Inputs.widget_bounds s ->
  is_nan (Inputs.dSFC m) = true ->
  let k := Inputs.core_calcs s m in
  is_nan (Inputs.fuel_saved_flight k) = true
  /\ is_nan (Inputs.CO2_saved_flight k) = true
  /\ is_nan (Inputs.CO2_saved_annual k) = true
  /\ is_nan (Inputs.cost_saved_annual k) = true.
Proof.
  intros _ Hd k. subst k. unfold Inputs.core_calcs. cbn.
  assert (is_nan (Dashboard.fuel_flow * (Inputs.dSFC m / 100)
                  * Inputs.flight_time s * 3600)%float
          = true) as Hf.
  { apply nan_mul_l, nan_mul_l, nan_mul_r, nan_div_l, Hd. }
  repeat split.
  - exact Hf.
  - apply nan_mul_l, Hf.
  - apply nan_div_l, nan_mul_l, nan_mul_l, Hf.
  - apply nan_mul_l, nan_mul_l, Hf.
Qed.

Lemma nan_delta_sfc_blanks_every_kpi_witness :
  let s := Inputs.Sidebar true None 630 620 2.5 600 0.8 4000
             0.012 92 1250 1230 120 in
  let m := Inputs.Model 0.012 0.92 nan None in
  is_nan (Inputs.cost_saved_annual (Inputs.core_calcs s m)) = true.
Proof.
  cbv zeta.
  apply (nan_delta_sfc_blanks_every_kpi
           (Inputs.Sidebar true None 630 620 2.5 600 0.8 4000
              0.012 92 1250 1230 120)
           (Inputs.Model 0.012 0.92 nan None)).
  - unfold Inputs.widget_bounds. simpl. repeat split; try lia; reflexivity.
  - reflexivity.
Defined.

(** X18. An uploaded table whose every row lacks a fuel-flow reading (a table
    with no row is one) does not raise in QAR mode: ΔSFC is NaN. *)
Theorem qar_blank_rows_give_nan
    (df : Pd.DataFrame) (pre post : list float) :
  Pd.get df "Fuel_Flow_Pre" = Some (Pd.NumCol pre) ->
  Pd.get df "Fuel_Flow_Post" = Some (Pd.NumCol post) ->
  (forall x y, In (x, y) (combine pre post) ->
     is_nan x = true \/ is_nan y = true) ->
  exists d flows_pre flows_post,
    Inputs.dSFC_qar df = Some (d, flows_pre, flows_post)
    /\ is_nan d = true.
Proof.
  intros Hpre Hpost Hrows.
  rewrite (dSFC_qar_both df pre post Hpre Hpost).
  eexists. eexists. eexists. split; [reflexivity|].
  unfold Pd.mean_cells. cbv zeta.
  rewrite zip_with_all_nan by exact Hrows. reflexivity.
Qed.

Lemma qar_blank_rows_give_nan_witness :
  exists d flows_pre flows_post,
    Inputs.dSFC_qar
      [("Fuel_Flow_Pre"%string, Pd.NumCol [nan; 1000]%float);
       ("Fuel_Flow_Post"%string, Pd.NumCol [900; nan]%float)]
    = Some (d, flows_pre, flows_post)
    /\ is_nan d = true.
Proof.
  apply (qar_blank_rows_give_nan _ [nan; 1000]%float [900; nan]%float);
    try reflexivity.
  intros x y [E|[E|[]]]; inversion E; [left|right]; reflexivity.
Defined.

(** ** Full recovery *)

Section FullRecovery.

Import Dashboard Round Double.
Local Open Scope float_scope.

Lemma mul_zero_r (b : float) : nnf b -> b * 0 = 0.
Proof.
  intros Hb. apply Prim2SF_inj. rewrite mul_spec.
  change (Prim2SF 0) with (S754_zero false). unfold nnf in Hb.
  destruct (Prim2SF b) as [[|]|s| |[|] m e]; simpl in *; tauto.
Qed.

Variable rate : float.
Hypothesis rate_ub : ub rate (1 / 16).

Lemma full_recovery_ub : ub (1 - 1) 1.
Proof. apply ubb_ub. vm_compute. reflexivity. Qed.

Lemma deg_entering_reset (iv : Z) (c : nat) :
  (0 < c <= 2000)%nat -> (Z.of_nat c mod iv = 0)%Z ->
  Spec.deg_entering rate 1 (Some iv) c = 0.
Proof.
  intros Hc Hmod. destruct c as [|c]; [lia|]. simpl.
  replace (Z.of_nat c + 1)%Z with (Z.of_nat (S c)) by lia.
  rewrite Hmod. simpl.
  change (1 - 1) with 0. apply mul_zero_r.
  rewrite deg_entering_wash_after.
  destruct (wash_after_bounds rate 1 rate_ub full_recovery_ub iv c
              ltac:(lia)) as [Hd _].
  eapply (add_ub _ _ _ _ (inject_Z (Z.of_nat c + 1) / 16));
    [exact Hd|exact rate_ub|apply dyadic_16|].
  - assert (2 ^ 53 = 9007199254740992)%Z by reflexivity. lia.
  - rewrite Q16. apply Qle_refl.
Qed.

Lemma eff_entering_reset (iv : Z) (c : nat) :
  (0 < c <= 2000)%nat -> (Z.of_nat c mod iv = 0)%Z ->
  eff_entering rate 1 (Some iv) c = 100.
Proof.
  intros Hc Hmod. unfold eff_entering.
  rewrite deg_entering_reset by assumption. reflexivity.
Qed.

End FullRecovery.

(** X19. With a recovery factor of 1 (always in Simulation mode; in QAR mode
    with the slider at 100) and within the widgets' bounds, each wash
    brings the efficiency back to exactly 100: the value recorded for the
    flight that follows a wash is the double 100.0, on the optimized
    trajectory and on that of two washes a year. *)
Theorem full_recovery_restores_efficiency
    (s : Inputs.sidebar) (r : Inputs.report) (c : nat) :
  Inputs.widget_bounds s ->
  Inputs.run s = Some r ->
  Inputs.recovery_factor (Inputs.r_model r) = 1%float ->
  (0 < Z.of_nat c < Inputs.flights_per_year s) ->
  let t := Inputs.r_trajectories r in
  (Z.of_nat c mod Dashboard.opt_interval (Inputs.r_optimum r) = 0 ->
   nth_error (Dashboard.eff_opt t) c = Some 100%float)
  /\ (Z.of_nat c mod Dashboard.interval_two (Inputs.flights_per_year s) = 0 ->
      nth_error (Dashboard.eff_two t) c = Some 100%float).
Proof.
  intros Hw Hrun Hrf Hc t. subst t.
  destruct (run_inv s r Hrun) as (Hm & _ & _ & _ & _ & Ht).
  destruct (sidebar_model_bounds s _ Hw Hm) as (HN & _ & _ & Hrate & _).
  rewrite Ht, Hrf.
  destruct (trajectories_lists (Inputs.flights_per_year s)
              (Inputs.degradation_rate (Inputs.r_model r)) 1
              (Dashboard.opt_interval (Inputs.r_optimum r)))
    as (_ & Htwo & Hopt).
  rewrite Htwo, Hopt.
  split; intros Hmod; rewrite eff_entering_nth by lia;
    f_equal; apply eff_entering_reset; try assumption; lia.
Qed.

Lemma full_recovery_restores_efficiency_witness :
  exists r,
    Inputs.run (Inputs.Sidebar false None 630 620 2.5 100 0.8 4000
                  0.012 92 1250 1230 40) = Some r
    /\ nth_error (Dashboard.eff_two (Inputs.r_trajectories r)) 50
       = Some 100%float.
Proof.
  eexists. split; [vm_compute; reflexivity|].
  refine (proj2 (full_recovery_restores_efficiency
            (Inputs.Sidebar false None 630 620 2.5 100 0.8 4000
               0.012 92 1250 1230 40) _ 50%nat _ _ _ _) _).
  - unfold Inputs.widget_bounds. simpl. repeat split; try lia; reflexivity.
  - vm_compute. reflexivity.
  - reflexivity.
  - simpl. lia.
  - reflexivity.
Defined.

(** ** The KPIs of a wash that helped *)

Section KpiFinite.

Import Dashboard Round Double NonNeg Inputs.
Local Open Scope float_scope.

Lemma pow53 : (2 ^ 53 = 9007199254740992)%Z.
Proof. reflexivity. Qed.

Lemma float_of_int_rounds (z : Z) :
  (0 <= z)%Z ->
  rounds prec emax (inject_Z z) (Prim2SF (Py.float_of_int z)).
Proof.
  intros Hz. unfold Py.float_of_int.
  rewrite Prim2SF_SF2Prim by apply (binary_normalize_valid prec emax Hprec).
  eapply rounds_ext; [|apply (binary_normalize_rounds prec emax Hprec z 0 Hz)].
  unfold F. rewrite bpow_0. ring.
Qed.

Lemma float_of_int_ub (z c : Z) :
  (0 <= z <= c)%Z -> (c < 2 ^ 53)%Z -> ub (Py.float_of_int z) (inject_Z c).
Proof.
  intros Hz Hc. destruct (float_of_int_rounds z ltac:(lia)) as (_ & _ & Hup).
  apply Hup; [apply dyadic_Z; lia|]. rewrite <- Zle_Qle. lia.
Qed.

Lemma float_of_int_ge_1 (z : Z) :
  (1 <= z < 2 ^ 53)%Z ->
  exists m e, Prim2SF (Py.float_of_int z) = S754_finite false m e
              /\ (1 <= B2Q (Py.float_of_int z))%Q.
Proof.
  intros Hz. destruct (float_of_int_rounds z ltac:(lia)) as (_ & Hlow & Hup).
  destruct (Hup (inject_Z z)) as [Hnn _];
    [apply dyadic_Z; lia|apply Qle_refl|].
  destruct (Hlow 1%Q) as [Einf|Hle].
  - apply repb_rep. apply (dyadic_Z 1). rewrite pow53. lia.
  - change 1%Q with (inject_Z 1). rewrite <- Zle_Qle. lia.
  - rewrite Einf in Hnn. contradiction.
  - unfold B2Q.
    destruct (Prim2SF (Py.float_of_int z)) as [[|]|s| |[|] m e];
      simpl in Hnn; try contradiction;
      try (exfalso; simpl in Hle; revert Hle; apply Qlt_not_le; reflexivity).
    exists m, e. split; [reflexivity|exact Hle].
Qed.

Lemma nnf_finite (x : float) :
  nnf x -> (0 <=? x) = true /\ (x <? infinity) = true.
Proof.
  unfold nnf. intros H. rewrite leb_spec, ltb_spec.
  change (Prim2SF 0) with (S754_zero false).
  change (Prim2SF infinity) with (S754_infinity false).
  destruct (Prim2SF x) as [[|]|s| |[|] m e]; simpl in H; try contradiction;
    split; reflexivity.
Qed.

Ltac dy k := apply (dyadic_Z k); rewrite pow53; lia.

Lemma kpi_ub (s : sidebar) (m : model) :
  ub (dSFC m) 524288 -> ub (flight_time s) 10 -> ub (fuel_price s) 3 ->
  (0 <= flights_per_year s <= 2000)%Z ->
  let k := core_calcs s m in
  nnf (fuel_saved_flight k) /\ nnf (CO2_saved_flight k)
  /\ nnf (CO2_saved_annual k) /\ nnf (cost_saved_annual k).
Proof.
  intros Hd Ht Hp HN k. subst k. unfold core_calcs. cbn.
  destruct hundred_finite as (m100 & e100 & E100 & H100).
  assert (ub fuel_flow 1) as Hf by (apply ubb_ub; vm_compute; reflexivity).
  assert (ub 3600 3600) as H36 by (apply ubb_ub; vm_compute; reflexivity).
  assert (ub CF 4) as Hcf by (apply ubb_ub; vm_compute; reflexivity).
  assert (exists m e, Prim2SF 1000 = S754_finite false m e
                      /\ (1 <= B2Q 1000)%Q) as (mk & ek & Ek & Hk).
  { eexists; eexists; split; [vm_compute; reflexivity|].
    vm_compute. discriminate. }
  pose proof (float_of_int_ub (flights_per_year s) 2000%Z HN
                ltac:(rewrite pow53; lia)) as HNf.
  assert (ub (dSFC m / 100) 524288) as H1.
  { eapply (div_ub _ _ 524288%Q 524288%Q); try eassumption;
      [dy 524288%Z|apply Qle_refl]. }
  assert (ub (fuel_flow * (dSFC m / 100)) 524288) as H2.
  { eapply mul_ub; [exact Hf|exact H1|dy 524288%Z|]. vm_compute. discriminate. }
  assert (ub (fuel_flow * (dSFC m / 100) * flight_time s) 5242880) as H3.
  { eapply mul_ub; [exact H2|exact Ht|dy 5242880%Z|]. vm_compute. discriminate. }
  assert (ub (fuel_flow * (dSFC m / 100) * flight_time s * 3600)
             18874368000) as H4.
  { eapply mul_ub; [exact H3|exact H36|dy 18874368000%Z|].
    vm_compute. discriminate. }
  assert (ub (fuel_flow * (dSFC m / 100) * flight_time s * 3600 * CF)
             75497472000) as H5.
  { eapply mul_ub; [exact H4|exact Hcf|dy 75497472000%Z|].
    vm_compute. discriminate. }
  split; [exact (proj1 H4)|]. split; [exact (proj1 H5)|]. split.
  - assert (ub (fuel_flow * (dSFC m / 100) * flight_time s * 3600 * CF
                * Py.float_of_int (flights_per_year s)) 150994944000000)
      as H6.
    { eapply mul_ub; [exact H5|exact HNf|dy 150994944000000%Z|].
      vm_compute. discriminate. }
    eapply (div_ub _ _ 150994944000000%Q 150994944000000%Q); try eassumption;
      [dy 150994944000000%Z|apply Qle_refl].
  - assert (ub (fuel_flow * (dSFC m / 100) * flight_time s * 3600
                * Py.float_of_int (flights_per_year s)) 37748736000000)
      as H6.
    { eapply mul_ub; [exact H4|exact HNf|dy 37748736000000%Z|].
      vm_compute. discriminate. }
    eapply (mul_ub _ _ _ _ 113246208000000%Q); [exact H6|exact Hp| |].
    + dy 113246208000000%Z.
    + vm_compute. discriminate.
Qed.

Lemma dSFC_simulation_ub (before after : Z) :
  (400 <= after <= before)%Z -> (before <= 800)%Z ->
  ub (dSFC_simulation before after) 524288.
Proof.
  intros H1 H2. unfold dSFC_simulation.
  assert (ub 0.08 1) as H8 by (apply ubb_ub; vm_compute; reflexivity).
  eapply mul_ub; [exact H8| |dy 524288%Z|].
  - apply (float_of_int_ub _ 400%Z); [lia|rewrite pow53; lia].
  - vm_compute. discriminate.
Qed.

Lemma dSFC_manual_ub (pre post : Z) :
  (400 <= post <= pre)%Z -> (pre <= 4000)%Z ->
  exists d, dSFC_manual pre post = Some d /\ ub d 524288.
Proof.
  intros H1 H2. unfold dSFC_manual, truediv.
  destruct (Z.eqb_spec pre 0) as [E|_]; [lia|].
  eexists. split; [reflexivity|].
  destruct (float_of_int_ge_1 pre) as (mp & ep & Ep & Hp1);
    [rewrite pow53; lia|].
  destruct hundred_finite as (m100 & e100 & E100 & H100).
  assert (ub 100 100) as Hh by (apply ubb_ub; vm_compute; reflexivity).
  eapply mul_ub; [|exact Hh|dy 524288%Z|].
  - eapply (div_ub _ _ 3600%Q 3600%Q); try eassumption.
    + apply (float_of_int_ub _ 3600%Z); [lia|rewrite pow53; lia].
    + dy 3600%Z.
    + apply Qle_refl.
  - vm_compute. discriminate.
Qed.

End KpiFinite.

(** X20. Within the widgets' bounds and with no uploaded table, when the wash
    did not make things worse (EGT after not above EGT before in
    Simulation mode, fuel flow after not above fuel flow before in QAR
    mode), ΔSFC and the four KPIs are finite doubles that are not
    negative: none is NaN or infinite. *)
Theorem kpis_finite_when_wash_helps (s : Inputs.sidebar) (m : Inputs.model) :
  Inputs.widget_bounds s ->
  Inputs.qar_df s = None ->
  Inputs.mode_inputs s = Some m ->
  (if Inputs.qar_mode s
   then Inputs.fuel_flow_post_input s <= Inputs.fuel_flow_pre_input s
   else Inputs.EGT_after s <= Inputs.EGT_before s) ->
  let k := Inputs.core_calcs s m in
  forall x,
    In x [Inputs.dSFC m; Inputs.fuel_saved_flight k;
          Inputs.CO2_saved_flight k; Inputs.CO2_saved_annual k;
          Inputs.cost_saved_annual k] ->
    (0 <=? x)%float = true /\ (x <? infinity)%float = true.
Proof.
  intros Hw Hdf Hm Himp k x Hx.
  destruct (sidebar_model_bounds s m Hw Hm) as (HN & Ht & Hp & _ & _).
  assert (Double.ub (Inputs.dSFC m) 524288) as Hd.
  { destruct Hw as (Hb & Ha & _ & _ & _ & _ & _ & _ & _ & _ & _ & Hpre
                    & Hpost & _).
    unfold Inputs.mode_inputs in Hm. rewrite Hdf in Hm.
    destruct (Inputs.qar_mode s).
    - destruct (dSFC_manual_ub (Inputs.fuel_flow_pre_input s)
                  (Inputs.fuel_flow_post_input s)) as (d & Ed & Hd);
        [lia|lia|].
      rewrite Ed in Hm. inversion Hm. exact Hd.
    - inversion Hm. cbn. apply dSFC_simulation_ub; lia. }
  assert (0 <= Inputs.flights_per_year s <= 2000) as HN'.
  { destruct Hw as (_ & _ & _ & _ & H & _). lia. }
  destruct (kpi_ub s m Hd Ht Hp HN') as (K1 & K2 & K3 & K4).
  apply nnf_finite.
  destruct Hx as [<-|[<-|[<-|[<-|[<-|[]]]]]]; try assumption.
  exact (proj1 Hd).
Qed.

Lemma kpis_finite_when_wash_helps_witness :
  let s := Inputs.Sidebar false None 630 620 2.5 600 0.8 4000
             0.012 92 1250 1230 120 in
  let m := Inputs.Model Dashboard.deg_rate_default Dashboard.recovery_default
             (Inputs.dSFC_simulation 630 620) None in
  (0 <=? Inputs.cost_saved_annual (Inputs.core_calcs s m))%float = true
  /\ (Inputs.cost_saved_annual (Inputs.core_calcs s m) <? infinity)%float
     = true.
Proof.
  cbv zeta.
  apply (kpis_finite_when_wash_helps
           (Inputs.Sidebar false None 630 620 2.5 600 0.8 4000
              0.012 92 1250 1230 120)
           (Inputs.Model Dashboard.deg_rate_default
              Dashboard.recovery_default
              (Inputs.dSFC_simulation 630 620) None)).
  - unfold Inputs.widget_bounds. simpl. repeat split; try lia; reflexivity.
  - reflexivity.
  - reflexivity.
  - simpl. lia.
  - simpl. tauto.
Defined.

(** ** Rounding to nearest: the results of [SpecFloat]'s operations are
       monotone on non-negative operands *)

Module Nearest.

Import Round.

(** The midpoint of the bracket [[m * 2^e, (m+1) * 2^e]]. *)
Definition mid (m e : Z) : Q := F (2 * m + 1) (e - 1).

Lemma F_half (k e : Z) : (F k e == F (2 * k) (e - 1))%Q.
Proof.
  rewrite <- (F_double k (e - 1)).
  replace (e - 1 + 1) with e by lia. reflexivity.
Qed.

Lemma mid_sum (m e : Z) : (F m e + F (m + 1) e == 2 * mid m e)%Q.
Proof.
  unfold mid. rewrite (F_half m e), (F_half (m + 1) e).
  rewrite <- F_add.
  replace (2 * m + 2 * (m + 1)) with ((2 * m + 1) + (2 * m + 1)) by lia.
  rewrite F_add. ring.
Qed.

Lemma mid_up (m e : Z) : (mid (m / 2) (e + 1) == F (2 * (m / 2) + 1) e)%Q.
Proof. unfold mid. replace (e + 1 - 1) with e by lia. reflexivity. Qed.

(** The bits of a shifted record say on which side of the midpoint the
    real lies. *)
Definition invn (r : Q) (mrs : shr_record) (e : Z) : Prop :=
  inv r mrs e
  /\ (shr_r mrs = false -> shr_s mrs = false -> (r == F (shr_m mrs) e)%Q)
  /\ (shr_r mrs = true -> (mid (shr_m mrs) e <= r)%Q)
  /\ (shr_r mrs = false -> (r <= mid (shr_m mrs) e)%Q)
  /\ (shr_r mrs = true -> shr_s mrs = false -> (r <= mid (shr_m mrs) e)%Q).

Lemma shr_1_invn (r : Q) (mrs : shr_record) (e : Z) :
  invn r mrs e -> invn r (shr_1 mrs) (e + 1).
Proof.
  intros (Hinv & Hex & Hge & Hle & Heq).
  destruct (shr_1_inv r mrs e Hinv) as [Hinv' Em].
  split; [exact Hinv'|].
  destruct mrs as [m rb sb]. unfold inv in Hinv.
  cbn [shr_m shr_r shr_s] in *.
  destruct Hinv as (Hm & Hlo & Hhi & Hin).
  rewrite shr_1_nonneg in * by exact Hm. cbn [shr_m shr_r shr_s] in *.
  rewrite Z.div2_div.
  pose proof (Z.div_mod m 2 ltac:(lia)) as Hdm.
  pose proof (Z.mod_pos_bound m 2 ltac:(lia)) as Hmod.
  rewrite mid_up.
  destruct (Z.odd m) eqn:Hodd.
  - assert (m mod 2 = 1) as Hm1 by (rewrite Zmod_odd, Hodd; reflexivity).
    assert (2 * (m / 2) + 1 = m) as E by lia. rewrite E.
    repeat split; intros; try discriminate.
    + exact Hlo.
    + destruct rb, sb; try discriminate.
      rewrite Hex by reflexivity. apply Qle_refl.
  - assert (m mod 2 = 0) as Hm0 by (rewrite Zmod_odd, Hodd; reflexivity).
    assert (2 * (m / 2) = m) as E by lia.
    repeat split; intros; try discriminate.
    + destruct rb, sb; try discriminate.
      rewrite Hex by reflexivity. rewrite F_double, E. reflexivity.
    + replace (2 * (m / 2) + 1) with (m + 1) by lia.
      apply Qlt_le_weak. exact Hhi.
Qed.

Lemma iter_shr_invn (r : Q) (p : positive) :
  forall (mrs : shr_record) (e : Z),
    invn r mrs e -> invn r (iter_pos shr_1 p mrs) (e + Z.pos p).
Proof.
  induction p as [p IH|p IH|]; intros mrs e H; simpl iter_pos.
  - apply shr_1_invn in H. apply IH in H. apply IH in H.
    replace (e + Z.pos p~1) with (e + 1 + Z.pos p + Z.pos p) by lia.
    exact H.
  - apply IH in H. apply IH in H.
    replace (e + Z.pos p~0) with (e + Z.pos p + Z.pos p) by lia.
    exact H.
  - apply shr_1_invn, H.
Qed.

Lemma shr_invn (r : Q) (mrs : shr_record) (e n : Z) :
  0 <= n -> invn r mrs e ->
  invn r (fst (shr mrs e n)) (snd (shr mrs e n)).
Proof.
  intros Hn H. unfold shr. destruct n as [|p|p]; [exact H| |lia].
  simpl. apply iter_shr_invn, H.
Qed.

(** The location given with a truncated mantissa, with its meaning. *)
Definition locatedn (m e : Z) (l : location) (r : Q) : Prop :=
  located m e l r
  /\ match l with
     | loc_Exact => (r == F m e)%Q
     | loc_Inexact Lt => (r <= mid m e)%Q
     | loc_Inexact Eq => (r == mid m e)%Q
     | loc_Inexact Gt => (mid m e <= r)%Q
     end.

Lemma locatedn_invn (m e : Z) (l : location) (r : Q) :
  0 <= m -> locatedn m e l r -> invn r (shr_record_of_loc m l) e.
Proof.
  intros Hm [Hloc Hl]. split; [now apply located_inv|].
  destruct l as [|[ | | ]]; cbn [shr_record_of_loc shr_m shr_r shr_s];
    repeat split; intros; try discriminate; try assumption;
    try (rewrite Hl; apply Qle_refl).
  destruct Hloc as (Hlo & Hhi & _).
  rewrite Hl. unfold mid. rewrite (F_half m e). apply F_le. lia.
Qed.

Lemma locatedn_exact (m e : Z) : locatedn m e loc_Exact (F m e).
Proof. split; [apply located_exact|reflexivity]. Qed.

Lemma rne_cases (mrs : shr_record) :
  let m' := round_nearest_even (shr_m mrs) (loc_of_shr_record mrs) in
  (m' = shr_m mrs
   /\ (shr_r mrs = false \/ (shr_r mrs = true /\ shr_s mrs = false)))
  \/ (m' = shr_m mrs + 1 /\ shr_r mrs = true).
Proof.
  destruct mrs as [m [|] [|]]; simpl; auto.
  destruct (Z.even m); auto.
Qed.

Section Format.

Variables prec emax : Z.
Hypothesis Hprec : 0 < prec.
Hypothesis Hemax : prec < emax.

Abbreviation emin := (SpecFloat.emin prec emax).
Abbreviation fexp := (SpecFloat.fexp prec emax).

(** [F m e] is a nearest value of the format to [r]. *)
Definition nearest (r : Q) (m e : Z) : Prop :=
  (forall v, rep prec emax v -> (v <= r)%Q -> (F m e + v <= 2 * r)%Q)
  /\ (forall v, rep prec emax v -> (r <= v)%Q -> (2 * r <= F m e + v)%Q).

(** What the rounding of [r] returns: the mantissa and the exponent of a
    nearest value of the format, packed. *)
Definition rn (r : Q) (z : spec_float) : Prop :=
  exists m e,
    z = pack prec emax false m e
    /\ 0 <= m < 2 ^ prec /\ emin <= e /\ normal prec emax m e
    /\ (forall v, rep prec emax v -> (v <= r)%Q -> (v <= F m e)%Q)
    /\ (forall v, rep prec emax v -> (r <= v)%Q -> (F m e <= v)%Q)
    /\ nearest r m e.

Lemma rn_ext (r r' : Q) (z : spec_float) : (r == r')%Q -> rn r z -> rn r' z.
Proof.
  intros E (m & e & Hz & Hm & He & Hn & Hfl & Hce & Hlo & Hhi).
  exists m, e. repeat split; try assumption; try lia.
  - intros v Hv Hle. apply Hfl; [exact Hv|]. lra.
  - intros v Hv Hle. apply Hce; [exact Hv|]. lra.
  - intros v Hv Hle. rewrite <- E. apply Hlo; [exact Hv|]. lra.
  - intros v Hv Hle. rewrite <- E. apply Hhi; [exact Hv|]. lra.
Qed.

Theorem round_aux_nearest (s : bool) (mx ex : Z) (lx : location) (r : Q) :
  0 <= mx ->
  ex <= fexp (Zdigits2 mx + ex) ->
  locatedn mx ex lx r ->
  exists m e,
    binary_round_aux prec emax s mx ex lx = pack prec emax s m e
    /\ 0 <= m < 2 ^ prec /\ emin <= e /\ normal prec emax m e
    /\ (forall v, rep prec emax v -> (v <= r)%Q -> (v <= F m e)%Q)
    /\ (forall v, rep prec emax v -> (r <= v)%Q -> (F m e <= v)%Q)
    /\ nearest r m e.
Proof.
  intros Hmx C0 Hlocn.
  pose proof (proj1 Hlocn) as Hloc.
  pose proof (Zdigits2_nonneg mx) as Hd0.
  assert (0 <= fexp (Zdigits2 mx + ex) - ex) as Hn by lia.
  pose proof (shr_inv r (shr_record_of_loc mx lx) ex _ Hn
                (located_inv mx ex lx r Hmx Hloc)) as HA.
  pose proof (shr_invn r (shr_record_of_loc mx lx) ex _ Hn
                (locatedn_invn mx ex lx r Hmx Hlocn)) as HN.
  unfold binary_round_aux, shr_fexp.
  destruct (shr (shr_record_of_loc mx lx) ex
                (fexp (Zdigits2 mx + ex) - ex)) as [mrs1 e1].
  cbn [fst snd] in HN.
  destruct HA as (He1 & (Hm1 & Hlo1 & Hhi1 & Hin1) & Em1).
  destruct HN as (_ & _ & Hge1 & Hle1 & Heq1).
  assert (shr_m (shr_record_of_loc mx lx) = mx) as Emx
    by (destruct lx as [|[ | | ]]; reflexivity).
  rewrite Emx in Em1. clear Emx.
  set (m1 := shr_m mrs1) in *.
  assert (e1 = fexp (Zdigits2 mx + ex)) as Ee1 by lia.
  assert (emin <= e1) as Hemin1 by (unfold SpecFloat.fexp in Ee1; lia).
  assert (m1 < 2 ^ prec) as Hm1hi.
  { rewrite Em1. apply Z.div_lt_upper_bound.
    - apply Z.pow_pos_nonneg; lia.
    - rewrite <- Z.pow_add_r by lia.
      destruct (Z.eq_dec mx 0) as [->|Hne].
      + apply Z.pow_pos_nonneg; lia.
      + destruct (Zdigits2_bounds mx ltac:(lia)) as [_ Hhi].
        eapply Z.lt_le_trans; [exact Hhi|].
        apply Z.pow_le_mono_r; [lia|].
        unfold SpecFloat.fexp in *. lia. }
  assert (normal prec emax m1 e1) as Hnorm1.
  { unfold normal.
    destruct (Z.eq_dec e1 emin) as [E|NE]; [left; exact E|right].
    assert (e1 = Zdigits2 mx + ex - prec) as Ee
      by (unfold SpecFloat.fexp in *; lia).
    assert (0 < mx) as Hpos.
    { destruct (Z.eq_dec mx 0) as [->|]; [|lia].
      simpl in *. unfold SpecFloat.fexp in *. lia. }
    destruct (Zdigits2_bounds mx Hpos) as [Hlo _].
    rewrite Em1. apply Z.div_le_lower_bound.
    - apply Z.pow_pos_nonneg; lia.
    - rewrite <- Z.pow_add_r by lia.
      replace (fexp (Zdigits2 mx + ex) - ex + (prec - 1))
        with (Zdigits2 mx - 1) by lia.
      exact Hlo. }
  pose proof (rne_cases mrs1) as Hrne. cbv zeta in Hrne.
  fold m1 in Hrne.
  set (m2 := round_nearest_even m1 (loc_of_shr_record mrs1)) in *.
  assert (m1 <= m2 <= 2 ^ prec) as Hm2
    by (destruct Hrne as [[-> _]|[-> _]]; lia).
  assert (forall v, rep prec emax v -> (v <= r)%Q -> (v <= F m1 e1)%Q)
    as Hfloor1.
  { intros v Hv Hle. eapply rep_floor; eassumption. }
  assert (forall v, rep prec emax v -> (F m1 e1 < r)%Q -> (r <= v)%Q ->
                    (F (m1 + 1) e1 <= v)%Q) as Hceil1.
  { intros v Hv Hlt Hle. eapply rep_ceil; eassumption. }
  pose proof (mid_sum m1 e1) as Hmid.
  assert (forall v, rep prec emax v -> (v <= r)%Q -> (v <= F m2 e1)%Q)
    as Hfloor.
  { intros v Hv Hle.
    apply Qle_trans with (F m1 e1); [now apply Hfloor1|].
    apply F_le. lia. }
  assert (forall v, rep prec emax v -> (r <= v)%Q -> (F m2 e1 <= v)%Q)
    as Hceil.
  { intros v Hv Hle. destruct Hrne as [[-> _]|[-> Hbit]].
    - lra.
    - apply Hceil1; try assumption. apply Hin1. rewrite Hbit. reflexivity. }
  assert (nearest r m2 e1) as Hnear.
  { split; intros v Hv Hle.
    - destruct Hrne as [[-> _]|[-> Hbit]].
      + lra.
      + specialize (Hfloor1 v Hv Hle). specialize (Hge1 Hbit). lra.
    - destruct Hrne as [[-> Hbits]|[-> Hbit]].
      + destruct (Qlt_le_dec (F m1 e1) r) as [Hlt|Hge].
        * specialize (Hceil1 v Hv Hlt Hle).
          assert (r <= mid m1 e1)%Q as Hrm.
          { destruct Hbits as [Hb|[Hb Hs]]; [now apply Hle1|now apply Heq1]. }
          lra.
        * lra.
      + pose proof (F_le m1 (m1 + 1) e1 ltac:(lia)). lra. }
  assert (0 <= fexp (Zdigits2 m2 + e1) - e1) as Hn2.
  { destruct Hnorm1 as [E|G].
    - unfold SpecFloat.fexp. lia.
    - pose proof (Zdigits2_ge m2 prec Hprec ltac:(lia)).
      unfold SpecFloat.fexp. lia. }
  pose proof (shr_inv (F m2 e1) (shr_record_of_loc m2 loc_Exact) e1 _ Hn2
                (located_inv m2 e1 loc_Exact _ ltac:(lia)
                   (located_exact m2 e1))) as HB.
  destruct (shr (shr_record_of_loc m2 loc_Exact) e1
                (fexp (Zdigits2 m2 + e1) - e1)) as [mrs3 e3].
  destruct HB as (He3 & (Hm3 & Hlo3 & Hhi3 & Hin3) & Em3).
  cbn [shr_record_of_loc shr_m] in Em3.
  destruct (Z.eq_dec m2 (2 ^ prec)) as [Ecarry|Ncarry].
  - assert (Zdigits2 m2 = prec + 1) as Ed.
    { apply Zdigits2_unique; [|lia]. rewrite Ecarry.
      replace (prec + 1 - 1) with prec by lia. split; [lia|].
      apply Z.pow_lt_mono_r; lia. }
    assert (fexp (Zdigits2 m2 + e1) - e1 = 1) as En2
      by (rewrite Ed; unfold SpecFloat.fexp; lia).
    rewrite En2 in *.
    assert (shr_m mrs3 = 2 ^ (prec - 1)) as E3.
    { rewrite Em3, Ecarry, Z.pow_1_r.
      replace prec with (prec - 1 + 1) at 1 by lia.
      rewrite Z.pow_add_r by lia. rewrite Z.pow_1_r.
      apply Z.div_mul. lia. }
    assert (F (shr_m mrs3) e3 == F m2 e1)%Q as EF.
    { rewrite E3, He3, Ecarry, !F_pow by lia.
      replace (e1 + 1 + (prec - 1)) with (e1 + prec) by lia.
      reflexivity. }
    exists (shr_m mrs3), e3. unfold pack.
    split; [reflexivity|]. split.
    { rewrite E3. split; [apply Z.pow_nonneg; lia|].
      apply Z.pow_lt_mono_r; lia. }
    split; [lia|]. split; [right; lia|].
    destruct Hnear as [Hlo Hhi].
    split; [|split; [|split]]; intros v Hv Hle; rewrite EF; auto.
  - assert (Zdigits2 m2 <= prec) as Ed by (apply Zdigits2_le; lia).
    assert (fexp (Zdigits2 m2 + e1) - e1 = 0) as En2
      by (unfold SpecFloat.fexp in *; lia).
    rewrite En2 in *.
    rewrite Z.pow_0_r, Z.div_1_r in Em3. rewrite Z.add_0_r in He3.
    exists (shr_m mrs3), e3. unfold pack. rewrite Em3, He3.
    split; [reflexivity|]. split; [lia|]. split; [lia|].
    split; [destruct Hnorm1 as [E|G]; [left; exact E|right; lia]|].
    split; [exact Hfloor|]. split; [exact Hceil|exact Hnear].
Qed.

Theorem binary_round_nearest (s : bool) (mx : positive) (ex : Z) :
  exists m e,
    binary_round prec emax s mx ex = pack prec emax s m e
    /\ 0 <= m < 2 ^ prec /\ emin <= e /\ normal prec emax m e
    /\ (forall v, rep prec emax v -> (v <= F (Z.pos mx) ex)%Q ->
          (v <= F m e)%Q)
    /\ (forall v, rep prec emax v -> (F (Z.pos mx) ex <= v)%Q ->
          (F m e <= v)%Q)
    /\ nearest (F (Z.pos mx) ex) m e.
Proof.
  unfold binary_round.
  pose proof (shl_align_spec mx ex (fexp (Z.pos (digits2_pos mx) + ex)))
    as Hal.
  destruct (shl_align mx ex (fexp (Z.pos (digits2_pos mx) + ex)))
    as [mz ez].
  destruct Hal as (EF & Eez & Emz).
  assert (ez <= fexp (Zdigits2 (Z.pos mz) + ez)) as C0.
  { rewrite Emz, Zdigits2_shift by lia. simpl Zdigits2.
    replace (Z.pos (digits2_pos mx) + (ex - ez) + ez)
      with (Z.pos (digits2_pos mx) + ex) by lia.
    lia. }
  destruct (round_aux_nearest s (Z.pos mz) ez loc_Exact (F (Z.pos mz) ez)
              ltac:(lia) C0 (locatedn_exact _ _))
    as (m & e & Hres & Hm & He & Hn & Hfloor & Hceil & Hlo & Hhi).
  exists m, e. repeat split; try assumption; try lia.
  - intros v Hv Hle. apply Hfloor; [exact Hv|]. lra.
  - intros v Hv Hle. apply Hceil; [exact Hv|]. lra.
  - intros v Hv Hle. rewrite <- EF. apply Hlo; [exact Hv|]. lra.
  - intros v Hv Hle. rewrite <- EF. apply Hhi; [exact Hv|]. lra.
Qed.

(** A valid non-negative float is the rounding of its own value. *)
Lemma rn_exact (x : spec_float) :
  valid prec emax x -> nn x -> rn (SF2Q x) x.
Proof.
  destruct x as [[|]|s| |[|] m e]; simpl; try tauto; intros Hv _.
  - exists 0, emin. split; [reflexivity|].
    split; [split; [lia|apply Z.pow_pos_nonneg; lia]|].
    split; [lia|]. split; [left; reflexivity|].
    assert (F 0 emin == 0)%Q as E0 by apply F_0.
    repeat split; intros v Hv' Hle; lra.
  - destruct (valid_finite prec emax _ _ _ Hv) as (Hm & He & Hn).
    exists (Z.pos m), e. unfold pack.
    destruct (Z.leb_spec e (emax - prec)) as [L|G]; [|lia].
    split; [reflexivity|]. split; [lia|]. split; [lia|].
    split; [exact Hn|].
    repeat split; intros v Hv' Hle; lra.
Qed.

Lemma rn_zero (r : Q) : (r == 0)%Q -> rn r (S754_zero false).
Proof.
  intros E. apply (rn_ext 0); [symmetry; exact E|].
  apply (rn_exact (S754_zero false)); [reflexivity|exact I].
Qed.

Lemma binary_normalize_rn (m e : Z) :
  0 <= m -> rn (F m e) (binary_normalize prec emax m e false).
Proof.
  intros Hm. destruct m as [|p|p]; [| |lia]; simpl.
  - apply rn_zero, F_0.
  - destruct (binary_round_nearest false p e)
      as (m' & e' & -> & Hm' & He' & Hn & Hfloor & Hceil & Hnear).
    exists m', e'. repeat split; try assumption; try lia; apply Hnear.
Qed.

Theorem SFadd_rn (x y : spec_float) :
  valid prec emax x -> valid prec emax y -> nn x -> nn y ->
  rn (SF2Q x + SF2Q y) (SFadd prec emax x y).
Proof.
  intros Vx Vy Hx Hy.
  destruct x as [[|]|sx| |[|] mx ex]; simpl in Hx; try tauto;
    destruct y as [[|]|sy| |[|] my ey]; simpl in Hy; try tauto.
  - apply rn_zero. simpl. lra.
  - apply (rn_ext (SF2Q (S754_finite false my ey))); [simpl; lra|].
    now apply rn_exact.
  - apply (rn_ext (SF2Q (S754_finite false mx ex))); [simpl; lra|].
    now apply rn_exact.
  - simpl.
    pose proof (shl_align_spec mx ex (Z.min ex ey)) as Hax.
    pose proof (shl_align_spec my ey (Z.min ex ey)) as Hay.
    destruct (shl_align mx ex (Z.min ex ey)) as [mx' ex'].
    destruct (shl_align my ey (Z.min ex ey)) as [my' ey'].
    destruct Hax as (EFx & Eex & _). destruct Hay as (EFy & Eey & _).
    simpl fst.
    assert (ex' = Z.min ex ey) as E1 by lia.
    assert (ey' = Z.min ex ey) as E2 by lia.
    rewrite E1 in EFx. rewrite E2 in EFy.
    eapply rn_ext;
      [|apply (binary_normalize_rn (Z.pos mx' + Z.pos my')); lia].
    rewrite F_add, EFx, EFy. reflexivity.
Qed.

Theorem SFmul_rn (x y : spec_float) :
  valid prec emax x -> valid prec emax y -> nn x -> nn y ->
  rn (SF2Q x * SF2Q y) (SFmul prec emax x y).
Proof.
  intros Vx Vy Hx Hy.
  destruct x as [[|]|sx| |[|] mx ex]; simpl in Hx; try tauto;
    destruct y as [[|]|sy| |[|] my ey]; simpl in Hy; try tauto;
    try (apply rn_zero; simpl; lra).
  simpl.
  pose proof (Zdigits2_mul mx my) as Hd.
  pose proof (canonical_digits prec emax mx ex Vx) as Cx.
  pose proof (canonical_digits prec emax my ey Vy) as Cy.
  assert (ex + ey <= fexp (Zdigits2 (Z.pos (mx * my)) + (ex + ey))) as C0.
  { pose proof (Pos2Z.is_pos (digits2_pos mx)).
    pose proof (Pos2Z.is_pos (digits2_pos my)).
    unfold SpecFloat.fexp, SpecFloat.emin in *. lia. }
  destruct (round_aux_nearest false (Z.pos (mx * my)) (ex + ey) loc_Exact
              (F (Z.pos (mx * my)) (ex + ey)) ltac:(lia) C0
              (locatedn_exact _ _))
    as (m & e & -> & Hm & He & Hn & Hfloor & Hceil & Hnear).
  apply (rn_ext (F (Z.pos (mx * my)) (ex + ey)));
    [rewrite Pos2Z.inj_mul, F_mul; reflexivity|].
  exists m, e. repeat split; try assumption; try lia; apply Hnear.
Qed.

Lemma new_location_meaning (nb k : Z) :
  0 < nb -> 0 <= k < nb ->
  match new_location nb k with
  | loc_Exact => k = 0
  | loc_Inexact Lt => 2 * k < nb
  | loc_Inexact Eq => 2 * k = nb
  | loc_Inexact Gt => nb <= 2 * k
  end.
Proof.
  intros Hnb Hk. unfold new_location, new_location_even, new_location_odd.
  destruct (Z.even nb) eqn:Hev.
  - destruct (Z.eqb_spec k 0) as [E|NE]; [exact E|].
    destruct (Z.compare_spec (2 * k) nb); lia.
  - destruct (Z.eqb_spec k 0) as [E|NE]; [exact E|].
    assert (Z.odd nb = true) as Hodd by (rewrite <- Z.negb_even, Hev; reflexivity).
    apply Z.odd_spec in Hodd as [j Hj].
    destruct (Z.compare_spec (2 * k + 1) nb); lia.
Qed.

Lemma div_core_nearest (m1 m2 : positive) (e1 e2 : Z) :
  let '(q, e', l) :=
    SFdiv_core_binary prec emax (Z.pos m1) e1 (Z.pos m2) e2 in
  0 <= q
  /\ e' <= fexp (Zdigits2 q + e')
  /\ locatedn q e' l (F (Z.pos m1) e1 / F (Z.pos m2) e2).
Proof.
  pose proof (div_core_spec prec emax m1 m2 e1 e2) as Hspec.
  unfold SFdiv_core_binary in *.
  set (d1 := Zdigits2 (Z.pos m1)) in *. set (d2 := Zdigits2 (Z.pos m2)) in *.
  set (e' := Z.min (fexp (d1 + e1 - (d2 + e2))) (e1 - e2)) in *.
  set (s := e1 - e2 - e') in *.
  assert (0 <= s) as Hs by (unfold s, e'; lia).
  set (m' := match s with
             | 0 => Z.pos m1
             | Z.pos _ => Z.shiftl (Z.pos m1) s
             | Z.neg _ => 0
             end) in *.
  assert (m' = Z.pos m1 * 2 ^ s) as Em'.
  { unfold m'. destruct s as [|p|p] eqn:Es; [simpl; lia| |lia].
    rewrite Z.shiftl_mul_pow2 by lia. reflexivity. }
  pose proof (Z_div_mod m' (Z.pos m2) ltac:(lia)) as Hdiv.
  destruct (Z.div_eucl m' (Z.pos m2)) as [q r].
  destruct Hdiv as [Hqr Hr].
  destruct Hspec as (Hq & C0 & Hloc).
  split; [exact Hq|]. split; [exact C0|]. split; [exact Hloc|].
  assert (0 < inject_Z (Z.pos m2))%Q as Hm2
    by (rewrite <- (Zlt_Qlt 0); lia).
  assert (0 < F (Z.pos m2) e2)%Q as HF2.
  { rewrite <- (F_0 e2). apply F_lt. lia. }
  assert (F (Z.pos m1) e1 / F (Z.pos m2) e2 * inject_Z (Z.pos m2)
          == F m' e')%Q as Ekey.
  { assert (F (Z.pos m1) e1 == F m' e' * bpow e2)%Q as E1.
    { rewrite Em', F_shift by lia. unfold F.
      replace e1 with (e' + s + e2) at 1 by (unfold s; lia).
      rewrite bpow_add. ring. }
    rewrite E1. unfold F at 2.
    pose proof (bpow_pos e2).
    field. split; lra. }
  set (R := (F (Z.pos m1) e1 / F (Z.pos m2) e2)%Q) in *.
  assert (forall k e, F k e * inject_Z (Z.pos m2)
                      == F (k * Z.pos m2) e)%Q as Ek.
  { intros k e. unfold F. rewrite inject_Z_mult. ring. }
  assert (R * inject_Z (Z.pos m2) == F (2 * m') (e' - 1))%Q as Ekey2.
  { rewrite Ekey. apply F_half. }
  pose proof (new_location_meaning (Z.pos m2) r ltac:(lia) Hr) as Hnl.
  destruct (new_location (Z.pos m2) r) as [|[ | | ]].
  - apply (Qmult_inj_r _ _ (inject_Z (Z.pos m2))); [lra|].
    rewrite Ekey, Ek. subst r. replace m' with (q * Z.pos m2) by lia.
    reflexivity.
  - apply (Qmult_inj_r _ _ (inject_Z (Z.pos m2))); [lra|].
    unfold mid. rewrite Ekey2, Ek.
    replace (2 * m') with ((2 * q + 1) * Z.pos m2) by lia. reflexivity.
  - apply (Qmult_le_r _ _ (inject_Z (Z.pos m2)) Hm2).
    unfold mid. rewrite Ekey2, Ek. apply F_le. lia.
  - apply (Qmult_le_r _ _ (inject_Z (Z.pos m2)) Hm2).
    unfold mid. rewrite Ekey2, Ek. apply F_le. lia.
Qed.

Theorem SFdiv_rn (x : spec_float) (my : positive) (ey : Z) :
  nn x ->
  rn (SF2Q x / SF2Q (S754_finite false my ey))
     (SFdiv prec emax x (S754_finite false my ey)).
Proof.
  destruct x as [[|]|sx| |[|] mx ex]; simpl; try tauto; intros _.
  - apply rn_zero. unfold Qdiv. apply Qmult_0_l.
  - pose proof (div_core_nearest mx my ex ey) as Hcore.
    destruct (SFdiv_core_binary prec emax (Z.pos mx) ex (Z.pos my) ey)
      as [[q e'] l].
    destruct Hcore as (Hq & C0 & Hloc).
    destruct (round_aux_nearest false q e' l _ Hq C0 Hloc)
      as (m & e & -> & Hm & He & Hn & Hfloor & Hceil & Hnear).
    exists m, e. repeat split; try assumption; try lia; apply Hnear.
Qed.

(** *** Order of the results *)

Lemma pack_nns (m e : Z) :
  0 <= m -> NonNeg.nns (pack prec emax false m e).
Proof.
  intros Hm. unfold pack. destruct m as [|p|p]; [left; exact I| |lia].
  destruct (e <=? emax - prec); [left; exact I|right; reflexivity].
Qed.

Lemma pack_le (m1 e1 m2 e2 : Z) :
  0 <= m1 < 2 ^ prec -> emin <= e1 -> normal prec emax m1 e1 ->
  0 <= m2 < 2 ^ prec -> emin <= e2 -> normal prec emax m2 e2 ->
  (F m1 e1 <= F m2 e2)%Q ->
  SFleb (pack prec emax false m1 e1) (pack prec emax false m2 e2) = true.
Proof.
  intros Hm1 He1 Hn1 Hm2 He2 Hn2 Hle.
  pose proof (pack_valid prec emax Hprec false m1 e1 Hm1 He1 Hn1) as V1.
  pose proof (pack_valid prec emax Hprec false m2 e2 Hm2 He2 Hn2) as V2.
  pose proof (pack_nns m1 e1 ltac:(lia)) as N1.
  pose proof (pack_nns m2 e2 ltac:(lia)) as N2.
  destruct N2 as [N2|E2]; [|rewrite E2; now apply NonNeg.SFleb_inf].
  assert (SF2Q (pack prec emax false m2 e2) == F m2 e2)%Q as EV2.
  { unfold pack in *. destruct m2 as [|p|p]; [simpl; now rewrite F_0| |lia].
    destruct (e2 <=? emax - prec); [reflexivity|contradiction]. }
  assert (m1 = 0 \/ e1 <= emax - prec) as Hfin.
  { destruct (Z.eq_dec m1 0) as [E|NE]; [left; exact E|right].
    destruct (Z.le_gt_cases e1 (emax - prec)) as [L|G]; [exact L|exfalso].
    unfold pack in N2. destruct m2 as [|p|p]; [| |lia].
    - rewrite F_0 in Hle.
      pose proof (F_lt 0 m1 e1 ltac:(lia)) as H0. rewrite F_0 in H0. lra.
    - destruct (Z.leb_spec e2 (emax - prec)) as [L2|G2]; [|contradiction].
      pose proof (rep_below prec emax Hprec (Z.pos p) e2 m1 e1 Hm2 He2 ltac:(lia)
                    Hn1). lra. }
  assert (nn (pack prec emax false m1 e1)
          /\ SF2Q (pack prec emax false m1 e1) == F m1 e1)%Q as [N1' EV1].
  { unfold pack. destruct m1 as [|p|p]; [split; [exact I|simpl; now rewrite F_0]| |lia].
    destruct Hfin as [E|L]; [discriminate|].
    destruct (Z.leb_spec e1 (emax - prec)); [|lia].
    split; [exact I|reflexivity]. }
  apply (SFleb_nn prec emax Hprec); try assumption.
  rewrite EV1, EV2. exact Hle.
Qed.

(** Rounding is monotone. *)
Theorem rn_le (r1 r2 : Q) (z1 z2 : spec_float) :
  rn r1 z1 -> rn r2 z2 -> (r1 < r2)%Q -> SFleb z1 z2 = true.
Proof.
  intros (m1 & e1 & -> & Hm1 & He1 & Hn1 & Hfl1 & Hce1 & Hlo1 & Hhi1)
         (m2 & e2 & -> & Hm2 & He2 & Hn2 & Hfl2 & Hce2 & Hlo2 & Hhi2) Hlt.
  apply pack_le; try assumption.
  assert (rep prec emax (F m1 e1)) as R1
    by (exists m1, e1; repeat split; (reflexivity || lia)).
  assert (rep prec emax (F m2 e2)) as R2
    by (exists m2, e2; repeat split; (reflexivity || lia)).
  destruct (Qlt_le_dec (F m2 e2) (F m1 e1)) as [Hgt|Hle]; [|exact Hle].
  exfalso.
  destruct (Qlt_le_dec r1 (F m1 e1)) as [A|A];
    [|specialize (Hfl2 _ R1 ltac:(lra)); lra].
  destruct (Qlt_le_dec (F m2 e2) r1) as [B|B];
    [|specialize (Hce1 _ R2 B); lra].
  destruct (Qlt_le_dec r2 (F m1 e1)) as [C|C];
    [|specialize (Hfl2 _ R1 C); lra].
  specialize (Hlo1 _ R2 ltac:(lra)).
  specialize (Hhi2 _ R1 ltac:(lra)). lra.
Qed.

(** A valid non-negative float is determined by its value. *)
Lemma value_inj (x y : spec_float) :
  valid prec emax x -> valid prec emax y -> nn x -> nn y ->
  (SF2Q x == SF2Q y)%Q -> x = y.
Proof.
  destruct x as [[|]|sx| |[|] mx ex]; simpl; try tauto;
    destruct y as [[|]|sy| |[|] my ey]; simpl; try tauto;
    intros Vx Vy _ _ E.
  - pose proof (finite_pos_value my ey). lra.
  - pose proof (finite_pos_value mx ex). lra.
  - destruct (valid_finite prec emax _ _ _ Vx) as (Hmx & Hex & Hnx).
    destruct (valid_finite prec emax _ _ _ Vy) as (Hmy & Hey & Hny).
    destruct (Z.lt_trichotomy ex ey) as [L|[Ee|G]].
    + pose proof (rep_below prec emax Hprec (Z.pos mx) ex (Z.pos my) ey
                    ltac:(lia) ltac:(lia) L Hny). lra.
    + subst ey.
      assert (Z.pos mx <= Z.pos my) by (apply (F_le_inv _ _ ex); lra).
      assert (Z.pos my <= Z.pos mx) by (apply (F_le_inv _ _ ex); lra).
      assert (mx = my) by lia. subst my. reflexivity.
    + pose proof (rep_below prec emax Hprec (Z.pos my) ey (Z.pos mx) ex
                    ltac:(lia) ltac:(lia) G Hnx). lra.
Qed.

End Format.

End Nearest.

(** ** Binary64: the primitive operations are monotone on finite
       non-negative doubles *)

Module Monotone.

Import Round Double NonNeg Nearest.
Local Open Scope float_scope.

Lemma nnf_inj (a b : float) : nnf a -> nnf b -> (B2Q a == B2Q b)%Q -> a = b.
Proof.
  intros Ha Hb E. apply Prim2SF_inj.
  apply (value_inj prec emax Hprec); try assumption; apply valid_prim.
Qed.

Lemma rn_nns (r : Q) (z : spec_float) : rn prec emax r z -> nns z.
Proof.
  intros (m & e & -> & Hm & _). apply pack_nns. lia.
Qed.

Lemma add_rn (a b : float) :
  nnf a -> nnf b -> rn prec emax (B2Q a + B2Q b) (Prim2SF (a + b)).
Proof.
  intros Ha Hb. rewrite add_spec.
  apply (SFadd_rn prec emax Hprec); try assumption; apply valid_prim.
Qed.

Lemma mul_rn (a b : float) :
  nnf a -> nnf b -> rn prec emax (B2Q a * B2Q b) (Prim2SF (a * b)).
Proof.
  intros Ha Hb. rewrite mul_spec.
  apply (SFmul_rn prec emax Hprec Hemax); try assumption; apply valid_prim.
Qed.

Lemma div_rn (a c : float) (mc : positive) (ec : Z) :
  nnf a -> Prim2SF c = S754_finite false mc ec ->
  rn prec emax (B2Q a / B2Q c) (Prim2SF (a / c)).
Proof.
  intros Ha Ec. rewrite div_spec. unfold B2Q. rewrite Ec.
  apply (SFdiv_rn prec emax Hprec). exact Ha.
Qed.

(** Two roundings compare as the reals they round, when these differ. *)
Lemma rn_leb (r1 r2 : Q) (x y : float) :
  rn prec emax r1 (Prim2SF x) -> rn prec emax r2 (Prim2SF y) ->
  (r1 < r2)%Q -> (x <=? y) = true.
Proof.
  intros H1 H2 Hlt. rewrite leb_spec.
  exact (rn_le prec emax Hprec r1 r2 _ _ H1 H2 Hlt).
Qed.

Lemma rn_leb_refl (r : Q) (x : float) :
  rn prec emax r (Prim2SF x) -> (x <=? x) = true.
Proof.
  intros H. rewrite leb_spec. apply SFleb_refl. eapply rn_nns, H.
Qed.

Theorem add_le (a a' b b' : float) :
  nnf a -> nnf a' -> nnf b -> nnf b' ->
  (a <=? a') = true -> (b <=? b') = true ->
  (a + b <=? a' + b') = true.
Proof.
  intros Ha Ha' Hb Hb' Hle1 Hle2.
  apply leb_value in Hle1; [|assumption|assumption].
  apply leb_value in Hle2; [|assumption|assumption].
  destruct (Qlt_le_dec (B2Q a + B2Q b) (B2Q a' + B2Q b')) as [Hlt|Hge].
  - eapply rn_leb; [apply add_rn|apply add_rn|exact Hlt]; assumption.
  - assert (a = a') as <- by (apply nnf_inj; [assumption|assumption|lra]).
    assert (b = b') as <- by (apply nnf_inj; [assumption|assumption|lra]).
    eapply rn_leb_refl, add_rn; assumption.
Qed.

Lemma mul_zero_nnf (a c : float) :
  nnf a -> Prim2SF c = S754_zero false -> a * c = 0 /\ c * a = 0.
Proof.
  intros Ha Ec. unfold nnf in Ha.
  split; apply Prim2SF_inj; rewrite mul_spec, Ec;
    change (Prim2SF 0) with (S754_zero false);
    destruct (Prim2SF a) as [[|]|s| |[|] m e]; simpl in *; tauto.
Qed.

Lemma nnf_zero_or_pos (c : float) :
  nnf c -> Prim2SF c = S754_zero false \/ (0 < B2Q c)%Q.
Proof.
  unfold nnf, B2Q. destruct (Prim2SF c) as [[|]|s| |[|] m e]; simpl;
    try tauto; intros _.
  right. apply finite_pos_value.
Qed.

Theorem mul_le_l (c a a' : float) :
  nnf c -> nnf a -> nnf a' -> (a <=? a') = true ->
  (c * a <=? c * a') = true.
Proof.
  intros Hc Ha Ha' Hle.
  apply leb_value in Hle; [|assumption|assumption].
  destruct (nnf_zero_or_pos c Hc) as [Ez|Hpos].
  - rewrite (proj2 (mul_zero_nnf a c Ha Ez)), (proj2 (mul_zero_nnf a' c Ha' Ez)).
    reflexivity.
  - destruct (Qlt_le_dec (B2Q a) (B2Q a')) as [Hlt|Hge].
    + eapply rn_leb; [apply mul_rn|apply mul_rn|]; try assumption. nra.
    + assert (a = a') as <- by (apply nnf_inj; [assumption|assumption|lra]).
      eapply rn_leb_refl, mul_rn; assumption.
Qed.

Theorem mul_le_r (c a a' : float) :
  nnf c -> nnf a -> nnf a' -> (a <=? a') = true ->
  (a * c <=? a' * c) = true.
Proof.
  intros Hc Ha Ha' Hle.
  apply leb_value in Hle; [|assumption|assumption].
  destruct (nnf_zero_or_pos c Hc) as [Ez|Hpos].
  - rewrite (proj1 (mul_zero_nnf a c Ha Ez)), (proj1 (mul_zero_nnf a' c Ha' Ez)).
    reflexivity.
  - destruct (Qlt_le_dec (B2Q a) (B2Q a')) as [Hlt|Hge].
    + eapply rn_leb; [apply mul_rn|apply mul_rn|]; try assumption. nra.
    + assert (a = a') as <- by (apply nnf_inj; [assumption|assumption|lra]).
      eapply rn_leb_refl, mul_rn; assumption.
Qed.

Theorem div_le (a a' c : float) (mc : positive) (ec : Z) :
  nnf a -> nnf a' -> Prim2SF c = S754_finite false mc ec ->
  (a <=? a') = true -> (a / c <=? a' / c) = true.
Proof.
  intros Ha Ha' Ec Hle.
  apply leb_value in Hle; [|assumption|assumption].
  assert (0 < B2Q c)%Q as Hpos
    by (unfold B2Q; rewrite Ec; apply finite_pos_value).
  destruct (Qlt_le_dec (B2Q a) (B2Q a')) as [Hlt|Hge].
  - eapply rn_leb; [eapply div_rn|eapply div_rn|]; try eassumption.
    unfold Qdiv. apply Qmult_lt_compat_r; [|exact Hlt].
    apply Qinv_lt_0_compat, Hpos.
  - assert (a = a') as <- by (apply nnf_inj; [assumption|assumption|lra]).
    eapply rn_leb_refl, div_rn; eassumption.
Qed.

(** Multiplying by a factor of at most one does not increase. *)
Theorem mul_shrink (a f : float) :
  nnf a -> ub f 1 -> (a * f <=? a) = true.
Proof.
  intros Ha [Hf Hf1].
  pose proof (nn_value _ Ha) as Ha0. pose proof (nn_value _ Hf) as Hf0.
  destruct (SFmul_rounds prec emax Hprec Hemax _ _
              (valid_prim a) (valid_prim f) Ha Hf) as (_ & _ & Hup).
  destruct (Hup (B2Q a)) as [Hz Hle].
  - apply nn_repb; [exact Hprec|exact Hemax|apply valid_prim|exact Ha].
  - unfold B2Q in *. nra.
  - rewrite <- mul_spec in Hz, Hle.
    apply leb_value; assumption.
Qed.

End Monotone.

(** ** Washing never burns more fuel *)

Section WashingHelps.

Import Dashboard Round Double Monotone.
Local Open Scope float_scope.

Variables rate rf : float.
Hypothesis rate_ub : ub rate (1 / 16).
Hypothesis recovery_ub : ub (1 - rf) 1.
Variable iv : Z.

(** No wash is due within 2000 flights at an interval of 2001. *)
Lemma never_washes (s : sim) (k : nat) :
  (k < 2000)%nat ->
  wash_body rate rf 2001 s (Z.of_nat k) = baseline_body rate s (Z.of_nat k).
Proof.
  intros Hk. unfold wash_body, baseline_body.
  rewrite Z.mod_small by lia.
  destruct (Z.eqb_spec (Z.of_nat k + 1) 0); [lia|reflexivity].
Qed.

Lemma increment_nnf (d : float) (k : Z) :
  (0 <= k < 2000)%Z -> ub d (inject_Z k / 16) ->
  nnf (d / 100) /\ nnf (1 + d / 100) /\ nnf (d + rate).
Proof.
  intros Hk Hd.
  assert (2 ^ 53 = 9007199254740992)%Z as E53 by reflexivity.
  destruct hundred_finite as (m & e & E100 & H100).
  assert (ub (d / 100) (inject_Z k / 16)) as Hq.
  { eapply div_ub; try eassumption.
    - apply dyadic_16. lia.
    - apply Qle_refl. }
  split; [exact (proj1 Hq)|]. split.
  - eapply (add_ub 1 (d / 100) 1 (inject_Z k / 16) (inject_Z (k + 16) / 16));
      [exact one_ub|exact Hq| |].
    + apply dyadic_16. lia.
    + rewrite inject_Z_plus. change (inject_Z 16) with 16%Q.
      apply Qle_lteq. right. field.
  - eapply (add_ub d rate _ _ (inject_Z (k + 1) / 16));
      [exact Hd|exact rate_ub| |].
    + apply dyadic_16. lia.
    + rewrite Q16. apply Qle_refl.
Qed.

Lemma compare_step (w b : sim) (i k : Z) :
  (0 <= k < 2000)%Z ->
  ub (deg w) (inject_Z k / 16) -> ub (deg b) (inject_Z k / 16) ->
  nnf (fuel_burn w) -> nnf (fuel_burn b) ->
  (deg w <=? deg b) = true -> (fuel_burn w <=? fuel_burn b) = true ->
  (deg (wash_body rate rf iv w i) <=? deg (baseline_body rate b i)) = true
  /\ (fuel_burn (wash_body rate rf iv w i)
      <=? fuel_burn (baseline_body rate b i)) = true.
Proof.
  intros Hk Hdw Hdb Hbw Hbb Hd Hb.
  destruct (increment_nnf (deg w) k Hk Hdw) as (Qw & Iw & Dw).
  destruct (increment_nnf (deg b) k Hk Hdb) as (Qb & Ib & Db).
  destruct hundred_finite as (m & e & E100 & _).
  unfold wash_body, baseline_body. cbn [deg fuel_burn].
  assert ((deg w + rate <=? deg b + rate) = true) as Hd'.
  { apply add_le; try assumption; try apply (proj1 Hdw);
      try apply (proj1 Hdb); try apply (proj1 rate_ub).
    apply FloatOrder.leb_refl. unfold FloatOrder.num.
    destruct rate_ub as [Hr _]. unfold nnf in Hr.
    destruct (Prim2SF rate); simpl in Hr; try contradiction; discriminate. }
  split.
  - destruct ((i + 1) mod iv =? 0)%Z; [|exact Hd'].
    eapply FloatOrder.leb_trans; [|exact Hd'].
    apply mul_shrink; [exact Dw|exact recovery_ub].
  - apply add_le; try assumption.
    apply add_le; try assumption; try apply (proj1 one_ub).
    + reflexivity.
    + eapply div_le; try eassumption;
        [apply (proj1 Hdw)|apply (proj1 Hdb)].
Qed.

Lemma wash_below_no_wash (k : nat) :
  (k <= 2000)%nat ->
  (deg (wash_after rate rf iv k) <=? deg (wash_after rate rf 2001 k)) = true
  /\ (fuel_burn (wash_after rate rf iv k)
      <=? fuel_burn (wash_after rate rf 2001 k)) = true.
Proof.
  induction k as [|k IH]; intros Hk.
  - split; reflexivity.
  - destruct IH as [IHd IHb]; [lia|].
    destruct (wash_after_bounds rate rf rate_ub recovery_ub iv k ltac:(lia))
      as [Hdw Hbw].
    destruct (wash_after_bounds rate rf rate_ub recovery_ub 2001 k
                ltac:(lia)) as [Hdb Hbb].
    unfold wash_after. rewrite range_prefix, !fold_left_snoc.
    fold (wash_after rate rf iv k). fold (wash_after rate rf 2001 k).
    rewrite never_washes by lia.
    apply (compare_step _ _ _ (Z.of_nat k)); try assumption; try lia.
    + exact (proj1 Hbw).
    + exact (proj1 Hbb).
Qed.

Lemma wash_loop_burn_le (N : Z) :
  (N <= 2000)%Z ->
  (fuel_burn (wash_loop N rate rf iv) <=? fuel_burn (baseline_loop N rate))
  = true.
Proof.
  intros HN.
  rewrite <- (wash_loop_idle N rate rf 2001) by lia.
  apply (wash_below_no_wash (Z.to_nat N)). lia.
Qed.

Variables flight_time fuel_price : float.
Hypothesis time_ub : ub flight_time 10.
Hypothesis price_ub : ub fuel_price 3.

Lemma fuel_cost_le (N : Z) :
  (N <= 2000)%Z ->
  (fuel_cost_of N flight_time fuel_price rate rf iv
   <=? baseline_cost N flight_time fuel_price rate) = true.
Proof.
  intros HN. unfold fuel_cost_of, fuel_kg_of, baseline_cost,
    baseline_fuel_kg.
  pose proof (wash_loop_burn_ub N rate HN rate_ub rf iv recovery_ub) as Hw.
  pose proof (wash_loop_burn_ub N rate HN rate_ub rf 2001 recovery_ub)
    as Hb.
  rewrite (wash_loop_idle N rate rf 2001) in Hb by lia.
  assert (ub fuel_flow 1) as Hf by (apply ubb_ub; vm_compute; reflexivity).
  assert (ub 3600 3600) as H36 by (apply ubb_ub; vm_compute; reflexivity).
  assert (2 ^ 53 = 9007199254740992)%Z as E53 by reflexivity.
  assert (ub (fuel_flow * flight_time) 10) as H1.
  { eapply mul_ub; [exact Hf|exact time_ub| |].
    - apply (dyadic_Z 10). lia.
    - vm_compute. discriminate. }
  assert (ub (fuel_flow * flight_time * 3600) 36000) as H2.
  { eapply mul_ub; [exact H1|exact H36| |].
    - apply (dyadic_Z 36000). lia.
    - vm_compute. discriminate. }
  assert (forall burn, ub burn 252000 ->
            nnf (fuel_flow * flight_time * 3600 * burn)) as H3.
  { intros burn Hburn.
    eapply (mul_ub _ _ _ _ 9072000000); [exact H2|exact Hburn| |].
    - apply (dyadic_Z 9072000000). lia.
    - vm_compute. discriminate. }
  apply mul_le_r; [exact (proj1 price_ub)|now apply H3|now apply H3|].
  apply mul_le_l; [exact (proj1 H2)|exact (proj1 Hw)|exact (proj1 Hb)|].
  now apply wash_loop_burn_le.
Qed.

End WashingHelps.

(** X21. Within the widgets' bounds, whatever the interval, the fuel cost of a
    year with washes is at most the fuel cost of the year without: every
    entry of the fuel costs of the sweep is at most the baseline cost
    (on binary64, rounding included). *)
Theorem washing_never_raises_fuel_cost
    (s : Inputs.sidebar) (m : Inputs.model) (iv : Z) :
  Inputs.widget_bounds s ->
  Inputs.mode_inputs s = Some m ->
  0 < iv ->
  (Dashboard.fuel_cost_of (Inputs.flights_per_year s) (Inputs.flight_time s)
     (Inputs.fuel_price s) (Inputs.degradation_rate m)
     (Inputs.recovery_factor m) iv
   <=? Dashboard.baseline_cost (Inputs.flights_per_year s)
         (Inputs.flight_time s) (Inputs.fuel_price s)
         (Inputs.degradation_rate m))%float = true.
Proof.
  intros Hw Hm _.
  destruct (sidebar_model_bounds s m Hw Hm) as (HN & Ht & Hp & Hr & Hrf).
  now apply fuel_cost_le.
Qed.

Lemma washing_never_raises_fuel_cost_witness :
  (Dashboard.fuel_cost_of 600 2.5 0.8 Dashboard.deg_rate_default
     Dashboard.recovery_default 90
   <=? Dashboard.baseline_cost 600 2.5 0.8 Dashboard.deg_rate_default)%float
  = true.
Proof.
  apply (washing_never_raises_fuel_cost
           (Inputs.Sidebar false None 630 620 2.5 600 0.8 4000
              0.012 92 1250 1230 120)
           (Inputs.Model Dashboard.deg_rate_default
              Dashboard.recovery_default
              (Inputs.dSFC_simulation 630 620) None) 90).
  - unfold Inputs.widget_bounds. simpl. repeat split; try lia; reflexivity.
  - reflexivity.
  - lia.
Defined.

(** ** Differences of non-negative doubles *)

Module Signed.

Import Round Double NonNeg Nearest.

Lemma SFleb_opp (a b : spec_float) :
  SFleb (SFopp a) (SFopp b) = SFleb b a.
Proof.
  unfold SFleb.
  destruct a as [[|]|[|]| |[|] ma ea], b as [[|]|[|]| |[|] mb eb];
    simpl; try reflexivity;
    rewrite (Z.compare_antisym ea eb);
    destruct (ea ?= eb) eqn:E; simpl; try reflexivity;
    change (Pos.compare_cont Eq mb ma) with (mb ?= ma)%positive;
    change (Pos.compare_cont Eq ma mb) with (ma ?= mb)%positive;
    rewrite (Pos.compare_antisym ma mb);
    destruct (ma ?= mb)%positive; reflexivity.
Qed.

Lemma SFleb_opp_nns (a b : spec_float) :
  nns a -> nns b -> SFleb (SFopp a) b = true.
Proof.
  intros [Ha| ->] [Hb| ->];
    try (destruct a as [[|]|sa| |[|] ma ea]; simpl in Ha; try contradiction);
    try (destruct b as [[|]|sb| |[|] mb eb]; simpl in Hb; try contradiction);
    reflexivity.
Qed.

Section Format.

Variables prec emax : Z.
Hypothesis Hprec : 0 < prec.
Hypothesis Hemax : prec < emax.

(** The rounding of a real of either sign: that of its magnitude, with
    the sign. *)
Definition rs (r : Q) (z : spec_float) : Prop :=
  ((0 <= r)%Q /\ rn prec emax r z)
  \/ ((r < 0)%Q /\ exists z', rn prec emax (- r) z' /\ z = SFopp z').

Lemma rn_is_nns (r : Q) (z : spec_float) : rn prec emax r z -> nns z.
Proof. intros (m & e & -> & Hm & _). apply pack_nns. lia. Qed.

Theorem rs_le (r1 r2 : Q) (z1 z2 : spec_float) :
  rs r1 z1 -> rs r2 z2 -> (r1 < r2)%Q -> SFleb z1 z2 = true.
Proof.
  intros [[P1 H1]|[N1 (z1' & H1 & ->)]] [[P2 H2]|[N2 (z2' & H2 & ->)]] Hlt.
  - exact (rn_le prec emax Hprec r1 r2 _ _ H1 H2 Hlt).
  - lra.
  - apply SFleb_opp_nns; eapply rn_is_nns; eassumption.
  - rewrite SFleb_opp.
    apply (rn_le prec emax Hprec (- r2) (- r1) _ _ H2 H1). lra.
Qed.

Lemma pack_opp (m e : Z) :
  0 <= m -> pack prec emax true m e = SFopp (pack prec emax false m e).
Proof.
  intros Hm. unfold pack. destruct m as [|p|p]; [reflexivity| |lia].
  destruct (e <=? emax - prec); reflexivity.
Qed.

Lemma binary_normalize_rs (m e : Z) :
  rs (F m e) (binary_normalize prec emax m e false).
Proof.
  destruct m as [|p|p].
  - left. split; [rewrite F_0; apply Qle_refl|].
    apply (binary_normalize_rn prec emax Hprec 0 e). lia.
  - left. split.
    + apply Qlt_le_weak, finite_pos_value.
    + apply (binary_normalize_rn prec emax Hprec (Z.pos p) e). lia.
  - right. simpl.
    assert (F (Z.neg p) e == - F (Z.pos p) e)%Q as E
      by (rewrite <- F_opp; reflexivity).
    split; [pose proof (finite_pos_value p e); lra|].
    destruct (binary_round_nearest prec emax Hprec true p e)
      as (m' & e' & -> & Hm' & He' & Hn & Hfloor & Hceil & Hnear).
    exists (pack prec emax false m' e'). split.
    + apply (rn_ext prec emax (F (Z.pos p) e)); [lra|].
      exists m', e'. repeat split; try assumption; try lia; apply Hnear.
    + apply pack_opp. lia.
Qed.

Theorem SFsub_rs (x y : spec_float) :
  valid prec emax x -> valid prec emax y -> nn x -> nn y ->
  rs (SF2Q x - SF2Q y) (SFsub prec emax x y).
Proof.
  intros Vx Vy Hx Hy.
  destruct x as [[|]|sx| |[|] mx ex]; simpl in Hx; try tauto;
    destruct y as [[|]|sy| |[|] my ey]; simpl in Hy; try tauto.
  - left. simpl. split; [lra|]. apply (rn_zero prec emax Hprec). lra.
  - right. simpl. pose proof (finite_pos_value my ey). split; [lra|].
    exists (S754_finite false my ey). split; [|reflexivity].
    apply (rn_ext prec emax (SF2Q (S754_finite false my ey)));
      [simpl; lra|].
    now apply (rn_exact prec emax Hprec).
  - left. simpl. pose proof (finite_pos_value mx ex). split; [lra|].
    apply (rn_ext prec emax (SF2Q (S754_finite false mx ex)));
      [simpl; lra|].
    now apply (rn_exact prec emax Hprec).
  - simpl.
    pose proof (shl_align_spec mx ex (Z.min ex ey)) as Hax.
    pose proof (shl_align_spec my ey (Z.min ex ey)) as Hay.
    destruct (shl_align mx ex (Z.min ex ey)) as [mx' ex'].
    destruct (shl_align my ey (Z.min ex ey)) as [my' ey'].
    destruct Hax as (EFx & Eex & _). destruct Hay as (EFy & Eey & _).
    simpl fst.
    assert (ex' = Z.min ex ey) as E1 by lia.
    assert (ey' = Z.min ex ey) as E2 by lia.
    rewrite E1 in EFx. rewrite E2 in EFy.
    pose proof (binary_normalize_rs (Z.pos mx' - Z.pos my') (Z.min ex ey))
      as Hrs.
    assert (F (Z.pos mx' - Z.pos my') (Z.min ex ey)
            == F (Z.pos mx) ex - F (Z.pos my) ey)%Q as E.
    { replace (Z.pos mx' - Z.pos my') with (Z.pos mx' + - Z.pos my') by lia.
      rewrite F_add, F_opp, EFx, EFy. ring. }
    destruct Hrs as [[P H]|[N (z' & H & Ez)]].
    + left. split; [lra|]. eapply rn_ext; [exact E|exact H].
    + right. split; [lra|]. exists z'. split; [|exact Ez].
      eapply rn_ext; [|exact H]. lra.
Qed.

End Format.

Local Open Scope float_scope.

Lemma sub_rs (a b : float) :
  nnf a -> nnf b -> rs prec emax (B2Q a - B2Q b) (Prim2SF (a - b)).
Proof.
  intros Ha Hb. rewrite sub_spec.
  apply (SFsub_rs prec emax Hprec); try assumption; apply valid_prim.
Qed.

Lemma sub_num (a b : float) : nnf a -> nnf b -> FloatOrder.num (a - b).
Proof.
  intros Ha Hb. unfold FloatOrder.num. rewrite sub_spec.
  apply (SFsub_not_nan prec emax Hprec); [exact Ha|].
  unfold nnf in Hb. destruct (Prim2SF b); simpl in Hb; try contradiction;
    discriminate.
Qed.

(** Subtracting more leaves less. *)
Theorem sub_le (c a a' : float) :
  nnf c -> nnf a -> nnf a' -> (a <=? a') = true ->
  (c - a' <=? c - a) = true.
Proof.
  intros Hc Ha Ha' Hle.
  apply leb_value in Hle; [|assumption|assumption].
  destruct (Qlt_le_dec (B2Q a) (B2Q a')) as [Hlt|Hge].
  - rewrite leb_spec.
    apply (rs_le prec emax Hprec (B2Q c - B2Q a') (B2Q c - B2Q a));
      [now apply sub_rs|now apply sub_rs|lra].
  - assert (a = a') as <-
      by (apply Monotone.nnf_inj; [assumption|assumption|lra]).
    apply FloatOrder.leb_refl. now apply sub_num.
Qed.

(** A difference is at most what it is taken from. *)
Theorem sub_le_left (c a : float) : nnf c -> nnf a -> (c - a <=? c) = true.
Proof.
  intros Hc Ha.
  destruct (Monotone.nnf_zero_or_pos a Ha) as [Ez|Hpos].
  - assert (c - a = c) as ->.
    { apply Prim2SF_inj. rewrite sub_spec, Ez. unfold nnf in Hc.
      destruct (Prim2SF c) as [[|]|s| |[|] m e]; simpl in *; tauto. }
    apply FloatOrder.leb_refl. unfold FloatOrder.num. unfold nnf in Hc.
    destruct (Prim2SF c); simpl in Hc; try contradiction; discriminate.
  - rewrite leb_spec.
    apply (rs_le prec emax Hprec (B2Q c - B2Q a) (B2Q c));
      [now apply sub_rs| |lra].
    left. split; [apply nn_value, Hc|].
    apply (rn_exact prec emax Hprec); [apply valid_prim|exact Hc].
Qed.

End Signed.

(** ** The trajectories with washes lie above the one without *)

Section TrajectoryOrder.

Import Dashboard Round Double.
Local Open Scope float_scope.

Variables rate rf : float.
Hypothesis rate_ub : ub rate (1 / 16).
Hypothesis recovery_ub : ub (1 - rf) 1.

Lemma deg_entering_none (k : nat) :
  (k <= 2000)%nat ->
  Spec.deg_entering rate rf None k = Spec.deg_entering rate rf (Some 2001%Z) k.
Proof.
  induction k as [|k IH]; intros Hk; [reflexivity|]. simpl.
  rewrite IH by lia. rewrite Z.mod_small by lia.
  destruct (Z.eqb_spec (Z.of_nat k + 1) 0); [lia|reflexivity].
Qed.

Lemma hundred_nnf : nnf 100.
Proof. vm_compute. exact I. Qed.

Lemma eff_order (iv : Z) (c : nat) :
  (c <= 2000)%nat ->
  (eff_entering rate rf None c <=? eff_entering rate rf (Some iv) c) = true
  /\ (eff_entering rate rf (Some iv) c <=? 100) = true.
Proof.
  intros Hc. unfold eff_entering.
  rewrite deg_entering_none by exact Hc.
  rewrite !deg_entering_wash_after.
  destruct (wash_below_no_wash rate rf rate_ub recovery_ub iv c Hc)
    as [Hle _].
  destruct (wash_after_bounds rate rf rate_ub recovery_ub iv c Hc)
    as [[Hw _] _].
  destruct (wash_after_bounds rate rf rate_ub recovery_ub 2001%Z c Hc)
    as [[Hn _] _].
  split.
  - apply Signed.sub_le; try assumption. exact hundred_nnf.
  - apply Signed.sub_le_left; [exact hundred_nnf|exact Hw].
Qed.

End TrajectoryOrder.

(** X22. Within the widgets' bounds, at every flight of the year the
    efficiency recorded on the optimized trajectory and on that of two
    washes a year is at least the one recorded without washing, and at
    most 100 (on binary64, rounding included). *)
Theorem washed_trajectories_lie_above
    (s : Inputs.sidebar) (r : Inputs.report) (c : nat) (no two opt : float) :
  Inputs.widget_bounds s ->
  Inputs.run s = Some r ->
  let t := Inputs.r_trajectories r in
  nth_error (Dashboard.eff_no t) c = Some no ->
  nth_error (Dashboard.eff_two t) c = Some two ->
  nth_error (Dashboard.eff_opt t) c = Some opt ->
  (no <=? two)%float = true /\ (no <=? opt)%float = true
  /\ (two <=? 100)%float = true /\ (opt <=? 100)%float = true.
Proof.
  intros Hw Hrun t Hno Htwo Hopt. subst t.
  destruct (run_inv s r Hrun) as (Hm & _ & _ & _ & _ & Ht).
  destruct (sidebar_model_bounds s _ Hw Hm) as (HN & _ & _ & Hrate & Hrf).
  rewrite Ht in Hno, Htwo, Hopt.
  destruct (trajectories_lists (Inputs.flights_per_year s)
              (Inputs.degradation_rate (Inputs.r_model r))
              (Inputs.recovery_factor (Inputs.r_model r))
              (Dashboard.opt_interval (Inputs.r_optimum r)))
    as (Eno & Etwo & Eopt).
  rewrite Eno in Hno. rewrite Etwo in Htwo. rewrite Eopt in Hopt.
  assert (c < Z.to_nat (Inputs.flights_per_year s))%nat as Hc.
  { assert (nth_error
              (map (eff_entering (Inputs.degradation_rate (Inputs.r_model r))
                      (Inputs.recovery_factor (Inputs.r_model r)) None)
                   (seq 0 (Z.to_nat (Inputs.flights_per_year s)))) c
            <> None) as Hsome by congruence.
    apply nth_error_Some in Hsome.
    rewrite length_map, length_seq in Hsome. exact Hsome. }
  rewrite eff_entering_nth in Hno, Htwo, Hopt by exact Hc.
  inversion Hno; subst no. inversion Htwo; subst two.
  inversion Hopt; subst opt.
  destruct (eff_order _ _ Hrate Hrf
              (Dashboard.interval_two (Inputs.flights_per_year s)) c
              ltac:(lia)) as [A1 A2].
  destruct (eff_order _ _ Hrate Hrf
              (Dashboard.opt_interval (Inputs.r_optimum r)) c
              ltac:(lia)) as [B1 B2].
  repeat split; assumption.
Qed.

Lemma washed_trajectories_lie_above_witness :
  exists r no two opt,
    Inputs.run (Inputs.Sidebar false None 630 620 2.5 100 0.8 4000
                  0.012 92 1250 1230 40) = Some r
    /\ nth_error (Dashboard.eff_no (Inputs.r_trajectories r)) 60 = Some no
    /\ nth_error (Dashboard.eff_two (Inputs.r_trajectories r)) 60 = Some two
    /\ nth_error (Dashboard.eff_opt (Inputs.r_trajectories r)) 60 = Some opt
    /\ (no <=? two)%float = true /\ (no <=? opt)%float = true.
Proof.
  eexists. eexists. eexists. eexists.
  split; [vm_compute; reflexivity|].
  split; [vm_compute; reflexivity|].
  split; [vm_compute; reflexivity|].
  split; [vm_compute; reflexivity|].
  match goal with
  | |- (?a <=? ?b)%float = true /\ (_ <=? ?c)%float = true =>
      refine (let H := washed_trajectories_lie_above
                         (Inputs.Sidebar false None 630 620 2.5 100 0.8 4000
                            0.012 92 1250 1230 40) _ 60%nat a b c _ _ _ _ _
              in conj (proj1 H) (proj1 (proj2 H)))
  end.
  - unfold Inputs.widget_bounds. simpl. repeat split; try lia; reflexivity.
  - vm_compute. reflexivity.
  - vm_compute. reflexivity.
  - vm_compute. reflexivity.
  - vm_compute. reflexivity.
Defined.

(** ** The KPIs grow with the measured improvement *)

Section KpiMonotone.

Import Dashboard Round Double Monotone Inputs.
Local Open Scope float_scope.

(** Two finite non-negative doubles in order, both at most [c]. *)
Definition leu (a b : float) (c : Q) : Prop :=
  ub a c /\ ub b c /\ (a <=? b) = true.

Lemma leu_mul_r (a b k : float) (c ck v : Q) :
  leu a b c -> ub k ck -> dyadic v -> (c * ck <= v)%Q ->
  leu (a * k) (b * k) v.
Proof.
  intros (Ha & Hb & Hle) Hk Hv Hc.
  split; [eapply mul_ub; eassumption|].
  split; [eapply mul_ub; eassumption|].
  apply mul_le_r; [exact (proj1 Hk)|exact (proj1 Ha)|exact (proj1 Hb)|].
  exact Hle.
Qed.

Lemma leu_mul_l (a b k : float) (c ck v : Q) :
  leu a b c -> ub k ck -> dyadic v -> (ck * c <= v)%Q ->
  leu (k * a) (k * b) v.
Proof.
  intros (Ha & Hb & Hle) Hk Hv Hc.
  split; [eapply mul_ub; eassumption|].
  split; [eapply mul_ub; eassumption|].
  apply mul_le_l; [exact (proj1 Hk)|exact (proj1 Ha)|exact (proj1 Hb)|].
  exact Hle.
Qed.

Lemma leu_div (a b k : float) (c : Q) (mk : positive) (ek : Z) :
  leu a b c -> Prim2SF k = S754_finite false mk ek -> (1 <= B2Q k)%Q ->
  dyadic c -> leu (a / k) (b / k) c.
Proof.
  intros (Ha & Hb & Hle) Ek Hk1 Hc.
  split; [eapply div_ub; try eassumption; apply Qle_refl|].
  split; [eapply div_ub; try eassumption; apply Qle_refl|].
  eapply div_le; [exact (proj1 Ha)|exact (proj1 Hb)|exact Ek|exact Hle].
Qed.

Lemma float_of_int_rn (z : Z) :
  (0 <= z)%Z ->
  Nearest.rn prec emax (inject_Z z) (Prim2SF (Py.float_of_int z)).
Proof.
  intros Hz. unfold Py.float_of_int.
  rewrite Prim2SF_SF2Prim by apply (binary_normalize_valid prec emax Hprec).
  eapply Nearest.rn_ext;
    [|apply (Nearest.binary_normalize_rn prec emax Hprec z 0 Hz)].
  unfold F. rewrite bpow_0. ring.
Qed.

Lemma leu_float_of_int (a b c : Z) :
  (0 <= a <= b)%Z -> (b <= c)%Z -> (c < 2 ^ 53)%Z ->
  leu (Py.float_of_int a) (Py.float_of_int b) (inject_Z c).
Proof.
  intros Hab Hbc Hc.
  split; [apply float_of_int_ub; lia|].
  split; [apply float_of_int_ub; lia|].
  destruct (Z.eq_dec a b) as [->|NE].
  - eapply rn_leb_refl, float_of_int_rn. lia.
  - eapply rn_leb; [apply float_of_int_rn|apply float_of_int_rn|]; try lia.
    rewrite <- Zlt_Qlt. lia.
Qed.

Ltac dy k := apply (dyadic_Z k); rewrite pow53; lia.

Lemma kpi_mono (s : sidebar) (m1 m2 : model) :
  leu (dSFC m1) (dSFC m2) 524288 ->
  ub (flight_time s) 10 -> ub (fuel_price s) 3 ->
  (0 <= flights_per_year s <= 2000)%Z ->
  let k1 := core_calcs s m1 in
  let k2 := core_calcs s m2 in
  (fuel_saved_flight k1 <=? fuel_saved_flight k2) = true
  /\ (CO2_saved_flight k1 <=? CO2_saved_flight k2) = true
  /\ (CO2_saved_annual k1 <=? CO2_saved_annual k2) = true
  /\ (cost_saved_annual k1 <=? cost_saved_annual k2) = true.
Proof.
  intros Hd Ht Hp HN k1 k2. subst k1 k2. unfold core_calcs. cbn.
  destruct hundred_finite as (m100 & e100 & E100 & H100).
  assert (ub fuel_flow 1) as Hf by (apply ubb_ub; vm_compute; reflexivity).
  assert (ub 3600 3600) as H36 by (apply ubb_ub; vm_compute; reflexivity).
  assert (ub CF 4) as Hcf by (apply ubb_ub; vm_compute; reflexivity).
  assert (exists m e, Prim2SF 1000 = S754_finite false m e
                      /\ (1 <= B2Q 1000)%Q) as (mk & ek & Ek & Hk).
  { eexists; eexists; split; [vm_compute; reflexivity|].
    vm_compute. discriminate. }
  pose proof (float_of_int_ub (flights_per_year s) 2000%Z HN
                ltac:(rewrite pow53; lia)) as HNf.
  assert (leu (dSFC m1 / 100) (dSFC m2 / 100) 524288) as H1.
  { eapply leu_div; try eassumption. dy 524288%Z. }
  assert (leu (fuel_flow * (dSFC m1 / 100)) (fuel_flow * (dSFC m2 / 100))
              524288) as H2.
  { eapply leu_mul_l; [exact H1|exact Hf|dy 524288%Z|].
    vm_compute. discriminate. }
  assert (leu (fuel_flow * (dSFC m1 / 100) * flight_time s)
              (fuel_flow * (dSFC m2 / 100) * flight_time s) 5242880) as H3.
  { eapply leu_mul_r; [exact H2|exact Ht|dy 5242880%Z|].
    vm_compute. discriminate. }
  assert (leu (fuel_flow * (dSFC m1 / 100) * flight_time s * 3600)
              (fuel_flow * (dSFC m2 / 100) * flight_time s * 3600)
              18874368000) as H4.
  { eapply leu_mul_r; [exact H3|exact H36|dy 18874368000%Z|].
    vm_compute. discriminate. }
  assert (leu (fuel_flow * (dSFC m1 / 100) * flight_time s * 3600 * CF)
              (fuel_flow * (dSFC m2 / 100) * flight_time s * 3600 * CF)
              75497472000) as H5.
  { eapply leu_mul_r; [exact H4|exact Hcf|dy 75497472000%Z|].
    vm_compute. discriminate. }
  split; [exact (proj2 (proj2 H4))|]. split; [exact (proj2 (proj2 H5))|].
  split.
  - assert (leu (fuel_flow * (dSFC m1 / 100) * flight_time s * 3600 * CF
                 * Py.float_of_int (flights_per_year s))
                (fuel_flow * (dSFC m2 / 100) * flight_time s * 3600 * CF
                 * Py.float_of_int (flights_per_year s))
                150994944000000) as H6.
    { eapply leu_mul_r; [exact H5|exact HNf|dy 150994944000000%Z|].
      vm_compute. discriminate. }
    eapply leu_div; try eassumption. dy 150994944000000%Z.
  - assert (leu (fuel_flow * (dSFC m1 / 100) * flight_time s * 3600
                 * Py.float_of_int (flights_per_year s))
                (fuel_flow * (dSFC m2 / 100) * flight_time s * 3600
                 * Py.float_of_int (flights_per_year s))
                37748736000000) as H6.
    { eapply leu_mul_r; [exact H4|exact HNf|dy 37748736000000%Z|].
      vm_compute. discriminate. }
    eapply (leu_mul_r _ _ _ _ _ 113246208000000%Q); [exact H6|exact Hp| |].
    + dy 113246208000000%Z.
    + vm_compute. discriminate.
Qed.

Lemma dSFC_simulation_mono (b1 a1 b2 a2 : Z) :
  (0 <= b1 - a1 <= b2 - a2)%Z -> (b2 - a2 <= 400)%Z ->
  leu (dSFC_simulation b1 a1) (dSFC_simulation b2 a2) 524288.
Proof.
  intros H1 H2. unfold dSFC_simulation.
  assert (ub 0.08 1) as H8 by (apply ubb_ub; vm_compute; reflexivity).
  eapply leu_mul_l; [|exact H8|dy 524288%Z|].
  - apply (leu_float_of_int _ _ 400%Z); [lia|lia|rewrite pow53; lia].
  - vm_compute. discriminate.
Qed.

Lemma dSFC_manual_mono (pre post1 post2 : Z) :
  (400 <= post2 <= post1)%Z -> (post1 <= pre)%Z -> (pre <= 4000)%Z ->
  exists d1 d2,
    dSFC_manual pre post1 = Some d1 /\ dSFC_manual pre post2 = Some d2
    /\ leu d1 d2 524288.
Proof.
  intros H1 H2 H3. unfold dSFC_manual, truediv.
  destruct (Z.eqb_spec pre 0) as [E|_]; [lia|].
  eexists. eexists. split; [reflexivity|]. split; [reflexivity|].
  destruct (float_of_int_ge_1 pre) as (mp & ep & Ep & Hp1);
    [rewrite pow53; lia|].
  assert (ub 100 100) as Hh by (apply ubb_ub; vm_compute; reflexivity).
  eapply leu_mul_r; [|exact Hh|dy 524288%Z|].
  - eapply (leu_div _ _ _ 3600%Q); try eassumption.
    + apply (leu_float_of_int _ _ 3600%Z); [lia|lia|rewrite pow53; lia].
    + dy 3600%Z.
  - vm_compute. discriminate.
Qed.

End KpiMonotone.

(** X23. Within the widgets' bounds and with no uploaded table, of two runs in
    the same mode with the same flight time, flights per year and fuel
    price, the one with the larger improvement (the larger EGT drop in
    Simulation mode; the lower post-wash fuel flow, for the same pre-wash
    fuel flow, in QAR mode) shows a ΔSFC and four KPIs that are at least
    those of the other (on binary64, rounding included), as long as the
    wash did not make things worse. *)
Theorem kpis_grow_with_improvement
    (s1 s2 : Inputs.sidebar) (m1 m2 : Inputs.model) :
  Inputs.widget_bounds s1 -> Inputs.widget_bounds s2 ->
  Inputs.qar_df s1 = None -> Inputs.qar_df s2 = None ->
  Inputs.qar_mode s1 = Inputs.qar_mode s2 ->
  Inputs.flight_time s1 = Inputs.flight_time s2 ->
  Inputs.flights_per_year s1 = Inputs.flights_per_year s2 ->
  Inputs.fuel_price s1 = Inputs.fuel_price s2 ->
  (if Inputs.qar_mode s1
   then Inputs.fuel_flow_pre_input s1 = Inputs.fuel_flow_pre_input s2
        /\ Inputs.fuel_flow_post_input s2 <= Inputs.fuel_flow_post_input s1
           <= Inputs.fuel_flow_pre_input s1
   else 0 <= Inputs.EGT_before s1 - Inputs.EGT_after s1
             <= Inputs.EGT_before s2 - Inputs.EGT_after s2) ->
  Inputs.mode_inputs s1 = Some m1 -> Inputs.mode_inputs s2 = Some m2 ->
  let k1 := Inputs.core_calcs s1 m1 in
  let k2 := Inputs.core_calcs s2 m2 in
  (Inputs.dSFC m1 <=? Inputs.dSFC m2)%float = true
  /\ (Inputs.fuel_saved_flight k1 <=? Inputs.fuel_saved_flight k2)%float
     = true
  /\ (Inputs.CO2_saved_flight k1 <=? Inputs.CO2_saved_flight k2)%float = true
  /\ (Inputs.CO2_saved_annual k1 <=? Inputs.CO2_saved_annual k2)%float = true
  /\ (Inputs.cost_saved_annual k1 <=? Inputs.cost_saved_annual k2)%float
     = true.
Proof.
  intros Hw1 Hw2 Hdf1 Hdf2 Hq Ht HN Hp Himp Hm1 Hm2 k1 k2. subst k1 k2.
  destruct (sidebar_model_bounds s2 m2 Hw2 Hm2) as (HN2 & Ht2 & Hp2 & _ & _).
  assert (leu (Inputs.dSFC m1) (Inputs.dSFC m2) 524288) as Hd.
  { destruct Hw1 as (Hb1 & Ha1 & _ & _ & _ & _ & _ & _ & _ & _ & _ & Hpre1
                     & Hpost1 & _).
    destruct Hw2 as (Hb2 & Ha2 & _ & _ & _ & _ & _ & _ & _ & _ & _ & Hpre2
                     & Hpost2 & _).
    unfold Inputs.mode_inputs in Hm1, Hm2.
    rewrite Hdf1 in Hm1. rewrite Hdf2 in Hm2. rewrite <- Hq in Hm2.
    destruct (Inputs.qar_mode s1).
    - destruct Himp as [Epre Hpost]. rewrite <- Epre in Hm2.
      destruct (dSFC_manual_mono (Inputs.fuel_flow_pre_input s1)
                  (Inputs.fuel_flow_post_input s1)
                  (Inputs.fuel_flow_post_input s2))
        as (d1 & d2 & E1 & E2 & Hle); [lia|lia|lia|].
      rewrite E1 in Hm1. rewrite E2 in Hm2.
      inversion Hm1. inversion Hm2. exact Hle.
    - inversion Hm1. inversion Hm2. cbn.
      apply dSFC_simulation_mono; lia. }
  assert (0 <= Inputs.flights_per_year s2 <= 2000) as HN'.
  { destruct Hw2 as (_ & _ & _ & _ & H & _). lia. }
  split; [exact (proj2 (proj2 Hd))|].
  pose proof (kpi_mono s2 m1 m2 Hd Ht2 Hp2 HN') as H.
  unfold Inputs.core_calcs in *. cbn in *. rewrite Ht, HN, Hp. exact H.
Qed.

Lemma kpis_grow_with_improvement_witness :
  let s1 := Inputs.Sidebar false None 630 620 2.5 600 0.8 4000
              0.012 92 1250 1230 120 in
  let s2 := Inputs.Sidebar false None 640 620 2.5 600 0.8 4000
              0.012 92 1250 1230 120 in
  let m1 := Inputs.Model Dashboard.deg_rate_default
              Dashboard.recovery_default (Inputs.dSFC_simulation 630 620)
              None in
  let m2 := Inputs.Model Dashboard.deg_rate_default
              Dashboard.recovery_default (Inputs.dSFC_simulation 640 620)
              None in
  (Inputs.cost_saved_annual (Inputs.core_calcs s1 m1)
   <=? Inputs.cost_saved_annual (Inputs.core_calcs s2 m2))%float = true.
Proof.
  cbv zeta.
  refine (proj2 (proj2 (proj2 (proj2
            (kpis_grow_with_improvement
               (Inputs.Sidebar false None 630 620 2.5 600 0.8 4000
                  0.012 92 1250 1230 120)
               (Inputs.Sidebar false None 640 620 2.5 600 0.8 4000
                  0.012 92 1250 1230 120)
               (Inputs.Model Dashboard.deg_rate_default
                  Dashboard.recovery_default
                  (Inputs.dSFC_simulation 630 620) None)
               (Inputs.Model Dashboard.deg_rate_default
                  Dashboard.recovery_default
                  (Inputs.dSFC_simulation 640 620) None)
               _ _ _ _ _ _ _ _ _ _ _)))));
    try reflexivity;
    try (unfold Inputs.widget_bounds; simpl; repeat split; try lia;
         reflexivity).
Defined.

(** ** The colour range of the heatmap *)

Section ColourRange.

Import Heatmap FloatOrder.
Local Open Scope float_scope.

Lemma fmin_le (a b : float) :
  (is_nan a = false -> is_nan (fmin a b) = false /\ (fmin a b <=? a) = true)
  /\ (is_nan b = false ->
      is_nan (fmin a b) = false /\ (fmin a b <=? b) = true).
Proof.
  unfold fmin.
  destruct (is_nan a) eqn:Ea, (is_nan b) eqn:Eb;
    (split; [intros Ha|intros Hb]); try discriminate;
    try (split; [assumption|apply leb_refl, is_nan_false; assumption]).
  - destruct (a <=? b) eqn:E.
    + split; [exact Ea|apply leb_refl, is_nan_false, Ea].
    + split; [exact Eb|].
      apply ltb_leb, not_leb_ltb; [apply is_nan_false, Ea
                                  |apply is_nan_false, Eb|exact E].
  - destruct (a <=? b) eqn:E.
    + split; [exact Ea|exact E].
    + split; [exact Eb|apply leb_refl, is_nan_false, Eb].
Qed.

Lemma fmax_ge (a b : float) :
  (is_nan a = false -> is_nan (fmax a b) = false /\ (a <=? fmax a b) = true)
  /\ (is_nan b = false ->
      is_nan (fmax a b) = false /\ (b <=? fmax a b) = true).
Proof.
  unfold fmax.
  destruct (is_nan a) eqn:Ea, (is_nan b) eqn:Eb;
    (split; [intros Ha|intros Hb]); try discriminate;
    try (split; [assumption|apply leb_refl, is_nan_false; assumption]).
  - destruct (b <=? a) eqn:E.
    + split; [exact Ea|apply leb_refl, is_nan_false, Ea].
    + split; [exact Eb|].
      apply ltb_leb, not_leb_ltb; [apply is_nan_false, Eb
                                  |apply is_nan_false, Ea|exact E].
  - destruct (b <=? a) eqn:E.
    + split; [exact Ea|exact E].
    + split; [exact Eb|apply leb_refl, is_nan_false, Eb].
Qed.

Lemma fold_fmin_le (l : list float) :
  forall acc x,
    x = acc \/ In x l -> is_nan x = false ->
    is_nan (fold_left fmin l acc) = false
    /\ (fold_left fmin l acc <=? x) = true.
Proof.
  induction l as [|y l IH]; intros acc x Hx Hn; simpl.
  - destruct Hx as [->|[]]. split; [exact Hn|].
    apply leb_refl, is_nan_false, Hn.
  - destruct (fmin_le acc y) as [Hl Hr].
    destruct Hx as [->|[->|Hin]].
    + destruct (Hl Hn) as [Hm Hle].
      destruct (IH (fmin acc y) (fmin acc y) (or_introl eq_refl) Hm)
        as [Hf Hfle].
      split; [exact Hf|]. eapply leb_trans; eassumption.
    + destruct (Hr Hn) as [Hm Hle].
      destruct (IH (fmin acc x) (fmin acc x) (or_introl eq_refl) Hm)
        as [Hf Hfle].
      split; [exact Hf|]. eapply leb_trans; eassumption.
    + apply IH; [right; exact Hin|exact Hn].
Qed.

Lemma fold_fmax_ge (l : list float) :
  forall acc x,
    x = acc \/ In x l -> is_nan x = false ->
    is_nan (fold_left fmax l acc) = false
    /\ (x <=? fold_left fmax l acc) = true.
Proof.
  induction l as [|y l IH]; intros acc x Hx Hn; simpl.
  - destruct Hx as [->|[]]. split; [exact Hn|].
    apply leb_refl, is_nan_false, Hn.
  - destruct (fmax_ge acc y) as [Hl Hr].
    destruct Hx as [->|[->|Hin]].
    + destruct (Hl Hn) as [Hm Hle].
      destruct (IH (fmax acc y) (fmax acc y) (or_introl eq_refl) Hm)
        as [Hf Hfle].
      split; [exact Hf|]. eapply leb_trans; eassumption.
    + destruct (Hr Hn) as [Hm Hle].
      destruct (IH (fmax acc x) (fmax acc x) (or_introl eq_refl) Hm)
        as [Hf Hfle].
      split; [exact Hf|]. eapply leb_trans; eassumption.
    + apply IH; [right; exact Hin|exact Hn].
Qed.

End ColourRange.

(** X24. Every cell of the heatmap that holds a number lies within the colour
    range [zmin, zmax] the fleet page computes, and the two ends are
    numbers as soon as one cell is: blank cells (NaN) do not spoil the
    range. *)
Theorem heatmap_range_covers_cells
    (cells : list float) (zmin zmax x : float) :
  Heatmap.colour_range cells = Some (zmin, zmax) ->
  In x cells -> is_nan x = false ->
  (zmin <=? x)%float = true /\ (x <=? zmax)%float = true
  /\ is_nan zmin = false /\ is_nan zmax = false.
Proof.
  unfold Heatmap.colour_range, Heatmap.nanmin, Heatmap.nanmax.
  destruct cells as [|c l]; [discriminate|].
  intros H Hin Hn. inversion H; subst zmin zmax. clear H.
  assert (x = c \/ In x l) as Hx by (destruct Hin as [->|Hin]; auto).
  destruct (fold_fmin_le l c x Hx Hn) as [A1 A2].
  destruct (fold_fmax_ge l c x Hx Hn) as [B1 B2].
  repeat split; assumption.
Qed.

Lemma heatmap_range_covers_cells_witness :
  (1.5 <=? 2.5)%float = true /\ (2.5 <=? 3.5)%float = true.
Proof.
  refine (let H := heatmap_range_covers_cells
                     [2.5; nan; 1.5; 3.5]%float 1.5 3.5 2.5 _ _ _
          in conj (proj1 H) (proj1 (proj2 H))).
  - reflexivity.
  - left. reflexivity.
  - reflexivity.
Defined.

(** ** Every flight burns at least its nominal share *)

Section BurnLowerBound.

Import Dashboard Round Double.
Local Open Scope float_scope.

(** A sum of finite non-negative doubles that does not overflow is at
    least every value of the format below the exact sum. *)
Lemma add_lb (a b : float) (v : Q) :
  nnf a -> nnf b -> nnf (a + b) -> dyadic v ->
  (v <= B2Q a + B2Q b)%Q -> (v <= B2Q (a + b))%Q.
Proof.
  intros Ha Hb Hab Hv Hle.
  destruct (SFadd_rounds prec emax Hprec _ _ Ha Hb) as (_ & Hlow & _).
  unfold nnf, B2Q in *. rewrite add_spec in *.
  destruct (Hlow v (repb_rep prec emax v Hv) Hle) as [Einf|H]; [|exact H].
  unfold SF64add in *. rewrite Einf in Hab. contradiction.
Qed.

Variables rate rf : float.
Hypothesis rate_ub : ub rate (1 / 16).
Hypothesis recovery_ub : ub (1 - rf) 1.
Variable iv : Z.

Lemma burn_at_least_flights (k : nat) :
  (k <= 2000)%nat ->
  (inject_Z (Z.of_nat k) <= B2Q (fuel_burn (wash_after rate rf iv k)))%Q.
Proof.
  induction k as [|k IH]; intros Hk.
  - vm_compute. discriminate.
  - specialize (IH ltac:(lia)).
    destruct (wash_after_bounds rate rf rate_ub recovery_ub iv k ltac:(lia))
      as [Hd Hb].
    destruct (wash_after_bounds rate rf rate_ub recovery_ub iv (S k) Hk)
      as [_ Hb'].
    destruct (increment_nnf rate rate_ub (deg (wash_after rate rf iv k))
                (Z.of_nat k) ltac:(lia) Hd) as (Hq & Hinc & _).
    revert Hb'. unfold wash_after. rewrite range_prefix, fold_left_snoc.
    fold (wash_after rate rf iv k). unfold wash_body. cbn [fuel_burn].
    intros Hb'.
    assert (2 ^ 53 = 9007199254740992)%Z as E53 by reflexivity.
    assert (1 <= B2Q (1 + deg (wash_after rate rf iv k) / 100))%Q as H1.
    { apply add_lb; [exact (proj1 one_ub)|exact Hq|exact Hinc| |].
      - apply (dyadic_Z 1). lia.
      - pose proof (nn_value _ Hq) as Hq0.
        fold (B2Q (deg (wash_after rate rf iv k) / 100)) in Hq0.
        assert (B2Q 1 == 1)%Q as E1 by reflexivity. lra. }
    apply add_lb; [exact (proj1 Hb)|exact Hinc|exact (proj1 Hb')| |].
    + apply dyadic_Z. lia.
    + rewrite Nat2Z.inj_succ. unfold Z.succ. rewrite inject_Z_plus.
      change (inject_Z 1) with 1%Q. lra.
Qed.

Lemma float_of_int_exact (z : Z) :
  (0 <= z < 2 ^ 53)%Z ->
  nnf (Py.float_of_int z) /\ (B2Q (Py.float_of_int z) == inject_Z z)%Q.
Proof.
  intros Hz.
  destruct (float_of_int_rounds z ltac:(lia)) as (_ & Hlow & Hup).
  destruct (Hup (inject_Z z)) as [Hnn Hle];
    [apply dyadic_Z; exact Hz|apply Qle_refl|].
  split; [exact Hnn|].
  destruct (Hlow (inject_Z z)) as [Einf|Hge].
  - apply repb_rep, dyadic_Z, Hz.
  - apply Qle_refl.
  - rewrite Einf in Hnn. contradiction.
  - unfold B2Q. lra.
Qed.

Lemma wash_loop_burn_ge (N : Z) :
  (0 <= N <= 2000)%Z ->
  (Py.float_of_int N <=? fuel_burn (wash_loop N rate rf iv)) = true.
Proof.
  intros HN.
  assert (2 ^ 53 = 9007199254740992)%Z as E53 by reflexivity.
  destruct (float_of_int_exact N ltac:(lia)) as [Hn En].
  destruct (wash_after_bounds rate rf rate_ub recovery_ub iv (Z.to_nat N)
              ltac:(lia)) as [_ Hb].
  pose proof (burn_at_least_flights (Z.to_nat N) ltac:(lia)) as Hge.
  rewrite Z2Nat.id in Hge by lia.
  apply leb_value; [exact Hn|exact (proj1 Hb)|].
  rewrite En. exact Hge.
Qed.

End BurnLowerBound.

(** X25. Within the widgets' bounds and for every interval, the cumulative fuel
    burn of the year lies between the number of flights (each flight burns
    at least its nominal share, 1.0) and the burn of the year without
    washing (on binary64, rounding included). *)
Theorem fuel_burn_bracket
    (s : Inputs.sidebar) (m : Inputs.model) (iv : Z) :
  Inputs.widget_bounds s ->
  Inputs.mode_inputs s = Some m ->
  0 < iv ->
  let burn :=
    Dashboard.fuel_burn
      (Dashboard.wash_loop (Inputs.flights_per_year s)
         (Inputs.degradation_rate m) (Inputs.recovery_factor m) iv) in
  (Py.float_of_int (Inputs.flights_per_year s) <=? burn)%float = true
  /\ (burn <=? Dashboard.fuel_burn
                 (Dashboard.baseline_loop (Inputs.flights_per_year s)
                    (Inputs.degradation_rate m)))%float = true.
Proof.
  intros Hw Hm _ burn. subst burn.
  destruct (sidebar_model_bounds s m Hw Hm) as (HN & _ & _ & Hr & Hrf).
  assert (0 <= Inputs.flights_per_year s) as HN0.
  { destruct Hw as (_ & _ & _ & _ & H & _). lia. }
  split.
  - apply wash_loop_burn_ge; [exact Hr|exact Hrf|lia].
  - now apply wash_loop_burn_le.
Qed.

Lemma fuel_burn_bracket_witness :
  (Py.float_of_int 600
   <=? Dashboard.fuel_burn
         (Dashboard.wash_loop 600 Dashboard.deg_rate_default
            Dashboard.recovery_default 90))%float = true.
Proof.
  refine (proj1 (fuel_burn_bracket
                   (Inputs.Sidebar false None 630 620 2.5 600 0.8 4000
                      0.012 92 1250 1230 120)
                   (Inputs.Model Dashboard.deg_rate_default
                      Dashboard.recovery_default
                      (Inputs.dSFC_simulation 630 620) None) 90 _ _ _)).
  - unfold Inputs.widget_bounds. simpl. repeat split; try lia; reflexivity.
  - reflexivity.
  - lia.
Defined.

(** ** The net saving against the fuel saving *)

Section NetSaving.

Import Dashboard Round Double.
Local Open Scope float_scope.

Variables rate rf flight_time fuel_price : float.
Hypothesis rate_ub : ub rate (1 / 16).
Hypothesis recovery_ub : ub (1 - rf) 1.
Hypothesis time_ub : ub flight_time 10.
Hypothesis price_ub : ub fuel_price 3.
Variables N wash_cost iv : Z.
Hypothesis flights_bounds : (0 <= N <= 2000)%Z.
Hypothesis wash_cost_bounds : (0 <= wash_cost <= 20000)%Z.
Hypothesis interval_pos : (0 < iv)%Z.

Lemma total_wash_cost_ub :
  ub (Py.float_of_int (total_wash_cost_of N wash_cost iv)) 40000000.
Proof.
  change 40000000%Q with (inject_Z 40000000).
  apply float_of_int_ub; [|reflexivity].
  unfold total_wash_cost_of, n_washes_of.
  assert (0 <= N / iv <= 2000)%Z as Hq.
  { split; [apply Z.div_pos; lia|].
    apply Z.le_trans with N; [|lia].
    apply Z.div_le_upper_bound; nia. }
  nia.
Qed.

Lemma fuel_cost_ub :
  ub (fuel_cost_of N flight_time fuel_price rate rf iv) 27216000000.
Proof.
  unfold fuel_cost_of, fuel_kg_of.
  apply cost_ub; [exact time_ub|exact price_ub|].
  apply wash_loop_burn_ub; [lia|exact rate_ub|exact recovery_ub].
Qed.

Lemma charged_cost_nnf :
  nnf (fuel_cost_of N flight_time fuel_price rate rf iv
       + Py.float_of_int (total_wash_cost_of N wash_cost iv)).
Proof.
  assert (2 ^ 53 = 9007199254740992)%Z as E53 by reflexivity.
  eapply (add_ub _ _ _ _ (inject_Z 27256000000));
    [exact fuel_cost_ub|exact total_wash_cost_ub| |].
  - apply dyadic_Z. lia.
  - vm_compute. discriminate.
Qed.

Lemma net_le_fuel_saving :
  (net_of N flight_time fuel_price wash_cost rate rf iv
   <=? baseline_cost N flight_time fuel_price rate
       - fuel_cost_of N flight_time fuel_price rate rf iv) = true.
Proof.
  unfold net_of.
  pose proof fuel_cost_ub as [Hf _].
  pose proof total_wash_cost_ub as [Hw _].
  apply Signed.sub_le.
  - apply baseline_cost_finite; [lia|assumption..].
  - exact Hf.
  - exact charged_cost_nnf.
  - apply NonNeg.add_mono.
    + left. exact Hf.
    + unfold nnf, nn in Hw.
      destruct (Prim2SF (Py.float_of_int (total_wash_cost_of N wash_cost iv)))
        as [[|]|[|]| |[|] ? ?]; simpl; tauto.
Qed.

End NetSaving.

(** X26. Within the widgets' bounds, the net saving of a positive wash interval
    is at most the fuel saving [baseline_cost - fuel_cost] (on binary64,
    rounding included): charging the washes never raises it.  For the
    interval equal to the number of flights, whose only wash comes after
    the last flight, the net saving is at most zero. *)
Theorem net_saving_at_most_fuel_saving
    (s : Inputs.sidebar) (m : Inputs.model) (iv : Z) :
  Inputs.widget_bounds s ->
  Inputs.mode_inputs s = Some m ->
  0 < iv ->
  let N := Inputs.flights_per_year s in
  let ft := Inputs.flight_time s in
  let fp := Inputs.fuel_price s in
  let wc := Inputs.wash_cost s in
  let rate := Inputs.degradation_rate m in
  let rf := Inputs.recovery_factor m in
  (Dashboard.net_of N ft fp wc rate rf iv
   <=? Dashboard.baseline_cost N ft fp rate
       - Dashboard.fuel_cost_of N ft fp rate rf iv)%float = true
  /\ (Dashboard.net_of N ft fp wc rate rf N <=? 0)%float = true.
Proof.
  intros Hw Hm Hiv. cbv zeta.
  destruct (sidebar_model_bounds s m Hw Hm) as (HN & Ht & Hp & Hr & Hrf).
  assert (50 <= Inputs.flights_per_year s <= 2000
          /\ 1000 <= Inputs.wash_cost s <= 20000) as [HN' Hwc]
    by (unfold Inputs.widget_bounds in Hw; tauto).
  split.
  - apply net_le_fuel_saving; try assumption; lia.
  - pose proof (net_le_fuel_saving _ _ _ _ Hr Hrf Ht Hp
                  (Inputs.flights_per_year s) (Inputs.wash_cost s)
                  (Inputs.flights_per_year s) ltac:(lia) ltac:(lia)
                  ltac:(lia)) as H.
    assert (Dashboard.fuel_cost_of (Inputs.flights_per_year s)
              (Inputs.flight_time s) (Inputs.fuel_price s)
              (Inputs.degradation_rate m) (Inputs.recovery_factor m)
              (Inputs.flights_per_year s)
            = Dashboard.baseline_cost (Inputs.flights_per_year s)
                (Inputs.flight_time s) (Inputs.fuel_price s)
                (Inputs.degradation_rate m)) as E.
    { unfold Dashboard.fuel_cost_of, Dashboard.fuel_kg_of,
        Dashboard.baseline_cost, Dashboard.baseline_fuel_kg.
      rewrite wash_after_last_burn by lia. reflexivity. }
    rewrite E, sub_self in H; [exact H|].
    apply baseline_cost_finite; assumption.
Qed.

Lemma net_saving_at_most_fuel_saving_witness :
  exists m,
    Inputs.mode_inputs (Inputs.Sidebar false None 630 620 2.5 100 0.8 4000
                          0.012 92 1250 1230 40) = Some m
    /\ (Dashboard.net_of 100 2.5 0.8 4000 (Inputs.degradation_rate m)
          (Inputs.recovery_factor m) 30
        <=? Dashboard.baseline_cost 100 2.5 0.8 (Inputs.degradation_rate m)
            - Dashboard.fuel_cost_of 100 2.5 0.8 (Inputs.degradation_rate m)
                (Inputs.recovery_factor m) 30)%float = true
    /\ (Dashboard.net_of 100 2.5 0.8 4000 (Inputs.degradation_rate m)
          (Inputs.recovery_factor m) 100 <=? 0)%float = true.
Proof.
  eexists. split; [vm_compute; reflexivity|].
  apply (net_saving_at_most_fuel_saving
           (Inputs.Sidebar false None 630 620 2.5 100 0.8 4000
              0.012 92 1250 1230 40) _ 30).
  - unfold Inputs.widget_bounds. simpl. repeat split; try lia; reflexivity.
  - vm_compute. reflexivity.
  - lia.
Defined.

(** ** The efficiency falls from flight to flight between washes *)

Section SawTooth.

Import Dashboard Round Double.
Local Open Scope float_scope.

Variables rate rf : float.
Hypothesis rate_ub : ub rate (1 / 16).
Hypothesis recovery_ub : ub (1 - rf) 1.

Lemma eff_falls (interval : option Z) (c : nat) :
  (c < 2000)%nat ->
  Spec.wash_due interval (Z.of_nat c) = false ->
  (eff_entering rate rf interval (S c) <=? eff_entering rate rf interval c)
  = true.
Proof.
  intros Hc Hdue. unfold eff_entering.
  assert (exists iv, forall k, (k <= 2000)%nat ->
            Spec.deg_entering rate rf interval k
            = deg (wash_after rate rf iv k)) as [iv Hst].
  { destruct interval as [iv|].
    - exists iv. intros k _. apply deg_entering_wash_after.
    - exists 2001%Z. intros k Hk.
      rewrite deg_entering_none by exact Hk.
      apply deg_entering_wash_after. }
  destruct (wash_after_bounds rate rf rate_ub recovery_ub iv c ltac:(lia))
    as [Hd _].
  destruct (wash_after_bounds rate rf rate_ub recovery_ub iv (S c)
              ltac:(lia)) as [Hd' _].
  rewrite <- !Hst in Hd, Hd' by lia.
  apply Signed.sub_le;
    [exact hundred_nnf|exact (proj1 Hd)|exact (proj1 Hd')|].
  simpl. rewrite Hdue.
  apply NonNeg.add_mono.
  - left. exact (proj1 Hd).
  - destruct rate_ub as [Hr _]. unfold nnf, nn in Hr.
    destruct (Prim2SF rate) as [[|]|[|]| |[|] ? ?]; simpl; tauto.
Qed.

End SawTooth.

(** X27. Within the widgets' bounds, the efficiency recorded for a flight is at
    most the one recorded for the flight before (on binary64, rounding
    included) on the trajectory without washes, and on the trajectories
    with washes whenever no wash took place between the two flights: the
    curves can rise only right after a wash. *)
Theorem efficiency_falls_between_washes
    (s : Inputs.sidebar) (r : Inputs.report) (c : nat) :
  Inputs.widget_bounds s ->
  Inputs.run s = Some r ->
  (S c < Z.to_nat (Inputs.flights_per_year s))%nat ->
  let t := Inputs.r_trajectories r in
  let N := Inputs.flights_per_year s in
  let falls (l : list float) :=
    exists a b, nth_error l c = Some a /\ nth_error l (S c) = Some b
                /\ (b <=? a)%float = true in
  falls (Dashboard.eff_no t)
  /\ ((Z.of_nat c + 1) mod Dashboard.interval_two N <> 0 ->
      falls (Dashboard.eff_two t))
  /\ ((Z.of_nat c + 1) mod Dashboard.opt_interval (Inputs.r_optimum r) <> 0 ->
      falls (Dashboard.eff_opt t)).
Proof.
  intros Hw Hrun Hc. cbv zeta.
  destruct (run_inv s r Hrun) as (Hm & _ & _ & _ & _ & Ht).
  destruct (sidebar_model_bounds s _ Hw Hm) as (HN & _ & _ & Hrate & Hrf).
  rewrite Ht.
  destruct (trajectories_lists (Inputs.flights_per_year s)
              (Inputs.degradation_rate (Inputs.r_model r))
              (Inputs.recovery_factor (Inputs.r_model r))
              (Dashboard.opt_interval (Inputs.r_optimum r)))
    as (-> & -> & ->).
  assert (forall interval,
            Spec.wash_due interval (Z.of_nat c) = false ->
            exists a b,
              nth_error
                (map (eff_entering (Inputs.degradation_rate (Inputs.r_model r))
                        (Inputs.recovery_factor (Inputs.r_model r)) interval)
                   (seq 0 (Z.to_nat (Inputs.flights_per_year s)))) c
              = Some a
              /\ nth_error
                   (map (eff_entering
                           (Inputs.degradation_rate (Inputs.r_model r))
                           (Inputs.recovery_factor (Inputs.r_model r))
                           interval)
                      (seq 0 (Z.to_nat (Inputs.flights_per_year s)))) (S c)
                 = Some b
              /\ (b <=? a)%float = true) as H.
  { intros interval Hdue.
    eexists. eexists.
    split; [apply eff_entering_nth; lia|].
    split; [apply eff_entering_nth; lia|].
    apply eff_falls; try assumption. lia. }
  split; [apply H; reflexivity|].
  split; intros Hmod; apply H; simpl; apply Z.eqb_neq; exact Hmod.
Qed.

Lemma efficiency_falls_between_washes_witness :
  exists r a b,
    Inputs.run (Inputs.Sidebar false None 630 620 2.5 100 0.8 4000
                  0.012 92 1250 1230 40) = Some r
    /\ nth_error (Dashboard.eff_no (Inputs.r_trajectories r)) 60 = Some a
    /\ nth_error (Dashboard.eff_no (Inputs.r_trajectories r)) 61 = Some b
    /\ (b <=? a)%float = true.
Proof.
  assert (exists r,
            Inputs.run (Inputs.Sidebar false None 630 620 2.5 100 0.8 4000
                          0.012 92 1250 1230 40) = Some r) as [r Hr]
    by (eexists; vm_compute; reflexivity).
  destruct (efficiency_falls_between_washes
              (Inputs.Sidebar false None 630 620 2.5 100 0.8 4000
                 0.012 92 1250 1230 40) r 60%nat)
    as [(a & b & Ha & Hb & Hab) _].
  - unfold Inputs.widget_bounds. simpl. repeat split; try lia; reflexivity.
  - exact Hr.
  - vm_compute. lia.
  - exists r, a, b. repeat split; assumption.
Defined.
